(** * gotodo: the task mutation and ordering engine

    A shallow embedding of [main.go] (validators, parsers, [sortTodos],
    [patchTodos], [deleteTodos], [findFirstTodo], the three
    [...Operation] wrappers and the web form reader [paramsToPatch]) and
    of the earlier [createTodo] variant of the same program, together
    with the properties of the specification that concern them and
    further properties of the code.

    Conventions.
    - A [time.Time] is the instant it denotes: a number of nanoseconds
      since Go's zero time (January 1, year 1, 00:00:00 UTC).  [Compare],
      [Before] and [Equal] only look at the instant, so location and
      monotonic reading are left out.
    - A Go [string] is a sequence of bytes: Rocq's [string].
    - A slice is a header (pointer, length, capacity) into a heap of
      backing arrays; functions that index, append or sort run in a
      state monad over that heap, and a run-time panic is [None].
    - Every call to [time.Now()] is an explicit argument of the function
      that makes it. *)

From Stdlib Require Import ZArith String Ascii Bool Sorted Permutation Lia.
From stdpp Require Import base option list gmap strings sorting.

Set Default Proof Using "Type".

(** ** Package [time] *)

Module GoTime.
Local Open Scope Z_scope.

Definition Time : Type := Z.
Definition Duration : Type := Z.

Definition Nanosecond : Duration := 1.
Definition Second : Duration := 1000000000 * Nanosecond.
Definition Minute : Duration := 60 * Second.
Definition Hour : Duration := 60 * Minute.

(** [time.Time{}] *)
Definition zero : Time := 0.

Definition IsZero (t : Time) : bool := t =? zero.

Definition Before (t u : Time) : bool := t <? u.
Definition Equal (t u : Time) : bool := t =? u.

Definition Compare (t u : Time) : Z :=
  if t <? u then -1 else if u <? t then 1 else 0.

Definition Add (t : Time) (d : Duration) : Time := t + d.

(** [t.Round(d)]: the nearest multiple of [d] since the zero time,
    halfway values rounding up; [t] itself when [d <= 0]. *)
Definition Round (t : Time) (d : Duration) : Time :=
  if d <=? 0 then t
  else
    let r := t mod d in
    if r + r <? d then Add t (- r) else Add t (d - r).

(** Days elapsed since the zero time and time elapsed within the day,
    both in UTC (the zone [time.Parse] gives a date without zone). *)
Definition Day : Duration := 24 * Hour.
Definition calendarDay (t : Time) : Z := t / Day.
Definition clock (t : Time) : Duration := t mod Day.

(** [time.Date(y, m, d, 0, 0, 0, 0, time.UTC)] for a valid civil date. *)
Definition civilDays (y m d : Z) : Z :=
  let y' := if m <=? 2 then y - 1 else y in
  let era := y' / 400 in
  let yoe := y' - era * 400 in
  let doy := (153 * (if 2 <? m then m - 3 else m + 9) + 2) / 5 + d - 1 in
  let doe := yoe * 365 + yoe / 4 - yoe / 100 + doy in
  era * 146097 + doe - 306.

Definition Date (y m d : Z) : Time := civilDays y m d * Day.

Definition At (y m d hh mm : Z) : Time :=
  Date y m d + hh * Hour + mm * Minute.
End GoTime.
Import GoTime.

(** ** The data model *)

(** [int8(x)]: conversion with wrap-around. *)
Definition int8 (x : Z) : Z := ((x + 128) mod 256 - 128)%Z.

Record Todo : Type := mkTodo {
  Priority : Z;          (* int8 *)
  Deadline : Time;
  AddedAt  : Time;
  DoneAt   : Time;
  Done     : bool;
  Summary  : string;
  Details  : string
}.

(** The zero value [Todo{}]. *)
Definition zeroTodo : Todo := mkTodo 0%Z zero zero zero false "" "".

(** [TodoPatch]: a nil pointer is [None]. *)
Record TodoPatch : Type := mkPatch {
  pDone     : option bool;
  pSummary  : option string;
  pDetails  : option string;
  pPriority : option Z;
  pDeadline : option Time
}.

(** The zero value [TodoPatch{}]: no field supplied. *)
Definition emptyPatch : TodoPatch := mkPatch None None None None None.

(** Field assignments [x.F = v]. *)
Definition setPriority (v : Z) (x : Todo) : Todo :=
  mkTodo v (Deadline x) (AddedAt x) (DoneAt x) (Done x) (Summary x) (Details x).
Definition setDeadline (v : Time) (x : Todo) : Todo :=
  mkTodo (Priority x) v (AddedAt x) (DoneAt x) (Done x) (Summary x) (Details x).
Definition setDoneAt (v : Time) (x : Todo) : Todo :=
  mkTodo (Priority x) (Deadline x) (AddedAt x) v (Done x) (Summary x) (Details x).
Definition setDone (v : bool) (x : Todo) : Todo :=
  mkTodo (Priority x) (Deadline x) (AddedAt x) (DoneAt x) v (Summary x) (Details x).
Definition setSummary (v : string) (x : Todo) : Todo :=
  mkTodo (Priority x) (Deadline x) (AddedAt x) (DoneAt x) (Done x) v (Details x).
Definition setDetails (v : string) (x : Todo) : Todo :=
  mkTodo (Priority x) (Deadline x) (AddedAt x) (DoneAt x) (Done x) (Summary x) v.

(** Go's [(value, error)] results; an error carries its message. *)
Inductive result (A : Type) : Type :=
  | Ok (a : A)
  | Err (msg : string).
Arguments Ok {A} a.
Arguments Err {A} msg.

(** ** Validation functions *)

Definition isValidPriority (p : Z) : bool := ((1 <=? p) && (p <=? 5))%Z.

(** [now] is the reading of [time.Now()] inside the function. *)
Definition isValidDeadline (now : Time) (t : Time) : bool :=
  let now := Round now (Hour * 24)%Z in
  (Compare t now >=? 0)%Z.

(** ** Package [strconv]: [ParseInt(s, 10, bitSize)] *)

Module strconv.
Local Open Scope Z_scope.

Inductive NumError : Type := ErrSyntax | ErrRange.

Definition byte (c : ascii) : Z := Z.of_N (N_of_ascii c).

(** [lower(c)] is [c | ('x' - 'X')]. *)
Definition lower (c : Z) : Z := Z.lor c 32.

Definition maxUint64 : Z := 2 ^ 64 - 1.

(** The value of one character in [ParseUint]'s loop; [None] is the
    [default] case of its switch (base 10: an underscore is not
    skipped). *)
Definition digit (c : Z) : option Z :=
  if (48 <=? c) && (c <=? 57) then Some (c - 48)
  else if (97 <=? lower c) && (lower c <=? 122) then Some (lower c - 97 + 10)
  else None.

(** The loop of [ParseUint] for base 10; the first component of the
    result is the value returned beside the error. *)
Fixpoint parseUintLoop (maxVal : Z) (s : string) (n : Z) : Z * option NumError :=
  match s with
  | EmptyString => (n, None)
  | String c s' =>
      match digit (byte c) with
      | None => (0, Some ErrSyntax)
      | Some d =>
          if 10 <=? d then (0, Some ErrSyntax)
          else if maxUint64 / 10 + 1 <=? n then (maxVal, Some ErrRange)
          else
            let n := n * 10 in
            let n1 := (n + d) mod 2 ^ 64 in
            if (n1 <? n) || (maxVal <? n1) then (maxVal, Some ErrRange)
            else parseUintLoop maxVal s' n1
      end
  end.

Definition ParseUint (s : string) (bitSize : Z) : Z * option NumError :=
  match s with
  | EmptyString => (0, Some ErrSyntax)
  | _ => parseUintLoop (2 ^ bitSize - 1) s 0
  end.

Definition ParseInt (s : string) (bitSize : Z) : Z * option NumError :=
  match s with
  | EmptyString => (0, Some ErrSyntax)
  | String c0 s1 =>
      let neg := byte c0 =? 45 in
      let s' := if (byte c0 =? 43) || (byte c0 =? 45) then s1 else s in
      match ParseUint s' bitSize with
      | (_, Some ErrSyntax) => (0, Some ErrSyntax)
      | (un, _) =>
          let cutoff := 2 ^ (bitSize - 1) in
          if negb neg && (cutoff <=? un) then (cutoff - 1, Some ErrRange)
          else if neg && (cutoff <? un) then (- cutoff, Some ErrRange)
          else (if neg then - un else un, None)
      end
  end.

(** [Atoi(s)] is [ParseInt(s, 10, 0)] at the 64-bit [int]. *)
Definition Atoi (s : string) : Z * option NumError := ParseInt s 64.
End strconv.

(** ** Conversion functions (parsing only, no validation) *)

Definition stringToPriority (s : string) : result (option Z) :=
  if String.eqb s "" then Ok None
  else
    match strconv.ParseInt s 8 with
    | (_, Some _) => Err "invalid priority format"
    | (p, None) => Ok (Some (int8 p))
    end.

(** ** Slices and the process state *)

Definition loc : Type := nat.

(** A slice header.  Every slice of the program starts at the first
    element of its backing array, which is stored in full (all [s_cap]
    elements) in the heap. *)
Record slice : Type := Slice {
  s_ptr : loc;
  s_len : nat;
  s_cap : nat
}.

(** [[]Todo(nil)] *)
Definition nilSlice : slice := Slice 0 0 0.

Record World : Type := mkWorld {
  heap     : gmap loc (list Todo);   (* backing arrays *)
  todosVar : slice;                  (* the variable [todos] of [main] *)
  dataFile : option (list Todo);     (* records last written to the data file *)
  writable : bool                    (* does [os.Create(dataFile)] succeed *)
}.

(** Computations over the process state; [None] is a run-time panic. *)
Definition Go (A : Type) : Type := World → option (A * World).

#[export] Instance Go_ret : MRet Go := λ A a w, Some (a, w).
#[export] Instance Go_bind : MBind Go := λ A B f m w,
  match m w with
  | Some (a, w') => f a w'
  | None => None
  end.

Definition arrayOf (w : World) (s : slice) : list Todo :=
  default [] (heap w !! s_ptr s).

(** The elements a slice gives access to. *)
Definition contents (w : World) (s : slice) : list Todo :=
  take (s_len s) (arrayOf w s).

Definition setHeap (h : gmap loc (list Todo)) (w : World) : World :=
  mkWorld h (todosVar w) (dataFile w) (writable w).

(** Overwrite the backing array of [s]; nothing to write when the
    pointer is not allocated (the nil slice). *)
Definition setArray (s : slice) (a : list Todo) (w : World) : World :=
  match heap w !! s_ptr s with
  | Some _ => setHeap (<[s_ptr s := a]> (heap w)) w
  | None => w
  end.

Definition alloc (a : list Todo) (w : World) : loc * World :=
  let p := fresh (dom (heap w)) in (p, setHeap (<[p := a]> (heap w)) w).

(** [s[i]] as a value: panics out of range. *)
Definition index (s : slice) (i : nat) : Go Todo := λ w,
  if decide (i < s_len s) then
    match arrayOf w s !! i with
    | Some x => Some (x, w)
    | None => None
    end
  else None.

(** [s[i].F = v], with [f] the field assignment: panics out of range. *)
Definition update (s : slice) (i : nat) (f : Todo → Todo) : Go unit := λ w,
  if decide (i < s_len s) then
    match arrayOf w s !! i with
    | Some _ => Some (tt, setArray s (alter f i (arrayOf w s)) w)
    | None => None
    end
  else None.

(** [make([]Todo, len, cap)] *)
Definition make (len cap : nat) : Go slice := λ w,
  if decide (len ≤ cap) then
    let '(p, w') := alloc (replicate cap zeroTodo) w in
    Some (Slice p len cap, w')
  else None.

(** [copy(dst, src)] *)
Definition copy (dst src : slice) : Go nat := λ w,
  let n := Nat.min (s_len dst) (s_len src) in
  Some (n, setArray dst (take n (arrayOf w src) ++ drop n (arrayOf w dst)) w).

Definition readTodos : Go slice := λ w, Some (todosVar w, w).

Definition writeTodos (s : slice) : Go unit := λ w,
  Some (tt, mkWorld (heap w) s (dataFile w) (writable w)).

(** Result messages of the operations; the comment gives the format
    string each one is printed with. *)
Inductive Message : Type :=
  | TodoAdded                                  (* "todo added" *)
  | NoTodoFound (summary : string)             (* "no todo found with summary: %q" *)
  | Deleted (removed : nat) (summary : string) (* "deleted %d todo(s) with summary %q" *)
  | Updated (updated : nat) (summary : string) (* "updated %d todo(s) with summary %q" *).

(** ** The program *)

Section Program.

(** Library functions the program calls and this development does not
    look into. *)

(** [strings.TrimSpace] *)
Variable TrimSpace : string → string.

(** [time.Parse(dateYYYYMMDD, s)]; [None] when it returns an error. *)
Variable Parse : string → option Time.

(** The order in which [sort.Slice] leaves the elements of a slice,
    given the comparison of two elements. *)
Variable sortOrder : (Todo → Todo → bool) → list Todo → list Todo.

(** Spare capacity [append] allocates when it has to grow a slice of
    the given capacity. *)
Variable spare : nat → nat.

(** [append(s, x)] *)
Definition append (s : slice) (x : Todo) : Go slice := λ w,
  if decide (s_len s < s_cap s) then
    Some (Slice (s_ptr s) (S (s_len s)) (s_cap s),
          setArray s (<[s_len s := x]> (arrayOf w s)) w)
  else
    let k := spare (s_cap s) in
    let '(p, w') := alloc (contents w s ++ x :: replicate k zeroTodo) w in
    Some (Slice p (S (s_len s)) (S (s_len s) + k), w').

(** [sort.Slice(s, less)], where [less i j] compares [s[i]] and [s[j]]
    through [lt]. *)
Definition sort_Slice (s : slice) (lt : Todo → Todo → bool) : Go unit := λ w,
  Some (tt, setArray s (sortOrder lt (contents w s) ++ drop (s_len s) (arrayOf w s)) w).

Definition stringToDeadline (s : string) : result (option Time) :=
  if String.eqb s "" then Ok None
  else
    match Parse s with
    | None => Err "invalid deadline format, expected 2006-01-02"
    | Some dl => Ok (Some dl)
    end.

(** The comparison [sortTodos] hands to [sort.Slice]. *)
Definition sortTodos_less (a b : Todo) : bool :=
  (* done: todo > done *)
  if negb (Bool.eqb (Done a) (Done b)) then negb (Done a) && Done b
  (* both done; doneAt: earlier > later *)
  else if Done a && Done b then Before (DoneAt a) (DoneAt b)
  (* both todo; deadline: earlier > later *)
  else if negb (Equal (Deadline a) (Deadline b)) then
    Before (Deadline a) (Deadline b)
  (* priority: higher > lower *)
  else if negb (Priority a =? Priority b)%Z then (Priority a >? Priority b)%Z
  (* addAt: earlier > later *)
  else Before (AddedAt a) (AddedAt b).

Definition sortTodos (todos : slice) : Go slice :=
  sorted ← make (s_len todos) (s_len todos);
  _ ← copy sorted todos;
  sort_Slice sorted sortTodos_less;;
  mret sorted.

(** The body of the loop of [patchTodos] at index [i], followed by
    the remaining [n] iterations. *)
Fixpoint patchTodos_loop (now : Time) (todos : slice) (match_ : string)
    (patch : TodoPatch) (n i updated : nat) : Go nat :=
  match n with
  | O => mret updated
  | S n' =>
      x ← index todos i;
      if negb (String.eqb (Summary x) match_) then
        patchTodos_loop now todos match_ patch n' (S i) updated
      else
        match pDone patch with
        | Some true =>
            if negb (Done x) then
              update todos i (setDoneAt now);;
              update todos i (setDone true)
            else
              update todos i (setDone false);;
              update todos i (setDoneAt zero)
        | _ => mret tt
        end;;
        match pSummary patch with
        | Some v => update todos i (setSummary v)
        | None => mret tt
        end;;
        match pDetails patch with
        | Some v => update todos i (setDetails v)
        | None => mret tt
        end;;
        match pPriority patch with
        | Some v => update todos i (setPriority v)
        | None => mret tt
        end;;
        match pDeadline patch with
        | Some v => update todos i (setDeadline v)
        | None => mret tt
        end;;
        patchTodos_loop now todos match_ patch n' (S i) (S updated)
  end.

(** [now] is the reading of [time.Now()] at the start. *)
Definition patchTodos (now : Time) (todos : slice) (match_ : string)
    (patch : TodoPatch) : Go nat :=
  patchTodos_loop now todos match_ patch (s_len todos) 0 0.

Fixpoint deleteTodos_loop (todos : slice) (summary : string)
    (n i : nat) (out : slice) (deleted : nat) : Go (slice * nat) :=
  match n with
  | O => mret (out, deleted)
  | S n' =>
      t ← index todos i;
      if String.eqb (Summary t) summary then
        deleteTodos_loop todos summary n' (S i) out (S deleted)
      else
        out' ← append out t;
        deleteTodos_loop todos summary n' (S i) out' deleted
  end.

Definition deleteTodos (todos : slice) (summary : string) : Go (slice * nat) :=
  out ← make 0 (s_len todos);
  deleteTodos_loop todos summary (s_len todos) 0 out 0.

(** [dump]: the whole collection replaces the data file, whose contents
    are kept as the records written rather than as their JSON text; when
    the file cannot be created the failure is logged and nothing is
    written. *)
Definition dump (todos : slice) : Go unit := λ w,
  if writable w then
    Some (tt, mkWorld (heap w) (todosVar w) (Some (contents w todos)) (writable w))
  else Some (tt, w).

(** *** Operations

    The operations receive a pointer to the variable [todos] of [main]
    ([todosVar]) and a mutex, which they hold from before they touch
    the collection to after [dump]; one operation runs at a time here,
    so [Lock] and [Unlock] do nothing. *)

(** [now0], [now1] and [now2] are the readings of [time.Now()] for the
    default deadline, inside [isValidDeadline] and for [AddedAt]. *)
Definition addTodoOperation (now0 now1 now2 : Time)
    (summary details deadlineStr priorityStr : string) : Go (result Message) :=
  if String.eqb (TrimSpace summary) "" then mret (Err "summary is required")
  else
    match stringToDeadline deadlineStr with
    | Err e => mret (Err e)
    | Ok deadline =>
        let dl := Round now0 (Hour * 24)%Z in
        let rest (dl : Time) : Go (result Message) :=
          match stringToPriority priorityStr with
          | Err e => mret (Err e)
          | Ok priority =>
              let p := int8 1 in
              let rest (p : Z) : Go (result Message) :=
                let newTodo :=
                  {| Priority := p;
                     Deadline := dl;
                     AddedAt := now2;
                     DoneAt := zero;
                     Done := false;
                     Summary := TrimSpace summary;
                     Details := details |} in
                old ← readTodos;
                new ← append old newTodo;
                writeTodos new;;
                cur ← readTodos;
                dump cur;;
                mret (Ok TodoAdded) in
              match priority with
              | Some v =>
                  if negb (isValidPriority v) then
                    mret (Err "priority out of range (1-5)")
                  else rest v
              | None => rest p
              end
          end in
        match deadline with
        | Some v =>
            if negb (isValidDeadline now1 v) then
              mret (Err "deadline is before today")
            else rest v
        | None => rest dl
        end
    end.

Definition deleteTodoOperation (summary : string) : Go Message :=
  old ← readTodos;
  '(newTodos, removed) ← deleteTodos old summary;
  (if decide (0 < removed) then
     writeTodos newTodos;;
     cur ← readTodos;
     dump cur
   else mret tt);;
  if decide (removed = 0) then mret (NoTodoFound summary)
  else mret (Deleted removed summary).

(** [now1] is the reading of [time.Now()] inside [isValidDeadline],
    [now2] the one inside [patchTodos]. *)
Definition setTodoOperation (now1 now2 : Time) (match_ : string)
    (patch : TodoPatch) : Go (result Message) :=
  if match pPriority patch with
     | Some v => negb (isValidPriority v)
     | None => false
     end
  then mret (Err "priority out of range (1-5)")
  else if match pDeadline patch with
          | Some v => negb (isValidDeadline now1 v)
          | None => false
          end
  then mret (Err "deadline is before today")
  else if match pSummary patch with
          | Some v => String.eqb (TrimSpace v) ""
          | None => false
          end
  then mret (Err "summary cannot be empty")
  else
    cur ← readTodos;
    updated ← patchTodos now2 cur match_ patch;
    (if decide (0 < updated) then
       cur ← readTodos;
       dump cur
     else mret tt);;
    if decide (updated = 0) then mret (Ok (NoTodoFound match_))
    else mret (Ok (Updated updated match_)).

(** *** The earlier variant of creation ([parsePriority],
    [parseDeadline], [createTodo]) *)

Definition parsePriority (s : string) : result (option Z) :=
  if String.eqb s "" then Ok None
  else
    match strconv.Atoi s with
    | (_, Some _) => Err "invalid priority"
    | (p, None) =>
        if ((p <? 1) || (5 <? p))%Z then Err "priority out of range (1-5)"
        else Ok (Some (int8 p))
    end.

Definition parseDeadline (now : Time) (s : string) : result (option Time) :=
  if String.eqb s "" then Ok None
  else
    match Parse s with
    | None => Err "invalid deadline format, expected 2006-01-02"
    | Some dl =>
        let now := Round now (Hour * 24)%Z in
        if (Compare dl now =? -1)%Z then Err "deadline is before today"
        else Ok (Some dl)
    end.

(** [now1] is the reading of [time.Now()] inside [parseDeadline],
    [now2] the one for [AddedAt]. *)
Definition createTodo (now1 now2 : Time)
    (summary details deadlineStr priorityStr : string) : result Todo :=
  if String.eqb (TrimSpace summary) "" then Err "summary is required"
  else
    match parseDeadline now1 deadlineStr with
    | Err e => Err e
    | Ok None => Err "deadline is required"
    | Ok (Some deadline) =>
        match parsePriority priorityStr with
        | Err e => Err e
        | Ok priority =>
            let p := match priority with Some v => v | None => int8 1 end in
            Ok {| Priority := p;
                  Deadline := deadline;
                  AddedAt := now2;
                  DoneAt := zero;
                  Done := false;
                  Summary := TrimSpace summary;
                  Details := details |}
        end
    end.

End Program.

(** ** More of the program: lookup and the web form *)

Fixpoint findFirstTodo_loop (todos : slice) (summary : string)
    (n i : nat) : Go (Todo * bool) :=
  match n with
  | O => mret (zeroTodo, false)
  | S n' =>
      t ← index todos i;
      if String.eqb (Summary t) summary then mret (t, true)
      else findFirstTodo_loop todos summary n' (S i)
  end.

Definition findFirstTodo (todos : slice) (summary : string) : Go (Todo * bool) :=
  findFirstTodo_loop todos summary (s_len todos) 0.

(** [url.Values] and its [Get]: the first value of the key, the empty
    string when the key has no value. *)
Definition Values : Type := gmap string (list string).

Definition Get (v : Values) (key : string) : string :=
  match v !! key with
  | Some (x :: _) => x
  | _ => ""
  end.

Section WebInterface.

(** [strings.TrimSpace], [strings.ToLower] and
    [time.Parse(dateYYYYMMDD, s)]. *)
Variable TrimSpace : string → string.
Variable ToLower : string → string.
Variable Parse : string → option Time.

Definition isTrue (s : string) : bool :=
  let x := ToLower (TrimSpace s) in
  if String.eqb x "1" || String.eqb x "t" || String.eqb x "true"
     || String.eqb x "yes" || String.eqb x "y" || String.eqb x "on"
  then true
  else false.

(** On an error the Go function returns the zero patch beside it. *)
Definition paramsToPatch (params : Values) : result TodoPatch :=
  let done := if isTrue (Get params "done") then Some true else None in
  let summary :=
    let s := TrimSpace (Get params "summary") in
    if negb (String.eqb s "") then Some s else None in
  let details :=
    let d := Get params "details" in
    if negb (String.eqb d "") then Some d else None in
  match stringToPriority (Get params "priority") with
  | Err e => Err e
  | Ok priority =>
      match stringToDeadline Parse (Get params "deadline") with
      | Err e => Err e
      | Ok deadline => Ok (mkPatch done summary details priority deadline)
      end
  end.

End WebInterface.

(** ** Notions the properties are stated with *)

(** A slice is well formed in a state when its backing array holds all
    of its capacity. *)
Definition wf (w : World) (s : slice) : Prop :=
  s_len s ≤ s_cap s ∧ s_cap s ≤ length (arrayOf w s).

(** What one iteration of the loop of [patchTodos] makes of a matching
    record. *)
Definition toggleDone (now : Time) (x : Todo) : Todo :=
  if negb (Done x) then setDone true (setDoneAt now x)
  else setDoneAt zero (setDone false x).

Definition patchRecord (now : Time) (patch : TodoPatch) (x : Todo) : Todo :=
  let x := match pDone patch with Some true => toggleDone now x | _ => x end in
  let x := match pSummary patch with Some v => setSummary v x | None => x end in
  let x := match pDetails patch with Some v => setDetails v x | None => x end in
  let x := match pPriority patch with Some v => setPriority v x | None => x end in
  match pDeadline patch with Some v => setDeadline v x | None => x end.

Definition patchMatching (now : Time) (match_ : string) (patch : TodoPatch)
    (x : Todo) : Todo :=
  if String.eqb (Summary x) match_ then patchRecord now patch x else x.

(** The completion invariant of the data model: [done] holds exactly
    when [doneAt] is set. *)
Definition completionInvariant (x : Todo) : Prop :=
  Done x = negb (IsZero (DoneAt x)).

(** The texts that denote an integer in base 10: an optional sign and
    one or more decimal digits. *)
Definition isDigit (c : ascii) : bool :=
  ((48 <=? strconv.byte c) && (strconv.byte c <=? 57))%Z.

Fixpoint decimalDigits (s : string) (acc : Z) : option Z :=
  match s with
  | EmptyString => Some acc
  | String c s' =>
      if isDigit c then decimalDigits s' (acc * 10 + (strconv.byte c - 48))%Z
      else None
  end.

Definition decimalNatural (s : string) : option Z :=
  match s with
  | EmptyString => None
  | _ => decimalDigits s 0%Z
  end.

Definition decimalInteger (s : string) : option Z :=
  match s with
  | EmptyString => None
  | String c s' =>
      if (strconv.byte c =? 43)%Z then decimalNatural s'
      else if (strconv.byte c =? 45)%Z then Z.opp <$> decimalNatural s'
      else decimalNatural s
  end.

(** What [sort.Slice] asks of the comparison (a transitive ordering) and
    what it promises about the order it leaves. *)
Definition transitiveOrdering (lt : Todo → Todo → bool) : Prop :=
  (∀ a, lt a a = false) ∧
  (∀ a b c, lt a b = true → lt b c = true → lt a c = true) ∧
  (∀ a b c, lt a b = false → lt b c = false → lt a c = false).

Definition sortContract (sortOrder : (Todo → Todo → bool) → list Todo → list Todo) : Prop :=
  ∀ lt l,
    sortOrder lt l ≡ₚ l ∧
    (transitiveOrdering lt →
     StronglySorted (λ a b, lt b a = false) (sortOrder lt l)).

(** The other invariants of the data model, and the data file holding
    the collection. *)
Definition priorityInRange (x : Todo) : Prop := (1 ≤ Priority x ≤ 5)%Z.

Definition synced (w : World) : Prop :=
  dataFile w = Some (contents w (todosVar w)).

(** No two records of the list tie in the display order. *)
Definition noTies (l : list Todo) : Prop :=
  ∀ a b, a ∈ l → b ∈ l → a ≠ b →
    sortTodos_less a b = true ∨ sortTodos_less b a = true.

(** The patches that pass the validation of [setTodoOperation]: the
    priority, the deadline and the summary they set, if any, are
    acceptable. *)
Definition validPatch (TrimSpace : string → string) (now1 : Time)
    (patch : TodoPatch) : Prop :=
  (∀ p, pPriority patch = Some p → isValidPriority p = true) ∧
  (∀ d, pDeadline patch = Some d → isValidDeadline now1 d = true) ∧
  (∀ s, pSummary patch = Some s → TrimSpace s ≠ "").

(** ** Instances of the library functions, to run the program on
    concrete inputs *)

(** [strings.TrimSpace] on ASCII text. *)
Definition isSpace (c : ascii) : bool :=
  let n := strconv.byte c in
  (((9 <=? n) && (n <=? 13)) || (n =? 32))%Z.

Fixpoint trimLeft (s : string) : string :=
  match s with
  | EmptyString => EmptyString
  | String c s' => if isSpace c then trimLeft s' else s
  end.

Fixpoint trimRight (s : string) : string :=
  match s with
  | EmptyString => EmptyString
  | String c s' =>
      match trimRight s' with
      | EmptyString => if isSpace c then EmptyString else String c EmptyString
      | r => String c r
      end
  end.

Definition asciiTrimSpace (s : string) : string := trimRight (trimLeft s).

(** [time.Parse("2006-01-02", s)]: four digits, two digits and two
    digits that name a day of the calendar. *)
Definition daysIn (y m : Z) : Z :=
  if (m =? 2)%Z then
    if ((y mod 4 =? 0) && (negb (y mod 100 =? 0) || (y mod 400 =? 0)))%Z
    then 29%Z else 28%Z
  else if ((m =? 4) || (m =? 6) || (m =? 9) || (m =? 11))%Z then 30%Z
  else 31%Z.

Definition parseYMD (s : string) : option Time :=
  match s with
  | String y1 (String y2 (String y3 (String y4 (String d1
      (String m1 (String m2 (String d2
        (String a1 (String a2 EmptyString))))))))) =>
      if forallb isDigit [y1; y2; y3; y4; m1; m2; a1; a2]
         && (strconv.byte d1 =? 45)%Z && (strconv.byte d2 =? 45)%Z then
        let v c := (strconv.byte c - 48)%Z in
        let y := (v y1 * 1000 + v y2 * 100 + v y3 * 10 + v y4)%Z in
        let m := (v m1 * 10 + v m2)%Z in
        let d := (v a1 * 10 + v a2)%Z in
        if ((1 <=? m) && (m <=? 12) && (1 <=? d) && (d <=? daysIn y m))%Z
        then Some (Date y m d)
        else None
      else None
  | _ => None
  end.

(** The insertion sort [sort.Slice] runs on short slices: each element
    in turn moves left past the elements it is less than.  The sorted
    prefix is kept last element first. *)
Fixpoint insertBack (lt : Todo → Todo → bool) (x : Todo) (prefix : list Todo) : list Todo :=
  match prefix with
  | [] => [x]
  | y :: prefix' =>
      if lt x y then y :: insertBack lt x prefix' else x :: prefix
  end.

Definition insertionSort (lt : Todo → Todo → bool) (l : list Todo) : list Todo :=
  rev (fold_left (λ prefix x, insertBack lt x prefix) l []).

(** No spare capacity on growth. *)
Definition exactFit (cap : nat) : nat := 0.

(** [strings.ToLower] on ASCII text. *)
Definition lowerAscii (c : ascii) : ascii :=
  let n := strconv.byte c in
  if ((65 <=? n) && (n <=? 90))%Z then ascii_of_N (N_of_ascii c + 32) else c.

Fixpoint asciiToLower (s : string) : string :=
  match s with
  | EmptyString => EmptyString
  | String c s' => String (lowerAscii c) (asciiToLower s')
  end.

(** ** States and records the properties are stated with *)

(** Writing [x] at index [i] of the backing array of [s]. *)
Definition put (s : slice) (i : nat) (x : Todo) (w : World) : World :=
  setArray s (<[i := x]> (arrayOf w s)) w.

(** The state in which every record of [todos] that matches has been
    patched. *)
Definition patched (now : Time) (todos : slice) (match_ : string)
    (patch : TodoPatch) (w : World) : World :=
  setArray todos
    ((patchMatching now match_ patch <$> contents w todos)
     ++ drop (s_len todos) (arrayOf w todos)) w.

(** A process that has loaded no data file. *)
Definition emptyWorld : World := mkWorld ∅ nilSlice None true.

(** A collection with two records of the same summary, in an array with
    room for one more. *)
Definition milk : Todo :=
  mkTodo 2 (Date 2099 1 1) (At 2024 3 1 8 30) zero false "buy milk" "2 litres".
Definition rent : Todo :=
  mkTodo 5 (Date 2024 4 1) (At 2024 3 2 9 0) (At 2024 3 20 18 0) true "pay rent" "".
Definition oatMilk : Todo :=
  mkTodo 1 (Date 2099 2 1) (At 2024 3 3 8 0) zero false "buy milk" "oat".

Definition sampleSlice : slice := Slice 1 3 4.
Definition sampleWorld : World :=
  mkWorld {[1 := [milk; rent; oatMilk; zeroTodo]]} sampleSlice None true.

(** The four tasks of the display-order scenario. *)
Definition taskA : Todo :=
  mkTodo 3 (Date 2024 1 1) (At 2023 12 1 10 0) zero false "A" "".
Definition taskB : Todo :=
  mkTodo 5 (Date 2024 1 1) (At 2023 12 2 10 0) zero false "B" "".
Definition taskC : Todo :=
  mkTodo 1 (Date 2022 12 1) (At 2022 11 1 10 0) (Date 2023 1 1) true "C" "".
Definition taskD : Todo :=
  mkTodo 1 (Date 2023 5 1) (At 2023 4 1 10 0) (Date 2023 6 1) true "D" "".

Definition displaySlice : slice := Slice 7 4 4.
Definition displayWorld : World :=
  mkWorld {[7 := [taskA; taskB; taskC; taskD]]} displaySlice None true.

Definition donePatch : TodoPatch := mkPatch (Some true) None None None None.
Definition priority9 : TodoPatch := mkPatch None None None (Some 9%Z) None.

(** Forms sent to the web interface. *)
Definition toggleForm : Values := {[ "done" := [" Yes "] ]}.
Definition priority9Form : Values := {[ "priority" := ["9"] ]}.
Definition editForm : Values :=
  <[ "summary" := ["  buy oat milk "] ]>
    (<[ "priority" := ["4"] ]> {[ "deadline" := ["2099-03-01"] ]}).

(** The sample collection once it has been written to the data file. *)
Definition savedWorld : World :=
  mkWorld {[1 := [milk; rent; oatMilk; zeroTodo]]} sampleSlice
    (Some [milk; rent; oatMilk]) true.

(** The four tasks stored in another order, in a larger array. *)
Definition shuffledSlice : slice := Slice 9 4 6.
Definition shuffledWorld : World :=
  mkWorld {[9 := [taskD; taskB; taskA; taskC; zeroTodo; zeroTodo]]}
    shuffledSlice None true.

Definition detailsPatch : TodoPatch :=
  mkPatch None None (Some "skimmed") None None.

(** Records can be compared for equality. *)
#[export] Instance Todo_eq_dec : EqDecision Todo.
Proof. solve_decision. Defined.

(** * Properties *)

(** ** Deadline validation *)

Section TimeFacts.
Local Open Scope Z_scope.

Lemma Day_value : Day = 86400000000000.
Proof. reflexivity. Qed.

(** Rounding to 24 hours gives the midnight (UTC) that starts the day
    before noon, and the midnight that ends it from noon on. *)
Lemma Round_Day (now : Time) :
  Round now (Hour * 24) =
  if clock now + clock now <? Day then calendarDay now * Day
  else (calendarDay now + 1) * Day.
Proof.
  unfold Round, clock, calendarDay, Add.
  replace (Hour * 24) with Day by reflexivity.
  rewrite Day_value.
  change (86400000000000 <=? 0) with false. cbv iota.
  pose proof (Z.div_mod now 86400000000000 ltac:(lia)) as E.
  destruct (_ <? _); lia.
Qed.

Lemma isValidDeadline_spec (now t : Time) :
  isValidDeadline now t = true ↔ Round now (Hour * 24) <= t.
Proof.
  unfold isValidDeadline, Compare.
  destruct (Z.ltb_spec t (Round now (Hour * 24)));
    [|destruct (Z.ltb_spec (Round now (Hour * 24)) t)];
    rewrite Z.geb_le; lia.
Qed.

(** Before noon the validator compares calendar days; from noon on it
    asks for a deadline of the next day or later. *)
Lemma isValidDeadline_days (now t : Time) :
  isValidDeadline now t = true ↔
  if clock now + clock now <? Day then calendarDay now <= calendarDay t
  else calendarDay now + 1 <= calendarDay t.
Proof.
  rewrite isValidDeadline_spec, Round_Day.
  unfold calendarDay. rewrite Day_value.
  pose proof (Z.div_mod t 86400000000000 ltac:(lia)).
  pose proof (Z.mod_pos_bound t 86400000000000 ltac:(lia)).
  destruct (_ <? _); nia.
Qed.

Lemma isValidDeadline_earlier_day (now t : Time) :
  calendarDay t < calendarDay now → isValidDeadline now t = false.
Proof.
  intros Hlt. apply not_true_is_false. rewrite isValidDeadline_days.
  destruct (_ <? _); lia.
Qed.

Lemma isValidDeadline_later_day (now t : Time) :
  calendarDay now < calendarDay t → isValidDeadline now t = true.
Proof.
  intros Hlt. rewrite isValidDeadline_days. destruct (_ <? _); lia.
Qed.

(** The day itself is accepted in the morning only. *)
Lemma isValidDeadline_same_day (now t : Time) :
  calendarDay t = calendarDay now →
  isValidDeadline now t = (clock now + clock now <? Day).
Proof.
  intros Heq. apply eq_true_iff_eq. rewrite isValidDeadline_days.
  destruct (_ <? _); split; intros; (lia || done).
Qed.
End TimeFacts.

(** C1. The validator is meant to accept a deadline whose calendar day is
    today's or later, whatever the time of day.  On 15 March 2024 at
    13:00 UTC it rejects the deadline 15 March 2024: the clock reading
    is rounded to the nearest multiple of 24 hours, which from noon on
    is the next midnight. *)
Theorem isValidDeadline_today_after_noon :
  let now := At 2024 3 15 13 0 in
  let d := Date 2024 3 15 in
  calendarDay d = calendarDay now ∧ isValidDeadline now d = false.
Proof. vm_compute. split; reflexivity. Qed.

(** ** Parsing a priority *)

Section ParseFacts.
Local Open Scope Z_scope.
Import strconv.

(** [ParseUint]'s switch takes a decimal digit to its value and any
    other byte to no value or to one that base 10 refuses. *)
Lemma digit_cases (c : ascii) :
  match digit (byte c) with
  | Some d =>
      if isDigit c then (d =? byte c - 48) && (0 <=? d) && (d <? 10)
      else 10 <=? d
  | None => negb (isDigit c)
  end = true.
Proof. destruct c as [[] [] [] [] [] [] [] []]; vm_compute; reflexivity. Qed.

Lemma decimalDigits_ge (s : string) (n v : Z) :
  decimalDigits s n = Some v → 0 <= n → n <= v.
Proof.
  revert n. induction s as [|c s IH]; simpl; intros n Hv Hn.
  - injection Hv as <-. lia.
  - pose proof (digit_cases c) as Hc.
    destruct (isDigit c) eqn:Hd; [|discriminate].
    destruct (digit (byte c)) as [d|]; [|discriminate].
    apply IH in Hv; lia.
Qed.

Lemma decimalNatural_nonneg (s : string) (v : Z) :
  decimalNatural s = Some v → 0 <= v.
Proof.
  destruct s; [discriminate|]. intros H.
  apply decimalDigits_ge in H; lia.
Qed.

(** The loop of [ParseUint] at 8 bits: the decimal value when the text
    is all digits and the value fits, an error otherwise (with 255
    beside a range error). *)
Lemma parseUintLoop_8 (s : string) (n : Z) :
  0 <= n <= 255 →
  match decimalDigits s n with
  | Some v =>
      if v <=? 255 then parseUintLoop 255 s n = (v, None)
      else parseUintLoop 255 s n = (255, Some ErrRange)
  | None =>
      parseUintLoop 255 s n = (0, Some ErrSyntax) ∨
      parseUintLoop 255 s n = (255, Some ErrRange)
  end.
Proof.
  revert n. induction s as [|c s IH]; simpl; intros n Hn.
  - destruct (Z.leb_spec n 255); [reflexivity | lia].
  - pose proof (digit_cases c) as Hc.
    destruct (digit (byte c)) as [d|]; destruct (isDigit c) eqn:Hd;
      try discriminate; try (left; reflexivity).
    + apply andb_prop in Hc as [Hc Hlt]. apply andb_prop in Hc as [Heq Hge].
      apply Z.eqb_eq in Heq. apply Z.leb_le in Hge. apply Z.ltb_lt in Hlt.
      subst d.
      destruct (Z.leb_spec 10 (byte c - 48)); [lia|].
      change (maxUint64 `div` 10 + 1) with 1844674407370955162.
      destruct (Z.leb_spec 1844674407370955162 n); [lia|].
      rewrite (Z.mod_small (n * 10 + (byte c - 48)) (2 ^ 64))
        by (change (2 ^ 64) with 18446744073709551616; lia).
      destruct (Z.ltb_spec (n * 10 + (byte c - 48)) (n * 10)); [lia|].
      destruct (Z.ltb_spec 255 (n * 10 + (byte c - 48))) as [Hbig|Hfit]; simpl.
      * destruct (decimalDigits s _) as [v|] eqn:Hv; [|right; reflexivity].
        apply decimalDigits_ge in Hv; [|lia].
        destruct (Z.leb_spec v 255); [lia | reflexivity].
      * apply IH. lia.
    + apply Z.leb_le in Hc.
      destruct (Z.leb_spec 10 d); [left; reflexivity | lia].
Qed.

Lemma ParseUint_8 (s : string) :
  match decimalNatural s with
  | Some v =>
      if v <=? 255 then ParseUint s 8 = (v, None)
      else ParseUint s 8 = (255, Some ErrRange)
  | None =>
      ParseUint s 8 = (0, Some ErrSyntax) ∨
      ParseUint s 8 = (255, Some ErrRange)
  end.
Proof.
  destruct s as [|c s]; [left; reflexivity|].
  apply (parseUintLoop_8 (String c s) 0). lia.
Qed.

Lemma int8_small (p : Z) : -128 <= p <= 127 → int8 p = p.
Proof. intros Hp. unfold int8. rewrite Z.mod_small; lia. Qed.

(** The range check of [ParseInt] on the digits after the sign, and
    what [stringToPriority] makes of the result. *)
Lemma ParseInt_8_digits (neg : bool) (s : string) :
  match
    match ParseUint s 8 with
    | (_, Some ErrSyntax) => (0, Some ErrSyntax)
    | (un, _) =>
        let cutoff := 2 ^ (8 - 1) in
        if negb neg && (cutoff <=? un) then (cutoff - 1, Some ErrRange)
        else if neg && (cutoff <? un) then (- cutoff, Some ErrRange)
        else (if neg then - un else un, None)
    end
  with
  | (_, Some _) => Err "invalid priority format"
  | (p, None) => Ok (Some (int8 p))
  end =
  match (if neg then Z.opp else id) <$> decimalNatural s with
  | Some n =>
      if (-128 <=? n) && (n <=? 127) then Ok (Some n)
      else Err "invalid priority format"
  | None => Err "invalid priority format"
  end.
Proof.
  pose proof (ParseUint_8 s) as HU.
  destruct (decimalNatural s) as [v|] eqn:Hv; simpl.
  - apply decimalNatural_nonneg in Hv.
    change (2 ^ (8 - 1)) with 128.
    destruct (Z.leb_spec v 255); rewrite HU; destruct neg; simpl;
      unfold id;
      repeat match goal with
        | |- context [Z.leb ?x ?y] => destruct (Z.leb_spec x y)
        | |- context [Z.ltb ?x ?y] => destruct (Z.ltb_spec x y)
        end; simpl; try lia; try reflexivity;
      rewrite int8_small by lia; reflexivity.
  - destruct HU as [-> | ->]; destruct neg; reflexivity.
Qed.
End ParseFacts.

(** C9, as the code has it.  Empty text is no value; a decimal integer
    (an optional sign and digits) that fits [int8] is that value, with
    no check against the range 1 to 5; any other text, a decimal
    integer outside -128..127 included, is the format error. *)
Theorem stringToPriority_int8 (s : string) :
  stringToPriority s =
  if String.eqb s "" then Ok None
  else
    match decimalInteger s with
    | Some n =>
        if ((-128 <=? n) && (n <=? 127))%Z then Ok (Some n)
        else Err "invalid priority format"
    | None => Err "invalid priority format"
    end.
Proof.
  unfold stringToPriority.
  destruct s as [|c s]; [reflexivity|].
  change (String.eqb (String c s) "") with false. cbv iota.
  unfold strconv.ParseInt, decimalInteger.
  destruct (Z.eqb_spec (strconv.byte c) 43) as [Hp|Hp].
  - rewrite Hp. change (43 =? 45)%Z with false. cbn [orb].
    etrans; [exact (ParseInt_8_digits false s)|].
    by destruct (decimalNatural s).
  - destruct (Z.eqb_spec (strconv.byte c) 45) as [Hm|Hm]; cbn [orb].
    + exact (ParseInt_8_digits true s).
    + etrans; [exact (ParseInt_8_digits false (String c s))|].
      by destruct (decimalNatural (String c s)).
Qed.

(** C9 as stated fails: "128" denotes an integer and is refused. *)
Lemma stringToPriority_128 :
  decimalInteger "128" = Some 128%Z ∧
  stringToPriority "128" = Err "invalid priority format".
Proof. split; reflexivity. Qed.

(** Values outside 1..5 do parse. *)
Example stringToPriority_9 : stringToPriority "9" = Ok (Some 9%Z).
Proof. reflexivity. Qed.

Example stringToPriority_minus : stringToPriority "-128" = Ok (Some (-128)%Z).
Proof. reflexivity. Qed.

Example stringToPriority_text : stringToPriority "high" = Err "invalid priority format".
Proof. reflexivity. Qed.

(** ** Running computations *)

Lemma bind_run {A B : Type} (m : Go A) (f : A → Go B) (w w' : World) (a : A) :
  m w = Some (a, w') → (m ≫= f) w = f a w'.
Proof. intros H. unfold mbind, Go_bind. rewrite H. reflexivity. Qed.

Lemma setHeap_same (w : World) : setHeap (heap w) w = w.
Proof. destruct w; reflexivity. Qed.

Lemma arrayOf_allocated (w : World) (s : slice) (i : nat) (x : Todo) :
  arrayOf w s !! i = Some x → heap w !! s_ptr s = Some (arrayOf w s).
Proof.
  unfold arrayOf. destruct (heap w !! s_ptr s); simpl; [reflexivity|].
  rewrite lookup_nil. discriminate.
Qed.

Lemma setArray_allocated (w : World) (s : slice) (a : list Todo) :
  is_Some (heap w !! s_ptr s) →
  setArray s a w = setHeap (<[s_ptr s := a]> (heap w)) w.
Proof. intros [a0 H]. unfold setArray. rewrite H. reflexivity. Qed.

Lemma setArray_same (w : World) (s : slice) : setArray s (arrayOf w s) w = w.
Proof.
  unfold setArray, arrayOf.
  destruct (heap w !! s_ptr s) as [a|] eqn:E; [|reflexivity]. simpl.
  rewrite insert_id by done. apply setHeap_same.
Qed.

Lemma setArray_setArray (w : World) (s : slice) (a b : list Todo) :
  setArray s b (setArray s a w) = setArray s b w.
Proof.
  unfold setArray.
  destruct (heap w !! s_ptr s) as [a0|] eqn:E; simpl; [|by rewrite E].
  rewrite lookup_insert_eq. unfold setHeap; simpl.
  by rewrite insert_insert_eq.
Qed.

Lemma arrayOf_setArray (w : World) (s : slice) (a : list Todo) :
  is_Some (heap w !! s_ptr s) → arrayOf (setArray s a w) s = a.
Proof.
  intros H. rewrite setArray_allocated by done.
  unfold arrayOf; simpl. by rewrite lookup_insert_eq.
Qed.

Lemma heap_setArray_ne (w : World) (s : slice) (a : list Todo) (p : loc) :
  p ≠ s_ptr s → heap (setArray s a w) !! p = heap w !! p.
Proof.
  intros Hp. unfold setArray.
  destruct (heap w !! s_ptr s); [|done]. simpl. by rewrite lookup_insert_ne.
Qed.

Lemma todosVar_setArray (w : World) (s : slice) (a : list Todo) :
  todosVar (setArray s a w) = todosVar w.
Proof. unfold setArray. by destruct (heap w !! s_ptr s). Qed.

Lemma dataFile_setArray (w : World) (s : slice) (a : list Todo) :
  dataFile (setArray s a w) = dataFile w.
Proof. unfold setArray. by destruct (heap w !! s_ptr s). Qed.

Lemma writable_setArray (w : World) (s : slice) (a : list Todo) :
  writable (setArray s a w) = writable w.
Proof. unfold setArray. by destruct (heap w !! s_ptr s). Qed.

Lemma contents_heap_eq (w1 w2 : World) (s : slice) :
  heap w1 = heap w2 → contents w1 s = contents w2 s.
Proof. intros H. unfold contents, arrayOf. by rewrite H. Qed.

Lemma wf_heap_eq (w1 w2 : World) (s : slice) :
  heap w1 = heap w2 → wf w1 s → wf w2 s.
Proof. intros H. unfold wf, arrayOf. by rewrite H. Qed.

Lemma length_contents (w : World) (s : slice) :
  wf w s → length (contents w s) = s_len s.
Proof. intros [H1 H2]. unfold contents. rewrite length_take. lia. Qed.

Lemma wf_unallocated (w : World) (s : slice) :
  wf w s → heap w !! s_ptr s = None → s_len s = 0.
Proof.
  intros [H1 H2] Hn. unfold arrayOf in H2. rewrite Hn in H2. simpl in H2. lia.
Qed.

(** Overwriting the elements of a slice and leaving its spare capacity. *)
Lemma contents_setArray (w : World) (s : slice) (l : list Todo) :
  wf w s → length l = s_len s →
  contents (setArray s (l ++ drop (s_len s) (arrayOf w s)) w) s = l.
Proof.
  intros Hwf Hl. unfold contents.
  destruct (heap w !! s_ptr s) as [a|] eqn:Ha.
  - rewrite arrayOf_setArray by eauto.
    rewrite take_app_length' by done. done.
  - pose proof (wf_unallocated _ _ Hwf Ha) as H0.
    rewrite H0 in *. destruct l; [|discriminate]. by rewrite take_0.
Qed.

Lemma wf_setArray (w : World) (s : slice) (l : list Todo) :
  wf w s → length l = s_len s →
  wf (setArray s (l ++ drop (s_len s) (arrayOf w s)) w) s.
Proof.
  intros Hwf Hl. destruct (Hwf) as [H1 H2]. split; [done|].
  destruct (heap w !! s_ptr s) as [a|] eqn:Ha.
  - rewrite arrayOf_setArray by eauto.
    rewrite length_app, length_drop. lia.
  - unfold setArray. rewrite Ha. done.
Qed.

Lemma index_run (w : World) (s : slice) (i : nat) (x : Todo) :
  i < s_len s → arrayOf w s !! i = Some x → index s i w = Some (x, w).
Proof. intros Hi Hx. unfold index. rewrite decide_True by done. by rewrite Hx. Qed.

Lemma put_same (w : World) (s : slice) (i : nat) (x : Todo) :
  arrayOf w s !! i = Some x → put s i x w = w.
Proof.
  intros Hx. unfold put. rewrite list_insert_id by done. apply setArray_same.
Qed.

Lemma arrayOf_put (w : World) (s : slice) (i : nat) (x y : Todo) :
  arrayOf w s !! i = Some x → arrayOf (put s i y w) s = <[i := y]> (arrayOf w s).
Proof.
  intros Hx. unfold put. apply arrayOf_setArray.
  rewrite (arrayOf_allocated _ _ _ _ Hx). eauto.
Qed.

(** A field assignment to an element that has already been written in
    this iteration. *)
Lemma update_put (w : World) (s : slice) (i : nat) (f : Todo → Todo) (x y : Todo) :
  i < s_len s → arrayOf w s !! i = Some x →
  update s i f (put s i y w) = Some (tt, put s i (f y) w).
Proof.
  intros Hi Hx. unfold update. rewrite decide_True by done.
  rewrite (arrayOf_put _ _ _ x) by done.
  rewrite list_lookup_insert_eq by (by eapply lookup_lt_Some).
  f_equal. f_equal. unfold put.
  rewrite setArray_setArray. f_equal.
  rewrite !list_insert_alter, list_alter_alter_eq. done.
Qed.

Lemma update_first (w : World) (s : slice) (i : nat) (f : Todo → Todo) (x : Todo) :
  i < s_len s → arrayOf w s !! i = Some x →
  update s i f w = Some (tt, put s i (f x) w).
Proof.
  intros Hi Hx. rewrite <- (put_same w s i x Hx) at 1.
  by apply (update_put _ _ _ _ x).
Qed.

(** An assignment the patch makes only when it supplies the field. *)
Lemma update_opt_put {V : Type} (w : World) (s : slice) (i : nat)
    (f : V → Todo → Todo) (o : option V) (x y : Todo) :
  i < s_len s → arrayOf w s !! i = Some x →
  match o with
  | Some v => update s i (f v)
  | None => mret tt
  end (put s i y w) =
  Some (tt, put s i (match o with Some v => f v y | None => y end) w).
Proof.
  intros Hi Hx. destruct o; [by eapply update_put | reflexivity].
Qed.

Lemma alloc_fresh (a : list Todo) (w : World) :
  heap w !! (alloc a w).1 = None.
Proof. simpl. apply not_elem_of_dom, is_fresh. Qed.

(** Allocation leaves every well-formed slice as it is. *)
Lemma contents_alloc (a : list Todo) (w : World) (s : slice) :
  wf w s → contents (alloc a w).2 s = contents w s.
Proof.
  intros Hwf. unfold contents, arrayOf. simpl.
  destruct (decide (s_ptr s = fresh (dom (heap w)))) as [Heq|Hne].
  - pose proof (alloc_fresh a w) as Hf. simpl in Hf. rewrite <- Heq in Hf.
    rewrite (wf_unallocated _ _ Hwf Hf). by rewrite !take_0.
  - by rewrite lookup_insert_ne.
Qed.

Lemma dump_run (s : slice) (w : World) :
  ∃ w', dump s w = Some (tt, w') ∧ heap w' = heap w ∧ todosVar w' = todosVar w.
Proof. unfold dump. destruct (writable w); eexists; eauto. Qed.

(** ** [patchTodos] *)

Section Patch.
Variables (now : Time) (todos : slice) (match_ : string) (patch : TodoPatch).

(** The assignments of one iteration, from the toggle to the deadline,
    amount to one write of the patched record. *)
Lemma patchTodos_body_run (w : World) (i : nat) (x : Todo) (k : Go nat) :
  i < s_len todos → arrayOf w todos !! i = Some x →
  (match pDone patch with
   | Some true =>
       if negb (Done x) then
         update todos i (setDoneAt now);; update todos i (setDone true)
       else
         update todos i (setDone false);; update todos i (setDoneAt zero)
   | _ => mret tt
   end;;
   match pSummary patch with
   | Some v => update todos i (setSummary v)
   | None => mret tt
   end;;
   match pDetails patch with
   | Some v => update todos i (setDetails v)
   | None => mret tt
   end;;
   match pPriority patch with
   | Some v => update todos i (setPriority v)
   | None => mret tt
   end;;
   match pDeadline patch with
   | Some v => update todos i (setDeadline v)
   | None => mret tt
   end;;
   k) w = k (put todos i (patchRecord now patch x) w).
Proof.
  intros Hi Hx.
  assert (Htoggle :
    match pDone patch with
    | Some true =>
        if negb (Done x) then
          update todos i (setDoneAt now);; update todos i (setDone true)
        else
          update todos i (setDone false);; update todos i (setDoneAt zero)
    | _ => mret tt
    end w =
    Some (tt, put todos i
      (match pDone patch with Some true => toggleDone now x | _ => x end) w)).
  { destruct (pDone patch) as [[]|];
      [|rewrite (put_same _ _ _ _ Hx); reflexivity ..].
    unfold toggleDone.
    destruct (negb (Done x));
      (erewrite bind_run by (by eapply update_first));
      by eapply update_put. }
  erewrite bind_run by exact Htoggle. clear Htoggle.
  erewrite bind_run by (by eapply (update_opt_put _ _ _ setSummary)).
  erewrite bind_run by (by eapply (update_opt_put _ _ _ setDetails)).
  erewrite bind_run by (by eapply (update_opt_put _ _ _ setPriority)).
  erewrite bind_run by (by eapply (update_opt_put _ _ _ setDeadline)).
  reflexivity.
Qed.

(** The loop from index [i] on: the records before [i] stay, the [n]
    records from [i] are patched where they match, and the count grows
    by the number of matches. *)
Lemma patchTodos_loop_run (n : nat) :
  ∀ (i updated : nat) (w : World),
    i + n = s_len todos → s_len todos ≤ length (arrayOf w todos) →
    patchTodos_loop now todos match_ patch n i updated w =
    Some (updated
          + length (filter (λ x, Summary x = match_)
                      (take n (drop i (arrayOf w todos)))),
          setArray todos
            (take i (arrayOf w todos)
             ++ (patchMatching now match_ patch
                   <$> take n (drop i (arrayOf w todos)))
             ++ drop (i + n) (arrayOf w todos)) w).
Proof.
  induction n as [|n IH]; intros i updated w Hin Hlen.
  - cbn [patchTodos_loop]. rewrite take_0.
    cbn [fmap list_fmap filter list_filter length app].
    rewrite !Nat.add_0_r.
    rewrite take_drop, setArray_same. reflexivity.
  - destruct (lookup_lt_is_Some_2 (arrayOf w todos) i ltac:(lia)) as [x Hx].
    cbn [patchTodos_loop].
    erewrite bind_run by (apply index_run; [lia | exact Hx]).
    rewrite (drop_S _ _ _ Hx). cbn [take fmap list_fmap].
    rewrite <- Nat.add_succ_comm.
    unfold patchMatching at 1.
    destruct (String.eqb_spec (Summary x) match_) as [Heq|Hne]; cbn [negb].
    + rewrite patchTodos_body_run by (lia || done).
      rewrite IH; [|lia|by rewrite (arrayOf_put _ _ _ x), length_insert].
      rewrite (arrayOf_put _ _ _ x) by done.
      rewrite filter_cons_True by done. cbn [length].
      rewrite (take_S_r _ _ (patchRecord now patch x))
        by (apply list_lookup_insert_eq; by eapply lookup_lt_Some).
      rewrite take_insert_ge by lia.
      rewrite !drop_insert_lt by lia.
      unfold put. rewrite setArray_setArray.
      f_equal. f_equal; [lia|]. f_equal.
      rewrite <- app_assoc. reflexivity.
    + rewrite IH by (lia || done).
      rewrite filter_cons_False by done.
      rewrite (take_S_r _ _ x) by done.
      f_equal. f_equal. f_equal. rewrite <- app_assoc. reflexivity.
Qed.

(** [patchTodos] returns, with the number of matching records, in the
    state where each of them is patched. *)
Lemma patchTodos_run (w : World) :
  wf w todos →
  patchTodos now todos match_ patch w =
  Some (length (filter (λ x, Summary x = match_) (contents w todos)),
        patched now todos match_ patch w).
Proof.
  intros [H1 H2]. unfold patchTodos.
  rewrite patchTodos_loop_run by lia.
  rewrite take_0, drop_0. reflexivity.
Qed.

Lemma contents_patched (w : World) :
  wf w todos →
  contents (patched now todos match_ patch w) todos
  = patchMatching now match_ patch <$> contents w todos.
Proof.
  intros Hwf. apply contents_setArray; [done|].
  rewrite length_fmap. by apply length_contents.
Qed.

Lemma wf_patched (w : World) :
  wf w todos → wf (patched now todos match_ patch w) todos.
Proof.
  intros Hwf. apply wf_setArray; [done|].
  rewrite length_fmap. by apply length_contents.
Qed.

Lemma lookup_patched (w : World) (i : nat) :
  wf w todos →
  contents (patched now todos match_ patch w) todos !! i =
  patchMatching now match_ patch <$> contents w todos !! i.
Proof. intros Hwf. rewrite contents_patched by done. apply list_lookup_fmap. Qed.

Lemma patchMatching_other (x : Todo) :
  Summary x ≠ match_ → patchMatching now match_ patch x = x.
Proof.
  intros Hne. unfold patchMatching.
  by destruct (String.eqb_spec (Summary x) match_).
Qed.

Lemma patchMatching_match (x : Todo) :
  Summary x = match_ →
  patchMatching now match_ patch x = patchRecord now patch x.
Proof.
  intros Heq. unfold patchMatching.
  by destruct (String.eqb_spec (Summary x) match_).
Qed.

(** Field by field, what a patch makes of a record. *)
Lemma patchRecord_fields (x : Todo) :
  let y := patchRecord now patch x in
  Summary y = default (Summary x) (pSummary patch) ∧
  Details y = default (Details x) (pDetails patch) ∧
  Priority y = default (Priority x) (pPriority patch) ∧
  Deadline y = default (Deadline x) (pDeadline patch) ∧
  AddedAt y = AddedAt x ∧
  Done y = (if pDone patch is Some true then negb (Done x) else Done x) ∧
  DoneAt y = (if pDone patch is Some true
              then if Done x then zero else now
              else DoneAt x).
Proof.
  destruct patch as [[[]|] [?|] [?|] [?|] [?|]]; destruct x as [? ? ? ? [] ? ?];
    cbn; repeat split; reflexivity.
Qed.

Lemma completionInvariant_patchRecord (x : Todo) :
  now ≠ zero → completionInvariant x →
  completionInvariant (patchRecord now patch x).
Proof.
  intros Hnow Hx. unfold completionInvariant in *.
  destruct (patchRecord_fields x) as (_ & _ & _ & _ & _ & -> & ->).
  destruct (pDone patch) as [[]|]; try done.
  destruct (Done x); [reflexivity|].
  unfold IsZero. by destruct (Z.eqb_spec now zero).
Qed.
End Patch.

(** C10. [patchTodos] returns and keeps the collection in place: the
    same number of records, a record that does not match is at its
    index as it was, a record that matches is replaced at its index by
    its patched version, and the rest of the state (other arrays, the
    variable [todos], the data file) is not written. *)
Theorem patchTodos_frame (now : Time) (todos : slice) (match_ : string)
    (patch : TodoPatch) (w : World) :
  wf w todos →
  ∃ (updated : nat) (w' : World),
    patchTodos now todos match_ patch w = Some (updated, w') ∧
    length (contents w' todos) = length (contents w todos) ∧
    (∀ i x, contents w todos !! i = Some x → Summary x ≠ match_ →
            contents w' todos !! i = Some x) ∧
    (∀ i x, contents w todos !! i = Some x → Summary x = match_ →
            contents w' todos !! i = Some (patchRecord now patch x)) ∧
    (∀ p, p ≠ s_ptr todos → heap w' !! p = heap w !! p) ∧
    todosVar w' = todosVar w ∧ dataFile w' = dataFile w.
Proof.
  intros Hwf. eexists _, _. split; [by apply patchTodos_run|].
  split; [by rewrite contents_patched, length_fmap|].
  split; [|split; [|split; [|split]]].
  - intros i x Hx Hne. rewrite lookup_patched, Hx by done. simpl.
    by rewrite patchMatching_other.
  - intros i x Hx Heq. rewrite lookup_patched, Hx by done. simpl.
    by rewrite patchMatching_match.
  - intros p Hp. by apply heap_setArray_ne.
  - apply todosVar_setArray.
  - apply dataFile_setArray.
Qed.

(** C7. [patchTodos] returns the number of records whose summary is
    [match_] (compared byte for byte) and every one of them, wherever it
    stands, carries the fields the patch supplies; with no field
    supplied the state is the one before the call. *)
Theorem patchTodos_every_match (now : Time) (todos : slice) (match_ : string)
    (patch : TodoPatch) (w : World) :
  wf w todos →
  ∃ w' : World,
    patchTodos now todos match_ patch w =
      Some (length (filter (λ x, Summary x = match_) (contents w todos)), w') ∧
    (∀ i x, contents w todos !! i = Some x → Summary x = match_ →
       ∃ y, contents w' todos !! i = Some y ∧
         Summary y = default (Summary x) (pSummary patch) ∧
         Details y = default (Details x) (pDetails patch) ∧
         Priority y = default (Priority x) (pPriority patch) ∧
         Deadline y = default (Deadline x) (pDeadline patch) ∧
         AddedAt y = AddedAt x ∧
         Done y = (if pDone patch is Some true then negb (Done x) else Done x) ∧
         DoneAt y = (if pDone patch is Some true
                     then if Done x then zero else now
                     else DoneAt x)) ∧
    (patch = emptyPatch → w' = w).
Proof.
  intros Hwf. eexists. split; [by apply patchTodos_run|]. split.
  - intros i x Hx Heq. eexists. split.
    + rewrite lookup_patched, Hx by done. simpl.
      by rewrite patchMatching_match.
    + apply patchRecord_fields.
  - intros ->. unfold patched.
    assert (patchMatching now match_ emptyPatch <$> contents w todos
            = contents w todos) as ->.
    { rewrite <- (list_fmap_id (contents w todos)) at 2.
      apply list_fmap_ext. intros i x _.
      unfold patchMatching. by destruct (String.eqb _ _). }
    unfold contents. rewrite take_drop. apply setArray_same.
Qed.

(** C4. On a matching record a patch with [done = true] toggles: a
    record that is not done becomes done with [doneAt] the time of the
    call (not empty, the clock not reading the zero time); the same
    patch applied again makes it not done with an empty [doneAt], which
    is the state it started from when that state met the completion
    invariant.  A patch without [done], or with [done = false], leaves
    both fields. *)
Theorem patchTodos_toggle (now now' : Time) (todos : slice) (match_ : string)
    (patch : TodoPatch) (w : World) (i : nat) (x : Todo) :
  wf w todos →
  contents w todos !! i = Some x →
  Summary x = match_ →
  ∃ (n : nat) (w1 : World) (y : Todo),
    patchTodos now todos match_ patch w = Some (n, w1) ∧
    contents w1 todos !! i = Some y ∧
    (pDone patch = Some true → Done x = false →
       Done y = true ∧ DoneAt y = now ∧
       (now ≠ zero → IsZero (DoneAt y) = false) ∧
       ∃ (n' : nat) (w2 : World) (z : Todo),
         patchTodos now' todos (Summary y) patch w1 = Some (n', w2) ∧
         contents w2 todos !! i = Some z ∧
         Done z = false ∧ DoneAt z = zero ∧ IsZero (DoneAt z) = true ∧
         (completionInvariant x → Done z = Done x ∧ DoneAt z = DoneAt x)) ∧
    (pDone patch = None ∨ pDone patch = Some false →
       Done y = Done x ∧ DoneAt y = DoneAt x).
Proof.
  intros Hwf Hx Hm.
  eexists _, _, _. split; [by apply patchTodos_run|]. split.
  { rewrite lookup_patched, Hx by done. simpl. by rewrite patchMatching_match. }
  destruct (patchRecord_fields now patch x) as (_ & _ & _ & _ & _ & HD & HA).
  split.
  - intros Hp Hnd. rewrite Hp in HD, HA. rewrite Hnd in HD, HA. simpl in HD, HA.
    split; [exact HD|]. split; [exact HA|]. split.
    { intros Hnow. rewrite HA. unfold IsZero. by destruct (Z.eqb_spec now zero). }
    eexists _, _, _. split; [apply patchTodos_run; by apply wf_patched|]. split.
    { rewrite lookup_patched by (by apply wf_patched).
      rewrite lookup_patched, Hx by done. simpl.
      rewrite (patchMatching_match now match_ patch x) by done.
      by rewrite patchMatching_match. }
    destruct (patchRecord_fields now' patch (patchRecord now patch x))
      as (_ & _ & _ & _ & _ & HD' & HA').
    rewrite Hp, HD in HD', HA'. simpl in HD', HA'.
    split; [done|]. split; [done|]. split; [by rewrite HA'|].
    intros Hinv. unfold completionInvariant in Hinv.
    rewrite HD', HA', Hnd. split; [done|].
    rewrite Hnd in Hinv. unfold IsZero in Hinv.
    destruct (Z.eqb_spec (DoneAt x) zero); [done | discriminate].
  - intros Hp. rewrite HD, HA. by destruct Hp as [-> | ->].
Qed.

(** ** The operations *)

Section Operations.
Variable TrimSpace : string → string.
Variable Parse : string → option Time.
Variable spare : nat → nat.

(** [append] returns a slice with the element added at the end, in
    place when there is room and in a new array otherwise. *)
Lemma append_run (s : slice) (x : Todo) (w : World) :
  wf w s →
  ∃ (s' : slice) (w' : World),
    append spare s x w = Some (s', w') ∧
    contents w' s' = contents w s ++ [x] ∧
    wf w' s' ∧
    todosVar w' = todosVar w ∧ dataFile w' = dataFile w ∧
    writable w' = writable w.
Proof.
  intros Hwf. pose proof Hwf as [H1 H2]. unfold append.
  destruct (decide (s_len s < s_cap s)) as [Hlt|Hge].
  - destruct (lookup_lt_is_Some_2 (arrayOf w s) (s_len s) ltac:(lia)) as [y Hy].
    pose proof (arrayOf_allocated _ _ _ _ Hy) as Ha.
    eexists _, _. split; [reflexivity|].
    split; [|split; [|split; [|split]]].
    + unfold contents; simpl.
      change (arrayOf ?w {| s_ptr := s_ptr s; s_len := ?l; s_cap := ?c |})
        with (arrayOf w s).
      rewrite arrayOf_setArray by eauto.
      rewrite (take_S_r _ _ x)
        by (apply list_lookup_insert_eq; by eapply lookup_lt_Some).
      by rewrite take_insert_ge by lia.
    + split; simpl; [lia|].
      change (arrayOf ?w {| s_ptr := s_ptr s; s_len := ?l; s_cap := ?c |})
        with (arrayOf w s).
      rewrite arrayOf_setArray by eauto. by rewrite length_insert.
    + apply todosVar_setArray.
    + apply dataFile_setArray.
    + apply writable_setArray.
  - assert (length (contents w s) = s_len s) as Hlen by by apply length_contents.
    destruct (alloc _ w) as [p w'] eqn:Hal.
    eexists _, _. split; [reflexivity|].
    assert (arrayOf w' (Slice p (S (s_len s)) (S (s_len s) + spare (s_cap s)))
            = contents w s ++ x :: replicate (spare (s_cap s)) zeroTodo) as Harr.
    { unfold arrayOf. simpl. injection Hal as <- <-. simpl.
      by rewrite lookup_insert_eq. }
    split; [|split; [|split; [|split]]].
    + unfold contents at 1. rewrite Harr.
      simpl. rewrite cons_middle, app_assoc.
      apply take_app_length'. rewrite length_app; simpl. lia.
    + split; [simpl; lia|]. rewrite Harr.
      rewrite length_app; simpl. rewrite length_replicate. lia.
    + by injection Hal as <- <-.
    + by injection Hal as <- <-.
    + by injection Hal as <- <-.
Qed.

(** The end of [addTodoOperation]: append, store and dump. *)
Lemma addTodo_commit (newTodo : Todo) (w : World) :
  wf w (todosVar w) →
  ∃ w',
    (old ← readTodos;
     new ← append spare old newTodo;
     writeTodos new;;
     cur ← readTodos;
     dump cur;;
     mret (Ok TodoAdded)) w = Some (Ok TodoAdded, w') ∧
    contents w' (todosVar w') = contents w (todosVar w) ++ [newTodo] ∧
    wf w' (todosVar w').
Proof.
  intros Hwf.
  destruct (append_run _ newTodo _ Hwf) as (s' & w1 & Hrun & Hc & Hwf1 & _).
  destruct (dump_run s' (mkWorld (heap w1) s' (dataFile w1) (writable w1)))
    as (w2 & Hd & Hh & Hv).
  exists w2. split; [|split].
  - erewrite bind_run by reflexivity.
    erewrite bind_run by exact Hrun.
    erewrite bind_run by reflexivity.
    erewrite bind_run by reflexivity.
    erewrite bind_run by exact Hd.
    reflexivity.
  - rewrite Hv. simpl. rewrite (contents_heap_eq w2 w1) by done. done.
  - rewrite Hv. simpl. by apply (wf_heap_eq w1).
Qed.

(** [addTodoOperation] returns: with an error and the state as it
    was, or with the new record at the end of the collection. *)
Lemma addTodoOperation_run (now0 now1 now2 : Time)
    (summary details deadlineStr priorityStr : string) (w : World) :
  wf w (todosVar w) →
  ∃ (r : result Message) (w' : World),
    addTodoOperation TrimSpace Parse spare now0 now1 now2
      summary details deadlineStr priorityStr w = Some (r, w') ∧
    ((∃ e, r = Err e ∧ w' = w) ∨
     (r = Ok TodoAdded ∧ wf w' (todosVar w') ∧
      ∃ x, contents w' (todosVar w') = contents w (todosVar w) ++ [x] ∧
           Done x = false ∧ DoneAt x = zero ∧ AddedAt x = now2 ∧
           Summary x = TrimSpace summary ∧ Details x = details)).
Proof.
  intros Hwf. unfold addTodoOperation.
  set (goal := λ (m : Go (result Message)),
    ∃ (r : result Message) (w' : World),
      m w = Some (r, w') ∧
      ((∃ e, r = Err e ∧ w' = w) ∨
       (r = Ok TodoAdded ∧ wf w' (todosVar w') ∧
        ∃ x, contents w' (todosVar w') = contents w (todosVar w) ++ [x] ∧
             Done x = false ∧ DoneAt x = zero ∧ AddedAt x = now2 ∧
             Summary x = TrimSpace summary ∧ Details x = details))).
  assert (Hcommit : ∀ p dl,
    goal (old ← readTodos;
          new ← append spare old
                  {| Priority := p; Deadline := dl; AddedAt := now2;
                     DoneAt := zero; Done := false;
                     Summary := TrimSpace summary; Details := details |};
          writeTodos new;;
          cur ← readTodos;
          dump cur;;
          mret (Ok TodoAdded))).
  { intros p dl.
    destruct (addTodo_commit
      {| Priority := p; Deadline := dl; AddedAt := now2;
         DoneAt := zero; Done := false;
         Summary := TrimSpace summary; Details := details |} w Hwf)
      as (w' & Hrun & Hc & Hwf').
    exists (Ok TodoAdded), w'. split; [exact Hrun|]. right.
    split; [done|]. split; [done|]. eexists. split; [exact Hc|]. done. }
  assert (Hfail : ∀ e, goal (mret (Err e))).
  { intros e. eexists _, _. split; [reflexivity|]. left. eauto. }
  match goal with |- ∃ r w', ?m w = _ ∧ _ => change (goal m) end.
  destruct (String.eqb (TrimSpace summary) ""); [apply Hfail|].
  destruct (stringToDeadline Parse deadlineStr) as [[d|]|e]; [| |apply Hfail].
  - destruct (negb (isValidDeadline now1 d)); [apply Hfail|].
    destruct (stringToPriority priorityStr) as [[v|]|e]; [| |apply Hfail].
    + destruct (negb (isValidPriority v)); [apply Hfail | apply Hcommit].
    + apply Hcommit.
  - destruct (stringToPriority priorityStr) as [[v|]|e]; [| |apply Hfail].
    + destruct (negb (isValidPriority v)); [apply Hfail | apply Hcommit].
    + apply Hcommit.
Qed.

(** [setTodoOperation] returns: with an error and the state as it
    was, or with the matching records patched. *)
Lemma setTodoOperation_run (now1 now2 : Time) (match_ : string)
    (patch : TodoPatch) (w : World) :
  wf w (todosVar w) →
  ∃ (r : result Message) (w' : World),
    setTodoOperation TrimSpace now1 now2 match_ patch w = Some (r, w') ∧
    ((∃ e, r = Err e ∧ w' = w) ∨
     (∃ msg, r = Ok msg ∧ todosVar w' = todosVar w ∧
        heap w' = heap (patched now2 (todosVar w) match_ patch w))).
Proof.
  intros Hwf. unfold setTodoOperation.
  destruct (match pPriority patch with Some v => _ | None => _ end);
    [eexists _, _; split; [reflexivity | left; eauto]|].
  destruct (match pDeadline patch with Some v => _ | None => _ end);
    [eexists _, _; split; [reflexivity | left; eauto]|].
  destruct (match pSummary patch with Some v => _ | None => _ end);
    [eexists _, _; split; [reflexivity | left; eauto]|].
  erewrite bind_run by reflexivity.
  erewrite bind_run by (by apply patchTodos_run).
  set (n := length _). set (w1 := patched _ _ _ _ _).
  assert (todosVar w1 = todosVar w) as Hv by apply todosVar_setArray.
  destruct (decide (0 < n)) as [Hn|Hn].
  - destruct (dump_run (todosVar w1) w1) as (w2 & Hd & Hh & Hv2).
    erewrite bind_run; last first.
    { erewrite bind_run by reflexivity. exact Hd. }
    rewrite decide_False by lia.
    eexists _, _. split; [reflexivity|]. right.
    eexists. split; [reflexivity|]. split; congruence.
  - erewrite bind_run by reflexivity.
    rewrite decide_True by lia.
    eexists _, _. split; [reflexivity|]. right.
    eexists. split; [reflexivity|]. split; congruence.
Qed.

(** C3. A patch that supplies a priority outside 1..5, a deadline of a
    day before today or a summary that is blank once trimmed is
    refused: [setTodoOperation] returns an error and the state, every
    record of the collection included, is the one before the call. *)
Theorem setTodoOperation_rejects (now1 now2 : Time) (match_ : string)
    (patch : TodoPatch) (w : World) :
  (∃ p, pPriority patch = Some p ∧ ¬ (1 ≤ p ≤ 5)%Z) ∨
  (∃ d, pDeadline patch = Some d ∧ (calendarDay d < calendarDay now1)%Z) ∨
  (∃ s, pSummary patch = Some s ∧ TrimSpace s = "") →
  ∃ e,
    setTodoOperation TrimSpace now1 now2 match_ patch w = Some (Err e, w) ∧
    (e = "priority out of range (1-5)" ∨ e = "deadline is before today" ∨
     e = "summary cannot be empty").
Proof.
  intros Hbad. unfold setTodoOperation.
  destruct (match pPriority patch with Some v => _ | None => _ end) eqn:HP;
    [eexists; split; [reflexivity | auto]|].
  destruct (match pDeadline patch with Some v => _ | None => _ end) eqn:HD;
    [eexists; split; [reflexivity | auto]|].
  destruct (match pSummary patch with Some v => _ | None => _ end) eqn:HS;
    [eexists; split; [reflexivity | auto]|].
  exfalso. destruct Hbad as [(p & Hp & Hr) | [(d & Hd & Hr) | (s & Hs & Hr)]].
  - rewrite Hp in HP. apply negb_false_iff in HP. unfold isValidPriority in HP.
    apply andb_prop in HP as [?%Z.leb_le ?%Z.leb_le]. lia.
  - rewrite Hd in HD. apply negb_false_iff in HD.
    by rewrite isValidDeadline_earlier_day in HD.
  - rewrite Hs, Hr in HS. discriminate.
Qed.

(** C8. From a collection in which every record meets the completion
    invariant, [addTodoOperation] and [setTodoOperation] (the clock
    not reading the zero time) return and leave a collection in which
    every record meets it, whether they succeed or refuse. *)
Theorem completionInvariant_preserved (w : World) :
  wf w (todosVar w) →
  Forall completionInvariant (contents w (todosVar w)) →
  (∀ now0 now1 now2 summary details deadlineStr priorityStr,
     ∃ r w',
       addTodoOperation TrimSpace Parse spare now0 now1 now2
         summary details deadlineStr priorityStr w = Some (r, w') ∧
       wf w' (todosVar w') ∧
       Forall completionInvariant (contents w' (todosVar w'))) ∧
  (∀ now1 now2 match_ patch,
     now2 ≠ zero →
     ∃ r w',
       setTodoOperation TrimSpace now1 now2 match_ patch w = Some (r, w') ∧
       wf w' (todosVar w') ∧
       Forall completionInvariant (contents w' (todosVar w'))).
Proof.
  intros Hwf Hinv. split.
  - intros now0 now1 now2 summary details deadlineStr priorityStr.
    destruct (addTodoOperation_run now0 now1 now2 summary details
                deadlineStr priorityStr w Hwf)
      as (r & w' & Hrun & [(e & -> & ->) | (-> & Hwf' & x & Hc & Hd & Hz & _)]);
      eexists _, _; (split; [exact Hrun|]); (split; [done|]); [done|].
    rewrite Hc. apply Forall_app. split; [done|].
    apply Forall_singleton. unfold completionInvariant. by rewrite Hd, Hz.
  - intros now1 now2 match_ patch Hnow.
    destruct (setTodoOperation_run now1 now2 match_ patch w Hwf)
      as (r & w' & Hrun & [(e & -> & ->) | (msg & -> & Hv & Hh)]);
      eexists _, _; (split; [exact Hrun|]); [done|].
    rewrite Hv. split.
    + apply (wf_heap_eq (patched now2 (todosVar w) match_ patch w)); [done|].
      by apply wf_patched.
    + rewrite (contents_heap_eq _ _ _ Hh), contents_patched by done.
      apply Forall_fmap. eapply Forall_impl; [exact Hinv|].
      intros x Hx. simpl. unfold patchMatching.
      destruct (String.eqb _ _); [|done].
      by apply completionInvariant_patchRecord.
Qed.

(** C2, as the code has it.  With no deadline text and a summary that
    is not blank, [createTodo] fails with "deadline is required" and
    gives no task, while [addTodoOperation], the priority text being
    empty or a priority in 1..5, succeeds: it appends a task whose
    deadline is the clock reading rounded to 24 hours. *)
Theorem create_without_deadline (summary details priorityStr : string) :
  TrimSpace summary ≠ "" →
  (∀ now1 now2,
     createTodo TrimSpace Parse now1 now2 summary details "" priorityStr
     = Err "deadline is required") ∧
  (∀ now0 now1 now2 w p,
     wf w (todosVar w) →
     stringToPriority priorityStr = Ok p →
     (∀ v, p = Some v → isValidPriority v = true) →
     ∃ w',
       addTodoOperation TrimSpace Parse spare now0 now1 now2
         summary details "" priorityStr w = Some (Ok TodoAdded, w') ∧
       contents w' (todosVar w') =
         contents w (todosVar w) ++
         [{| Priority := default 1%Z p;
             Deadline := Round now0 (Hour * 24)%Z;
             AddedAt := now2;
             DoneAt := zero;
             Done := false;
             Summary := TrimSpace summary;
             Details := details |}]).
Proof.
  intros Hs. apply String.eqb_neq in Hs. split.
  - intros now1 now2. unfold createTodo. rewrite Hs. reflexivity.
  - intros now0 now1 now2 w p Hwf Hp Hv.
    unfold addTodoOperation. rewrite Hs.
    change (stringToDeadline Parse "") with (Ok (@None Time)).
    cbv beta iota zeta. rewrite Hp.
    destruct p as [v|].
    + rewrite (Hv v eq_refl). cbn [negb].
      destruct (addTodo_commit
        {| Priority := v; Deadline := Round now0 (Hour * 24)%Z;
           AddedAt := now2; DoneAt := zero; Done := false;
           Summary := TrimSpace summary; Details := details |} w Hwf)
        as (w' & Hrun & Hc & _).
      exists w'. split; [exact Hrun | exact Hc].
    + destruct (addTodo_commit
        {| Priority := int8 1; Deadline := Round now0 (Hour * 24)%Z;
           AddedAt := now2; DoneAt := zero; Done := false;
           Summary := TrimSpace summary; Details := details |} w Hwf)
        as (w' & Hrun & Hc & _).
      exists w'. split; [exact Hrun | exact Hc].
Qed.
End Operations.

(** C2 as stated fails on [addTodoOperation]: with no deadline text the
    task is added, its deadline the day of the call. *)
Lemma addTodoOperation_defaults_deadline :
  ∃ w',
    addTodoOperation asciiTrimSpace parseYMD exactFit
      (At 2024 3 15 9 0) (At 2024 3 15 9 0) (At 2024 3 15 9 0)
      "buy milk" "" "" "3" emptyWorld = Some (Ok TodoAdded, w') ∧
    contents w' (todosVar w') =
      [{| Priority := 3; Deadline := Date 2024 3 15; AddedAt := At 2024 3 15 9 0;
          DoneAt := zero; Done := false; Summary := "buy milk"; Details := "" |}].
Proof. eexists. split; vm_compute; reflexivity. Qed.

(** ** [deleteTodos] *)

Section Delete.
Variable spare : nat → nat.
Variables (todos : slice) (summary : string).

(** With room left in [out], the loop fills it in place with the
    records it keeps. *)
Lemma deleteTodos_loop_run (n : nat) :
  ∀ (i : nat) (out : slice) (deleted : nat) (w : World),
    i + n = s_len todos →
    s_len todos ≤ length (arrayOf w todos) →
    s_ptr out ≠ s_ptr todos →
    s_len out + n ≤ s_cap out →
    s_cap out ≤ length (arrayOf w out) →
    let seen := take n (drop i (arrayOf w todos)) in
    let kept := filter (λ x, Summary x ≠ summary) seen in
    deleteTodos_loop spare todos summary n i out deleted w =
    Some ((Slice (s_ptr out) (s_len out + length kept) (s_cap out),
           deleted + length (filter (λ x, Summary x = summary) seen)),
          setArray out
            (contents w out ++ kept
             ++ drop (s_len out + length kept) (arrayOf w out)) w).
Proof.
  induction n as [|n IH]; intros i out deleted w Hin Hlen Hne Hroom Hcap.
  - cbn zeta. rewrite take_0. cbn [filter list_filter length app].
    rewrite !Nat.add_0_r. unfold contents. rewrite take_drop, setArray_same.
    destruct out; reflexivity.
  - destruct (lookup_lt_is_Some_2 (arrayOf w todos) i ltac:(lia)) as [x Hx].
    cbn zeta. cbn [deleteTodos_loop].
    erewrite bind_run by (apply index_run; [lia | exact Hx]).
    rewrite (drop_S _ _ _ Hx). cbn [take].
    destruct (String.eqb_spec (Summary x) summary) as [Heq|Hneq].
    + rewrite IH by (lia || done). cbn zeta.
      rewrite (filter_cons_True (λ x, Summary x = summary)) by done.
      rewrite (filter_cons_False (λ x, Summary x ≠ summary))
        by (intros H; by apply H).
      cbn [length]. do 2 f_equal. f_equal. lia.
    + destruct (lookup_lt_is_Some_2 (arrayOf w out) (s_len out) ltac:(lia))
        as [y Hy].
      pose proof (arrayOf_allocated _ _ _ _ Hy) as Ha.
      unfold append at 1. 
      unfold mbind at 1, Go_bind at 1.
      rewrite decide_True by lia.
      set (out' := Slice (s_ptr out) (S (s_len out)) (s_cap out)).
      set (w1 := setArray out (<[s_len out:=x]> (arrayOf w out)) w).
      assert (arrayOf w1 todos = arrayOf w todos) as Ht.
      { unfold arrayOf. unfold w1. by rewrite heap_setArray_ne. }
      assert (arrayOf w1 out' = <[s_len out:=x]> (arrayOf w out)) as Ho.
      { change (arrayOf w1 out') with (arrayOf w1 out).
        unfold w1. apply arrayOf_setArray. eauto. }
      rewrite IH; [|lia|by rewrite Ht|done|simpl; lia|by rewrite Ho, length_insert].
      cbn zeta. unfold contents at 1. rewrite Ht, Ho.
      rewrite (filter_cons_False (λ x, Summary x = summary)) by done.
      rewrite (filter_cons_True (λ x, Summary x ≠ summary)) by done.
      cbn [length s_ptr s_len s_cap out'].
      change (setArray out' ?a ?w) with (setArray out a w).
      unfold w1. rewrite setArray_setArray.
      rewrite (take_S_r _ _ x)
        by (apply list_lookup_insert_eq; by eapply lookup_lt_Some).
      rewrite take_insert_ge by lia.
      rewrite drop_insert_lt by lia.
      rewrite <- Nat.add_succ_comm.
      f_equal. f_equal. f_equal. unfold contents.
      rewrite <- app_assoc. reflexivity.
Qed.

Lemma deleteTodos_run (w : World) :
  wf w todos →
  ∃ (out : slice) (w' : World),
    deleteTodos spare todos summary w =
      Some ((out, length (filter (λ x, Summary x = summary) (contents w todos))),
            w') ∧
    contents w' out = filter (λ x, Summary x ≠ summary) (contents w todos) ∧
    contents w' todos = contents w todos ∧
    wf w' out ∧
    heap w !! s_ptr out = None ∧
    (∀ p, p ≠ s_ptr out → heap w' !! p = heap w !! p) ∧
    todosVar w' = todosVar w ∧ dataFile w' = dataFile w ∧
    writable w' = writable w.
Proof.
  intros Hwf. pose proof Hwf as [H1 H2].
  unfold deleteTodos, make.
  unfold mbind, Go_bind. rewrite decide_True by lia.
  destruct (alloc (replicate (s_len todos) zeroTodo) w) as [p w0] eqn:Hal.
  assert (heap w !! p = None) as Hfresh.
  { pose proof (alloc_fresh (replicate (s_len todos) zeroTodo) w) as Hf.
    by rewrite Hal in Hf. }
  assert (heap w0 = <[p := replicate (s_len todos) zeroTodo]> (heap w)) as Hh0.
  { by injection Hal as <- <-. }
  assert (todosVar w0 = todosVar w ∧ dataFile w0 = dataFile w
          ∧ writable w0 = writable w) as (Hv0 & Hd0 & Hw0).
  { by injection Hal as <- <-. }
  set (out := Slice p 0 (s_len todos)).
  assert (arrayOf w0 out = replicate (s_len todos) zeroTodo) as Ho.
  { unfold arrayOf. rewrite Hh0. simpl. by rewrite lookup_insert_eq. }
  destruct (decide (s_len todos = 0)) as [Hz|Hnz].
  - (* nothing to look at *)
    rewrite Hz. cbn [deleteTodos_loop]. 
    assert (contents w todos = []) as ->.
    { unfold contents. rewrite Hz. apply take_0. }
    eexists _, _. split; [reflexivity|].
    split; [unfold contents; simpl; by rewrite take_0|].
    split; [unfold contents; by rewrite Hz, !take_0|].
    split; [split; simpl; lia|].
    split; [done|].
    split; [intros q Hq; rewrite Hh0; by rewrite lookup_insert_ne|].
    done.
  - assert (s_ptr todos ≠ p) as Hne.
    { intros <-. pose proof (wf_unallocated _ _ Hwf Hfresh). lia. }
    assert (arrayOf w0 todos = arrayOf w todos) as Ht.
    { unfold arrayOf. rewrite Hh0. by rewrite lookup_insert_ne. }
    rewrite deleteTodos_loop_run;
      [|lia|rewrite Ht; lia|simpl; congruence|simpl; lia
       |rewrite Ho, length_replicate; simpl; lia].
    cbn zeta. rewrite Ht, drop_0. fold (contents w todos).
    cbn [s_len s_ptr s_cap out]. rewrite !Nat.add_0_l.
    set (kept := filter (λ x, Summary x ≠ summary) (contents w todos)).
    assert (contents w0 out = []) as -> by (unfold contents; by rewrite take_0).
    cbn [app].
    set (out' := Slice p (length kept) (s_len todos)).
    set (w' := setArray out _ w0).
    assert (arrayOf w' out' = kept ++ drop (length kept) (arrayOf w0 out)) as Ho'.
    { change (arrayOf w' out') with (arrayOf w' out). unfold w'.
      apply arrayOf_setArray. rewrite Hh0. simpl. rewrite lookup_insert_eq. eauto. }
    assert (length kept ≤ s_len todos) as Hk.
    { unfold kept. etrans; [apply length_filter|]. by rewrite length_contents. }
    eexists _, _. split; [reflexivity|].
    split; [|split; [|split; [|split; [|split]]]].
    + unfold contents. rewrite Ho'. cbn [s_len out'].
      by rewrite take_app_length.
    + unfold contents, arrayOf. unfold w'.
      rewrite heap_setArray_ne by done. rewrite Hh0.
      by rewrite lookup_insert_ne.
    + split; [done|]. rewrite Ho'. cbn [s_cap out'].
      rewrite length_app, length_drop, Ho, length_replicate. lia.
    + done.
    + intros q Hq. unfold w'. rewrite heap_setArray_ne by done.
      rewrite Hh0. by rewrite lookup_insert_ne.
    + unfold w'. rewrite todosVar_setArray, dataFile_setArray, writable_setArray.
      done.
Qed.
End Delete.

Lemma filter_split_length (summary : string) (l : list Todo) :
  length (filter (λ x, Summary x ≠ summary) l)
  + length (filter (λ x, Summary x = summary) l) = length l.
Proof.
  induction l as [|x l IH]; [done|].
  destruct (decide (Summary x = summary)) as [Heq|Hne].
  - rewrite (filter_cons_False (λ x, Summary x ≠ summary)) by (intros H; by apply H).
    rewrite (filter_cons_True (λ x, Summary x = summary)) by done.
    simpl. lia.
  - rewrite (filter_cons_True (λ x, Summary x ≠ summary)) by done.
    rewrite (filter_cons_False (λ x, Summary x = summary)) by done.
    simpl. lia.
Qed.

Lemma filter_none_match (summary : string) (l : list Todo) :
  Forall (λ x, Summary x ≠ summary) l →
  filter (λ x, Summary x ≠ summary) l = l ∧
  filter (λ x, Summary x = summary) l = [].
Proof.
  induction 1 as [|x l Hx Hl [IH1 IH2]]; [done|].
  rewrite (filter_cons_True (λ x, Summary x ≠ summary)) by done.
  rewrite (filter_cons_False (λ x, Summary x = summary)) by done.
  by rewrite IH1, IH2.
Qed.

(** C6. [deleteTodos] returns a slice that holds, in their order, exactly
    the records whose summary differs (byte for byte) from [summary],
    and the number of records it left out; the input is not written.
    When no record matches, the slice holds the whole collection, the
    count is 0, and [deleteTodoOperation] answers with a message, not an
    error, and keeps the collection and the data file. *)
Theorem deleteTodos_exact (spare : nat → nat) (todos : slice)
    (summary : string) (w : World) :
  wf w todos →
  ∃ (out : slice) (deleted : nat) (w' : World),
    deleteTodos spare todos summary w = Some ((out, deleted), w') ∧
    contents w' out = filter (λ x, Summary x ≠ summary) (contents w todos) ∧
    contents w' out `sublist_of` contents w todos ∧
    deleted = length (filter (λ x, Summary x = summary) (contents w todos)) ∧
    length (contents w' out) + deleted = length (contents w todos) ∧
    contents w' todos = contents w todos ∧
    (Forall (λ x, Summary x ≠ summary) (contents w todos) →
       contents w' out = contents w todos ∧ deleted = 0 ∧
       (todos = todosVar w →
          ∃ w'',
            deleteTodoOperation spare summary w = Some (NoTodoFound summary, w'') ∧
            todosVar w'' = todosVar w ∧ dataFile w'' = dataFile w ∧
            contents w'' (todosVar w'') = contents w (todosVar w))).
Proof.
  intros Hwf.
  destruct (deleteTodos_run spare todos summary w Hwf)
    as (out & w' & Hrun & Hout & Hin & _ & _ & _ & Hv & Hd & _).
  eexists out, _, w'. split; [exact Hrun|].
  split; [exact Hout|].
  split; [rewrite Hout; apply sublist_filter|].
  split; [done|].
  split; [rewrite Hout; apply filter_split_length|].
  split; [exact Hin|].
  intros Hnone. destruct (filter_none_match _ _ Hnone) as [Hkeep Hdrop].
  split; [by rewrite Hout|]. split; [by rewrite Hdrop|].
  intros ->. exists w'. split; [|by rewrite Hv].
  unfold deleteTodoOperation.
  erewrite bind_run by reflexivity.
  erewrite bind_run by exact Hrun.
  rewrite Hdrop. reflexivity.
Qed.

(** ** [sortTodos] *)

Lemma StronglySorted_lookup_lt {A : Type} (R : relation A) (l : list A)
    (i j : nat) (a b : A) :
  StronglySorted R l → i < j → l !! i = Some a → l !! j = Some b → R a b.
Proof.
  intros Hs Hij Ha Hb. rewrite <- (take_drop j l) in Hs.
  apply (StronglySorted_app_1_elem_of _ _ _ _ _ Hs).
  - apply list_elem_of_lookup. exists i. by rewrite lookup_take_lt.
  - apply list_elem_of_lookup. exists 0. by rewrite lookup_drop, Nat.add_0_r.
Qed.

Lemma StronglySorted_rev {A : Type} (R : relation A) (l : list A) :
  StronglySorted R l → StronglySorted (flip R) (rev l).
Proof.
  induction 1 as [|a l Hs IH Ha]; simpl; [constructor|].
  apply StronglySorted_app_2; [|done|repeat constructor].
  intros x1 x2 Hx1 ->%list_elem_of_singleton.
  rewrite Forall_forall in Ha. apply Ha.
  by apply list_elem_of_In, in_rev, list_elem_of_In in Hx1.
Qed.

(** In a sequence sorted by [lt], whatever is less than another element
    comes before it. *)
Lemma sorted_less_before (lt : Todo → Todo → bool) (l : list Todo)
    (i j : nat) (a b : Todo) :
  (∀ x, lt x x = false) →
  StronglySorted (λ a b, lt b a = false) l →
  l !! i = Some a → l !! j = Some b → lt a b = true → i < j.
Proof.
  intros Hirr Hs Ha Hb Hlt.
  destruct (Nat.lt_trichotomy i j) as [?|[->|Hji]]; [done| |].
  - rewrite Ha in Hb. injection Hb as ->. by rewrite Hirr in Hlt.
  - pose proof (StronglySorted_lookup_lt _ _ _ _ _ _ Hs Hji Hb Ha) as H.
    simpl in H. congruence.
Qed.

Ltac order_cases :=
  repeat match goal with
    | H : context [Z.ltb ?x ?y] |- _ => destruct (Z.ltb_spec x y)
    | H : context [Z.eqb ?x ?y] |- _ => destruct (Z.eqb_spec x y)
    | H : context [Z.gtb ?x ?y] |- _ => rewrite Z.gtb_ltb in H
    | |- context [Z.ltb ?x ?y] => destruct (Z.ltb_spec x y)
    | |- context [Z.eqb ?x ?y] => destruct (Z.eqb_spec x y)
    | |- context [Z.gtb ?x ?y] => rewrite Z.gtb_ltb
    end;
  simpl in *; try discriminate; try reflexivity; try lia.

Lemma sortTodos_less_transitiveOrdering : transitiveOrdering sortTodos_less.
Proof.
  unfold transitiveOrdering, sortTodos_less, Before, Equal.
  split; [|split].
  - intros a. destruct (Done a); simpl; order_cases.
  - intros a b c.
    destruct (Done a), (Done b), (Done c); simpl; intros; order_cases.
  - intros a b c.
    destruct (Done a), (Done b), (Done c); simpl; intros; order_cases.
Qed.

(** ** The insertion sort satisfies the contract of [sort.Slice] *)

Section InsertionSort.
Variable lt : Todo → Todo → bool.

Lemma insertBack_perm (x : Todo) (l : list Todo) : insertBack lt x l ≡ₚ x :: l.
Proof.
  induction l as [|y l IH]; simpl; [done|].
  destruct (lt x y); [|done]. rewrite IH. apply Permutation_swap.
Qed.

Lemma insertionSort_perm (l : list Todo) : insertionSort lt l ≡ₚ l.
Proof.
  unfold insertionSort. rewrite <- Permutation_rev.
  assert (∀ acc, fold_left (λ p x, insertBack lt x p) l acc ≡ₚ l ++ acc) as H.
  { induction l as [|x l IH]; intros acc; simpl; [done|].
    rewrite IH, insertBack_perm. by rewrite Permutation_middle. }
  by rewrite H, app_nil_r.
Qed.

Hypothesis Hord : transitiveOrdering lt.

Lemma insertBack_sorted (x : Todo) (l : list Todo) :
  StronglySorted (λ a b, lt a b = false) l →
  StronglySorted (λ a b, lt a b = false) (insertBack lt x l).
Proof using Hord.
  destruct Hord as (Hirr & Htr & Hneg).
  induction 1 as [|y l Hs IH Hy]; simpl; [repeat constructor|].
  destruct (lt x y) eqn:Hxy.
  - constructor; [done|].
    rewrite insertBack_perm. constructor; [|done].
    destruct (lt y x) eqn:Hyx; [|done].
    pose proof (Htr _ _ _ Hxy Hyx) as Hxx. by rewrite Hirr in Hxx.
  - constructor; [by constructor|].
    constructor; [done|].
    eapply Forall_impl; [exact Hy|]. intros z Hz. simpl in *.
    by apply (Hneg x y z).
Qed.

Lemma insertionSort_sorted (l : list Todo) :
  StronglySorted (λ a b, lt b a = false) (insertionSort lt l).
Proof using Hord.
  unfold insertionSort.
  apply (StronglySorted_rev (λ a b, lt a b = false)).
  assert (∀ acc, StronglySorted (λ a b, lt a b = false) acc →
            StronglySorted (λ a b, lt a b = false)
              (fold_left (λ p x, insertBack lt x p) l acc)) as H.
  { induction l as [|x l IH]; intros acc Hacc; simpl; [done|].
    apply IH. by apply insertBack_sorted. }
  apply H. constructor.
Qed.
End InsertionSort.

Lemma insertionSort_contract : sortContract insertionSort.
Proof.
  intros lt l. split; [apply insertionSort_perm|].
  intros Hord. by apply insertionSort_sorted.
Qed.

Section Sort.
Variable sortOrder : (Todo → Todo → bool) → list Todo → list Todo.

(** All [sortTodos] does to the state is allocate the array it returns. *)
Lemma sortTodos_run (todos : slice) (w : World) :
  wf w todos →
  ∃ p : loc,
    heap w !! p = None ∧
    sortTodos sortOrder todos w =
    Some (Slice p (s_len todos) (s_len todos),
          setHeap (<[p := sortOrder sortTodos_less (contents w todos)]> (heap w)) w).
Proof.
  intros Hwf. pose proof (length_contents _ _ Hwf) as Hlen.
  unfold sortTodos, make. unfold mbind at 1, Go_bind at 1.
  rewrite decide_True by lia.
  destruct (alloc (replicate (s_len todos) zeroTodo) w) as [p w0] eqn:Hal.
  assert (heap w !! p = None) as Hfresh.
  { pose proof (alloc_fresh (replicate (s_len todos) zeroTodo) w) as Hf.
    by rewrite Hal in Hf. }
  assert (w0 = setHeap (<[p := replicate (s_len todos) zeroTodo]> (heap w)) w) as ->.
  { by injection Hal as <- <-. }
  exists p. split; [done|].
  set (sorted := Slice p (s_len todos) (s_len todos)).
  set (w0 := setHeap _ w).
  assert (take (s_len todos) (arrayOf w0 todos) = contents w todos) as Ht.
  { pose proof (contents_alloc (replicate (s_len todos) zeroTodo) w todos Hwf) as H.
    rewrite Hal in H. exact H. }
  assert (arrayOf w0 sorted = replicate (s_len todos) zeroTodo) as Hz.
  { unfold arrayOf. simpl. by rewrite lookup_insert_eq. }
  unfold copy. unfold mbind at 1, Go_bind at 1.
  cbn [s_len sorted]. rewrite Nat.min_id, Ht, Hz.
  rewrite drop_ge by (by rewrite length_replicate). rewrite app_nil_r.
  set (w1 := setArray sorted (contents w todos) w0).
  assert (arrayOf w1 sorted = contents w todos) as Hc.
  { unfold w1. apply arrayOf_setArray. simpl. rewrite lookup_insert_eq. eauto. }
  unfold sort_Slice. unfold mbind, Go_bind.
  unfold contents at 1. rewrite Hc. cbn [s_len sorted].
  rewrite take_ge, drop_ge, app_nil_r by lia.
  unfold mret, Go_ret. f_equal. f_equal.
  unfold w1. rewrite setArray_setArray.
  rewrite setArray_allocated by (simpl; rewrite lookup_insert_eq; eauto).
  unfold setHeap; simpl. by rewrite insert_insert_eq.
Qed.
End Sort.

(** C5. Given the order [sort.Slice] promises for a transitive
    ordering, [sortTodos] returns a new slice and writes nothing else
    (the input holds the records it held); the result holds the same
    records, every task that is not done before every done one, done
    tasks by earlier [doneAt], tasks not done by earlier deadline, then
    higher priority, then earlier [addedAt]; and the tasks A, B, C, D of
    the scenario, in whatever order they are stored, come out as B, A,
    C, D. *)
Theorem sortTodos_pure_and_ordered
    (sortOrder : (Todo → Todo → bool) → list Todo → list Todo)
    (todos : slice) (w : World) :
  sortContract sortOrder →
  wf w todos →
  ∃ (sorted : slice) (w' : World),
    sortTodos sortOrder todos w = Some (sorted, w') ∧
    (* a new sequence, and nothing else is written *)
    heap w !! s_ptr sorted = None ∧
    (∀ p, p ≠ s_ptr sorted → heap w' !! p = heap w !! p) ∧
    contents w' todos = contents w todos ∧
    todosVar w' = todosVar w ∧ dataFile w' = dataFile w ∧
    (* the same records *)
    contents w' sorted ≡ₚ contents w todos ∧
    (* in the display order *)
    (∀ i j a b,
       contents w' sorted !! i = Some a → contents w' sorted !! j = Some b →
       (Done a = false → Done b = true → i < j) ∧
       (Done a = true → Done b = true → (DoneAt a < DoneAt b)%Z → i < j) ∧
       (Done a = false → Done b = false →
          ((Deadline a < Deadline b)%Z → i < j) ∧
          (Deadline a = Deadline b →
             ((Priority a > Priority b)%Z → i < j) ∧
             (Priority a = Priority b → (AddedAt a < AddedAt b)%Z → i < j)))) ∧
    (∀ A B C D,
       Done A = false → Deadline A = Date 2024 1 1 → Priority A = 3%Z →
       Done B = false → Deadline B = Date 2024 1 1 → Priority B = 5%Z →
       Done C = true → DoneAt C = Date 2023 1 1 →
       Done D = true → DoneAt D = Date 2023 6 1 →
       contents w todos ≡ₚ [A; B; C; D] →
       contents w' sorted = [B; A; C; D]).
Proof.
  intros Hsort Hwf.
  destruct (sortTodos_run sortOrder todos w Hwf) as (p & Hfresh & Hrun).
  pose proof (length_contents _ _ Hwf) as Hlen.
  destruct (Hsort sortTodos_less (contents w todos)) as [Hperm Hsorted].
  specialize (Hsorted sortTodos_less_transitiveOrdering).
  pose proof (Permutation_length Hperm) as Hplen.
  set (sorted := Slice p (s_len todos) (s_len todos)) in *.
  set (w' := setHeap _ w) in *.
  assert (contents w' sorted = sortOrder sortTodos_less (contents w todos)) as Hc.
  { unfold contents at 1, arrayOf at 1, w', sorted.
    cbn [heap setHeap s_ptr s_len]. rewrite lookup_insert_eq.
    apply take_ge. lia. }
  assert (∀ i j a b,
    contents w' sorted !! i = Some a → contents w' sorted !! j = Some b →
    sortTodos_less a b = true → i < j) as Hbefore.
  { intros i j a b Ha Hb. rewrite Hc in Ha, Hb.
    eapply sorted_less_before; eauto.
    apply sortTodos_less_transitiveOrdering. }
  exists sorted, w'. split; [exact Hrun|].
  split; [exact Hfresh|].
  split; [intros q Hq; simpl; by rewrite lookup_insert_ne|].
  split.
  { unfold contents, arrayOf. simpl.
    destruct (decide (s_ptr todos = p)) as [Heq|Hne].
    - rewrite <- Heq in Hfresh. rewrite (wf_unallocated _ _ Hwf Hfresh).
      by rewrite !take_0.
    - by rewrite lookup_insert_ne. }
  split; [done|]. split; [done|].
  split; [by rewrite Hc|].
  split.
  - intros i j a b Ha Hb.
    pose proof (Hbefore i j a b Ha Hb) as H. unfold sortTodos_less in H.
    unfold Before, Equal in H.
    split; [|split].
    + intros Da Db. apply H. by rewrite Da, Db.
    + intros Da Db Hlt. apply H. rewrite Da, Db. simpl. by apply Z.ltb_lt.
    + intros Da Db. rewrite Da, Db in H. simpl in H. split.
      * intros Hlt. apply H.
        destruct (Z.eqb_spec (Deadline a) (Deadline b)); [lia|].
        simpl. by apply Z.ltb_lt.
      * intros Heq. rewrite Heq, Z.eqb_refl in H. simpl in H. split.
        -- intros Hgt. apply H.
           destruct (Z.eqb_spec (Priority a) (Priority b)); [lia|].
           simpl. rewrite Z.gtb_ltb. apply Z.ltb_lt. lia.
        -- intros Hpe Hlt. apply H. rewrite Hpe, Z.eqb_refl. simpl.
           by apply Z.ltb_lt.
  - intros A B C D DA LA PA DB LB PB DC AC DD AD Hin.
    rewrite <- Hc in Hperm, Hplen. rewrite Hin in Hperm.
    rewrite (Permutation_length Hin) in Hplen.
    assert (∀ x, x ∈ [A; B; C; D] → ∃ i, contents w' sorted !! i = Some x ∧ i < 4)
      as Hidx.
    { intros x Hx. rewrite <- Hperm in Hx.
      apply list_elem_of_lookup in Hx as [i Hi]. exists i. split; [done|].
      apply lookup_lt_Some in Hi. simpl in Hplen. lia. }
    destruct (Hidx A) as (iA & HA & ?); [apply list_elem_of_In; simpl; tauto|].
    destruct (Hidx B) as (iB & HB & ?); [apply list_elem_of_In; simpl; tauto|].
    destruct (Hidx C) as (iC & HC & ?); [apply list_elem_of_In; simpl; tauto|].
    destruct (Hidx D) as (iD & HD & ?); [apply list_elem_of_In; simpl; tauto|].
    assert (iB < iA) as HBA.
    { apply (Hbefore _ _ _ _ HB HA). unfold sortTodos_less.
      rewrite DA, DB, LA, LB, PA, PB. reflexivity. }
    assert (iA < iC) as HAC.
    { apply (Hbefore _ _ _ _ HA HC). unfold sortTodos_less.
      rewrite DA, DC. reflexivity. }
    assert (iC < iD) as HCD.
    { apply (Hbefore _ _ _ _ HC HD). unfold sortTodos_less.
      rewrite DC, DD, AC, AD. reflexivity. }
    assert (iB = 0 ∧ iA = 1 ∧ iC = 2 ∧ iD = 3) as (-> & -> & -> & ->) by lia.
    destruct (contents w' sorted) as [|b [|a [|c [|d [|]]]]]; try discriminate.
    simpl in HA, HB, HC, HD. congruence.
Qed.

(** ** The properties on the sample data *)

Lemma wf_emptyWorld : wf emptyWorld (todosVar emptyWorld).
Proof. vm_compute. lia. Qed.

Lemma wf_sampleWorld : wf sampleWorld sampleSlice.
Proof. vm_compute. lia. Qed.

Lemma wf_displayWorld : wf displayWorld displaySlice.
Proof. vm_compute. lia. Qed.

Lemma completionInvariant_sample :
  Forall completionInvariant (contents sampleWorld (todosVar sampleWorld)).
Proof. repeat constructor. Qed.

(** The calendar and the instances of the library functions. *)

Example Date_unix_epoch : Date 1970 1 1 = (62135596800 * Second)%Z.
Proof. reflexivity. Qed.

Example Round_morning :
  Round (At 2024 3 15 9 0) (Hour * 24)%Z = Date 2024 3 15.
Proof. reflexivity. Qed.

Example Round_afternoon :
  Round (At 2024 3 15 13 0) (Hour * 24)%Z = Date 2024 3 16.
Proof. reflexivity. Qed.

Example parseYMD_day : parseYMD "2024-03-15" = Some (Date 2024 3 15).
Proof. reflexivity. Qed.

Example parseYMD_no_such_day : parseYMD "2024-02-30" = None.
Proof. reflexivity. Qed.

Example parseYMD_short_month : parseYMD "2024-3-15" = None.
Proof. reflexivity. Qed.

Example asciiTrimSpace_sample : asciiTrimSpace "  buy milk " = "buy milk".
Proof. reflexivity. Qed.

(** Running the program itself on the samples. *)

Example patchTodos_sample :
  ∃ w',
    patchTodos (At 2024 3 15 9 0) sampleSlice "buy milk" donePatch sampleWorld
      = Some (2, w') ∧
    contents w' sampleSlice =
      [setDone true (setDoneAt (At 2024 3 15 9 0) milk); rent;
       setDone true (setDoneAt (At 2024 3 15 9 0) oatMilk)].
Proof. eexists. split; vm_compute; reflexivity. Qed.

Example deleteTodos_nonexistent :
  ∃ out w',
    deleteTodos exactFit sampleSlice "nonexistent" sampleWorld
      = Some ((out, 0), w') ∧
    contents w' out = [milk; rent; oatMilk].
Proof. eexists _, _. split; vm_compute; reflexivity. Qed.

Example deleteTodos_case_sensitive :
  ∃ out w',
    deleteTodos exactFit sampleSlice "Buy Milk" sampleWorld
      = Some ((out, 0), w').
Proof. eexists _, _. vm_compute. reflexivity. Qed.

Example sortTodos_display :
  ∃ sorted w',
    sortTodos insertionSort displaySlice displayWorld = Some (sorted, w') ∧
    contents w' sorted = [taskB; taskA; taskC; taskD].
Proof. eexists _, _. split; vm_compute; reflexivity. Qed.

Example setTodoOperation_priority9 :
  setTodoOperation asciiTrimSpace (At 2024 3 15 9 0) (At 2024 3 15 9 0)
    "buy milk" priority9 sampleWorld
  = Some (Err "priority out of range (1-5)", sampleWorld).
Proof. reflexivity. Qed.

Example createTodo_past_deadline :
  createTodo asciiTrimSpace parseYMD (At 2024 3 15 9 0) (At 2024 3 15 9 0)
    "buy milk" "" "2000-01-01" "1" = Err "deadline is before today".
Proof. vm_compute. reflexivity. Qed.

(** The theorems at the samples. *)

Lemma create_without_deadline_witness :
  asciiTrimSpace "buy milk" ≠ "" ∧
  createTodo asciiTrimSpace parseYMD (At 2024 3 15 9 0) (At 2024 3 15 9 0)
    "buy milk" "" "" "3" = Err "deadline is required" ∧
  ∃ w',
    addTodoOperation asciiTrimSpace parseYMD exactFit
      (At 2024 3 15 9 0) (At 2024 3 15 9 0) (At 2024 3 15 9 0)
      "buy milk" "" "" "3" sampleWorld = Some (Ok TodoAdded, w') ∧
    length (contents w' (todosVar w')) = 4.
Proof.
  assert (asciiTrimSpace "buy milk" ≠ "") as Hs by discriminate.
  split; [exact Hs|].
  destruct (create_without_deadline asciiTrimSpace parseYMD exactFit
              "buy milk" "" "3" Hs) as [Hcreate Hadd].
  split; [apply Hcreate|].
  destruct (Hadd (At 2024 3 15 9 0) (At 2024 3 15 9 0) (At 2024 3 15 9 0)
              sampleWorld (Some 3%Z) wf_sampleWorld eq_refl)
    as (w' & Hrun & Hc).
  - intros v [= <-]. reflexivity.
  - exists w'. split; [exact Hrun|]. rewrite Hc. reflexivity.
Defined.

Lemma setTodoOperation_rejects_witness :
  (∃ p, pPriority priority9 = Some p ∧ ¬ (1 ≤ p ≤ 5)%Z) ∧
  ∃ e,
    setTodoOperation asciiTrimSpace (At 2024 3 15 9 0) (At 2024 3 15 9 0)
      "buy milk" priority9 sampleWorld = Some (Err e, sampleWorld).
Proof.
  assert (∃ p, pPriority priority9 = Some p ∧ ¬ (1 ≤ p ≤ 5)%Z) as Hbad.
  { exists 9%Z. split; [reflexivity | lia]. }
  split; [exact Hbad|].
  destruct (setTodoOperation_rejects asciiTrimSpace (At 2024 3 15 9 0)
              (At 2024 3 15 9 0) "buy milk" priority9 sampleWorld
              (or_introl Hbad)) as (e & Hrun & _).
  exists e. exact Hrun.
Defined.

Lemma patchTodos_toggle_witness :
  wf sampleWorld sampleSlice ∧
  ∃ n w1 y,
    patchTodos (At 2024 3 15 9 0) sampleSlice "buy milk" donePatch sampleWorld
      = Some (n, w1) ∧
    contents w1 sampleSlice !! 0 = Some y ∧ Done y = true ∧
    DoneAt y = At 2024 3 15 9 0 ∧
    ∃ n' w2 z,
      patchTodos (At 2024 3 16 9 0) sampleSlice (Summary y) donePatch w1
        = Some (n', w2) ∧
      contents w2 sampleSlice !! 0 = Some z ∧ Done z = false ∧ DoneAt z = zero.
Proof.
  split; [exact wf_sampleWorld|].
  destruct (patchTodos_toggle (At 2024 3 15 9 0) (At 2024 3 16 9 0) sampleSlice
              "buy milk" donePatch sampleWorld 0 milk
              wf_sampleWorld eq_refl eq_refl)
    as (n & w1 & y & Hrun & Hy & Htoggle & _).
  destruct (Htoggle eq_refl eq_refl)
    as (Hd & Ha & _ & n' & w2 & z & Hrun' & Hz & Hdz & Haz & _).
  exists n, w1, y. repeat (split; [assumption|]).
  exists n', w2, z. auto.
Defined.

Lemma sortTodos_pure_and_ordered_witness :
  sortContract insertionSort ∧ wf displayWorld displaySlice ∧
  ∃ sorted w',
    sortTodos insertionSort displaySlice displayWorld = Some (sorted, w') ∧
    contents w' displaySlice = [taskA; taskB; taskC; taskD] ∧
    contents w' sorted = [taskB; taskA; taskC; taskD].
Proof.
  split; [exact insertionSort_contract|]. split; [exact wf_displayWorld|].
  destruct (sortTodos_pure_and_ordered insertionSort displaySlice displayWorld
              insertionSort_contract wf_displayWorld)
    as (sorted & w' & Hrun & _ & _ & Hin & _ & _ & _ & _ & Hex).
  exists sorted, w'. split; [exact Hrun|]. split; [exact Hin|].
  apply (Hex taskA taskB taskC taskD); vm_compute; reflexivity.
Defined.

Lemma deleteTodos_exact_witness :
  wf sampleWorld sampleSlice ∧
  ∃ out deleted w',
    deleteTodos exactFit sampleSlice "buy milk" sampleWorld
      = Some ((out, deleted), w') ∧
    contents w' out = [rent] ∧ deleted = 2.
Proof.
  split; [exact wf_sampleWorld|].
  destruct (deleteTodos_exact exactFit sampleSlice "buy milk" sampleWorld
              wf_sampleWorld) as (out & deleted & w' & Hrun & Hout & _ & Hn & _).
  exists out, deleted, w'. split; [exact Hrun|]. split; [exact Hout | exact Hn].
Defined.

Lemma patchTodos_every_match_witness :
  wf sampleWorld sampleSlice ∧
  ∃ w',
    patchTodos (At 2024 3 15 9 0) sampleSlice "buy milk" donePatch sampleWorld
      = Some (2, w') ∧
    ∃ y, contents w' sampleSlice !! 2 = Some y ∧ Done y = true.
Proof.
  split; [exact wf_sampleWorld|].
  destruct (patchTodos_every_match (At 2024 3 15 9 0) sampleSlice "buy milk"
              donePatch sampleWorld wf_sampleWorld) as (w' & Hrun & Hall & _).
  exists w'. split; [exact Hrun|].
  destruct (Hall 2 oatMilk eq_refl eq_refl)
    as (y & Hy & _ & _ & _ & _ & _ & Hd & _).
  exists y. split; [exact Hy | exact Hd].
Defined.

Lemma completionInvariant_preserved_witness :
  wf sampleWorld (todosVar sampleWorld) ∧
  Forall completionInvariant (contents sampleWorld (todosVar sampleWorld)) ∧
  (∃ r w',
     addTodoOperation asciiTrimSpace parseYMD exactFit
       (At 2024 3 15 9 0) (At 2024 3 15 9 0) (At 2024 3 15 9 0)
       "call mum" "" "2024-03-20" "" sampleWorld = Some (r, w') ∧
     Forall completionInvariant (contents w' (todosVar w'))) ∧
  (∃ r w',
     setTodoOperation asciiTrimSpace (At 2024 3 15 9 0) (At 2024 3 15 9 0)
       "buy milk" donePatch sampleWorld = Some (r, w') ∧
     Forall completionInvariant (contents w' (todosVar w'))).
Proof.
  split; [exact wf_sampleWorld|]. split; [exact completionInvariant_sample|].
  destruct (completionInvariant_preserved asciiTrimSpace parseYMD exactFit
              sampleWorld wf_sampleWorld completionInvariant_sample)
    as [Hadd Hset].
  split.
  - destruct (Hadd (At 2024 3 15 9 0) (At 2024 3 15 9 0) (At 2024 3 15 9 0)
                "call mum" "" "2024-03-20" "") as (r & w' & Hrun & _ & Hinv).
    exists r, w'. split; [exact Hrun | exact Hinv].
  - destruct (Hset (At 2024 3 15 9 0) (At 2024 3 15 9 0) "buy milk" donePatch)
      as (r & w' & Hrun & _ & Hinv); [discriminate|].
    exists r, w'. split; [exact Hrun | exact Hinv].
Defined.

Lemma patchTodos_frame_witness :
  wf sampleWorld sampleSlice ∧
  ∃ updated w',
    patchTodos (At 2024 3 15 9 0) sampleSlice "buy milk" donePatch sampleWorld
      = Some (updated, w') ∧
    length (contents w' sampleSlice) = 3 ∧
    contents w' sampleSlice !! 1 = Some rent.
Proof.
  split; [exact wf_sampleWorld|].
  destruct (patchTodos_frame (At 2024 3 15 9 0) sampleSlice "buy milk" donePatch
              sampleWorld wf_sampleWorld)
    as (n & w' & Hrun & Hlen & Hother & _).
  exists n, w'. split; [exact Hrun|]. split; [exact Hlen|].
  apply Hother; [reflexivity | discriminate].
Defined.

(** * Further properties of the program *)

(** ** [findFirstTodo] *)

Lemma contents_lookup (w : World) (s : slice) (i : nat) :
  i < s_len s → contents w s !! i = arrayOf w s !! i.
Proof. intros Hi. unfold contents. by rewrite lookup_take_lt. Qed.

Section FindFirst.
Variables (todos : slice) (summary : string).

Lemma findFirstTodo_loop_run (n : nat) :
  ∀ (i : nat) (w : World),
    i + n = s_len todos → s_len todos ≤ length (arrayOf w todos) →
    ∃ r, findFirstTodo_loop todos summary n i w = Some (r, w) ∧
      ((∃ k x, r = (x, true) ∧ i ≤ k ∧ arrayOf w todos !! k = Some x ∧
               k < s_len todos ∧ Summary x = summary ∧
               ∀ j y, i ≤ j < k → arrayOf w todos !! j = Some y →
                      Summary y ≠ summary) ∨
       (r = (zeroTodo, false) ∧
        ∀ j y, i ≤ j < s_len todos → arrayOf w todos !! j = Some y →
               Summary y ≠ summary)).
Proof.
  induction n as [|n IH]; intros i w Hin Hlen.
  - eexists. split; [reflexivity|]. right. split; [done|]. intros; lia.
  - destruct (lookup_lt_is_Some_2 (arrayOf w todos) i ltac:(lia)) as [x Hx].
    cbn [findFirstTodo_loop].
    erewrite bind_run by (apply index_run; [lia | exact Hx]).
    destruct (String.eqb_spec (Summary x) summary) as [Heq|Hne].
    + eexists. split; [reflexivity|]. left.
      exists i, x. split; [done|]. split; [done|]. split; [exact Hx|].
      split; [lia|]. split; [done|]. intros; lia.
    + destruct (IH (S i) w ltac:(lia) Hlen) as (r & Hrun & Hr).
      exists r. split; [exact Hrun|].
      destruct Hr as [(k & y & -> & Hk & Hy & Hlt & Hs & Hbefore) | [-> Hnone]].
      * left. exists k, y. split; [done|]. split; [lia|]. split; [done|].
        split; [done|]. split; [done|].
        intros j z Hj Hz. destruct (decide (j = i)) as [->|].
        -- congruence.
        -- apply (Hbefore j z); [lia | done].
      * right. split; [done|]. intros j z Hj Hz.
        destruct (decide (j = i)) as [->|]; [congruence|].
        apply (Hnone j z); [lia | done].
Qed.
End FindFirst.

(** [findFirstTodo] returns, in the state it was called in, the first
    record with the summary, or the zero record when there is none. *)
Lemma findFirstTodo_run (todos : slice) (summary : string) (w : World) :
  wf w todos →
  ∃ (x : Todo) (found : bool),
    findFirstTodo todos summary w = Some ((x, found), w) ∧
    (found = true →
       ∃ i, contents w todos !! i = Some x ∧ Summary x = summary ∧
            ∀ j y, j < i → contents w todos !! j = Some y → Summary y ≠ summary) ∧
    (found = false →
       x = zeroTodo ∧ Forall (λ y, Summary y ≠ summary) (contents w todos)).
Proof.
  intros Hwf. pose proof Hwf as [H1 H2].
  destruct (findFirstTodo_loop_run todos summary (s_len todos) 0 w
              ltac:(lia) ltac:(lia)) as (r & Hrun & Hr).
  destruct Hr as [(k & x & -> & _ & Hx & Hk & Hs & Hbefore) | [-> Hnone]].
  - exists x, true. split; [exact Hrun|]. split; [|discriminate].
    intros _. exists k. split; [by rewrite contents_lookup|]. split; [done|].
    intros j y Hj Hy.
    apply (Hbefore j y); [lia|]. by rewrite <- contents_lookup by lia.
  - exists zeroTodo, false. split; [exact Hrun|]. split; [discriminate|].
    intros _. split; [done|]. apply Forall_lookup. intros j y Hy.
    pose proof (lookup_lt_Some _ _ _ Hy) as Hj.
    rewrite length_contents in Hj by done.
    apply (Hnone j y); [lia|]. by rewrite <- contents_lookup.
Qed.

(** X1.  On a well-formed slice [findFirstTodo] runs without a panic and
    leaves the state as it is.  It reports a find exactly when some
    record of the slice has the summary; the record it returns is then
    the first such record, in slice order; and when there is none it
    returns the zero record. *)
Theorem findFirstTodo_first (todos : slice) (summary : string) (w : World) :
  wf w todos →
  ∃ (x : Todo) (found : bool),
    findFirstTodo todos summary w = Some ((x, found), w) ∧
    (found = true ↔ ∃ y, y ∈ contents w todos ∧ Summary y = summary) ∧
    (found = true →
       ∃ i, contents w todos !! i = Some x ∧ Summary x = summary ∧
            ∀ j y, j < i → contents w todos !! j = Some y → Summary y ≠ summary) ∧
    (found = false → x = zeroTodo).
Proof.
  intros Hwf.
  destruct (findFirstTodo_run todos summary w Hwf)
    as (x & found & Hrun & Htrue & Hfalse).
  exists x, found. split; [exact Hrun|]. split; [|split; [exact Htrue|]].
  - split.
    + intros Hf. destruct (Htrue Hf) as (i & Hi & Hs & _).
      exists x. split; [by eapply list_elem_of_lookup_2 | done].
    + intros (y & Hy & Hs). destruct found; [done|].
      destruct (Hfalse eq_refl) as [_ Hnone].
      rewrite Forall_forall in Hnone. by destruct (Hnone y Hy).
  - intros Hf. by destruct (Hfalse Hf).
Qed.

(** ** The operations, in full *)

Lemma dump_file (s : slice) (w : World) :
  ∃ w', dump s w = Some (tt, w') ∧ heap w' = heap w ∧ todosVar w' = todosVar w ∧
        writable w' = writable w ∧
        dataFile w' = if writable w then Some (contents w s) else dataFile w.
Proof.
  unfold dump. destruct (writable w) eqn:Hw; eexists; (split; [reflexivity|]);
    simpl; rewrite ?Hw; done.
Qed.

Lemma isValidPriority_range (p : Z) :
  isValidPriority p = true ↔ (1 ≤ p ≤ 5)%Z.
Proof. unfold isValidPriority. rewrite andb_true_iff, !Z.leb_le. done. Qed.

Section AddOutcome.
Variable TrimSpace : string → string.
Variable Parse : string → option Time.
Variable spare : nat → nat.

(** The end of [addTodoOperation], with what it leaves in the data file. *)
Lemma addTodo_commit_file (newTodo : Todo) (w : World) :
  wf w (todosVar w) →
  ∃ w',
    (old ← readTodos;
     new ← append spare old newTodo;
     writeTodos new;;
     cur ← readTodos;
     dump cur;;
     mret (Ok TodoAdded)) w = Some (Ok TodoAdded, w') ∧
    contents w' (todosVar w') = contents w (todosVar w) ++ [newTodo] ∧
    wf w' (todosVar w') ∧
    writable w' = writable w ∧
    dataFile w' = if writable w then Some (contents w' (todosVar w'))
                  else dataFile w.
Proof.
  intros Hwf.
  destruct (append_run spare _ newTodo _ Hwf)
    as (s' & w1 & Hrun & Hc & Hwf1 & _ & Hd1 & Hw1).
  destruct (dump_file s' (mkWorld (heap w1) s' (dataFile w1) (writable w1)))
    as (w2 & Hd & Hh & Hv & Hw & Hf).
  simpl in Hh, Hv, Hw, Hf.
  assert (contents w2 s' = contents w1 s') as Hc2 by by apply contents_heap_eq.
  exists w2. split; [|split; [|split; [|split]]].
  - erewrite bind_run by reflexivity.
    erewrite bind_run by exact Hrun.
    erewrite bind_run by reflexivity.
    erewrite bind_run by reflexivity.
    erewrite bind_run by exact Hd.
    reflexivity.
  - by rewrite Hv, Hc2.
  - rewrite Hv. by apply (wf_heap_eq w1).
  - congruence.
  - rewrite Hf, Hv, Hw1, Hd1, Hc2.
    unfold contents at 1, arrayOf. simpl. done.
Qed.

(** Everything [addTodoOperation] can do: refuse and leave the state, or
    append one record built from its arguments and write the file. *)
Lemma addTodoOperation_outcome (now0 now1 now2 : Time)
    (summary details deadlineStr priorityStr : string) (w : World) :
  wf w (todosVar w) →
  ∃ (r : result Message) (w' : World),
    addTodoOperation TrimSpace Parse spare now0 now1 now2
      summary details deadlineStr priorityStr w = Some (r, w') ∧
    ((∃ e, r = Err e ∧ w' = w) ∨
     (r = Ok TodoAdded ∧ wf w' (todosVar w') ∧ writable w' = writable w ∧
      dataFile w' = (if writable w then Some (contents w' (todosVar w'))
                     else dataFile w) ∧
      TrimSpace summary ≠ "" ∧
      ∃ x, contents w' (todosVar w') = contents w (todosVar w) ++ [x] ∧
           Done x = false ∧ DoneAt x = zero ∧ AddedAt x = now2 ∧
           Summary x = TrimSpace summary ∧ Details x = details ∧
           (1 ≤ Priority x ≤ 5)%Z ∧
           (if String.eqb priorityStr "" then Priority x = 1%Z
            else stringToPriority priorityStr = Ok (Some (Priority x))) ∧
           (if String.eqb deadlineStr "" then Deadline x = Round now0 (Hour * 24)%Z
            else Parse deadlineStr = Some (Deadline x) ∧
                 isValidDeadline now1 (Deadline x) = true))).
Proof.
  intros Hwf. unfold addTodoOperation.
  destruct (String.eqb_spec (TrimSpace summary) "") as [Hs|Hs];
    [eexists _, _; split; [reflexivity | left; eauto]|].
  assert (Hprio : ∀ dl,
    (if String.eqb deadlineStr "" then dl = Round now0 (Hour * 24)%Z
     else Parse deadlineStr = Some dl ∧ isValidDeadline now1 dl = true) →
    ∃ (r : result Message) (w' : World),
      match stringToPriority priorityStr with
      | Err e => mret (Err e)
      | Ok priority =>
          match priority with
          | Some v =>
              if negb (isValidPriority v)
              then mret (Err "priority out of range (1-5)")
              else
                old ← readTodos;
                new ← append spare old
                        {| Priority := v; Deadline := dl; AddedAt := now2;
                           DoneAt := zero; Done := false;
                           Summary := TrimSpace summary; Details := details |};
                writeTodos new;;
                cur ← readTodos;
                dump cur;;
                mret (Ok TodoAdded)
          | None =>
              old ← readTodos;
              new ← append spare old
                      {| Priority := int8 1; Deadline := dl; AddedAt := now2;
                         DoneAt := zero; Done := false;
                         Summary := TrimSpace summary; Details := details |};
              writeTodos new;;
              cur ← readTodos;
              dump cur;;
              mret (Ok TodoAdded)
          end
      end w = Some (r, w') ∧
      ((∃ e, r = Err e ∧ w' = w) ∨
       (r = Ok TodoAdded ∧ wf w' (todosVar w') ∧ writable w' = writable w ∧
        dataFile w' = (if writable w then Some (contents w' (todosVar w'))
                       else dataFile w) ∧
        TrimSpace summary ≠ "" ∧
        ∃ x, contents w' (todosVar w') = contents w (todosVar w) ++ [x] ∧
             Done x = false ∧ DoneAt x = zero ∧ AddedAt x = now2 ∧
             Summary x = TrimSpace summary ∧ Details x = details ∧
             (1 ≤ Priority x ≤ 5)%Z ∧
             (if String.eqb priorityStr "" then Priority x = 1%Z
              else stringToPriority priorityStr = Ok (Some (Priority x))) ∧
             (if String.eqb deadlineStr "" then Deadline x = Round now0 (Hour * 24)%Z
              else Parse deadlineStr = Some (Deadline x) ∧
                   isValidDeadline now1 (Deadline x) = true)))).
  { intros dl Hdl.
    assert (Hempty : ∀ v, stringToPriority priorityStr = Ok v →
              (String.eqb priorityStr "" = true ∧ v = None) ∨
              (String.eqb priorityStr "" = false ∧ ∃ p, v = Some p)).
    { intros v. unfold stringToPriority.
      destruct (String.eqb priorityStr ""); [intros [= <-]; by left|].
      destruct (strconv.ParseInt priorityStr 8) as [p [e|]]; [done|].
      intros [= <-]. right. eauto. }
    destruct (stringToPriority priorityStr) as [[v|]|e] eqn:Hp;
      [| |eexists _, _; split; [reflexivity | left; eauto]].
    - destruct (isValidPriority v) eqn:Hv; cbn [negb];
        [|eexists _, _; split; [reflexivity | left; eauto]].
      destruct (addTodo_commit_file
        {| Priority := v; Deadline := dl; AddedAt := now2;
           DoneAt := zero; Done := false;
           Summary := TrimSpace summary; Details := details |} w Hwf)
        as (w' & Hrun & Hc & Hwf' & Hw & Hf).
      exists (Ok TodoAdded), w'. split; [exact Hrun|]. right.
      repeat (split; [done|]). eexists. split; [exact Hc|]. simpl.
      repeat (split; [done|]). split; [by apply isValidPriority_range|].
      destruct (Hempty _ eq_refl) as [[_ [=]] | [-> _]]. done.
    - destruct (addTodo_commit_file
        {| Priority := int8 1; Deadline := dl; AddedAt := now2;
           DoneAt := zero; Done := false;
           Summary := TrimSpace summary; Details := details |} w Hwf)
        as (w' & Hrun & Hc & Hwf' & Hw & Hf).
      exists (Ok TodoAdded), w'. split; [exact Hrun|]. right.
      repeat (split; [done|]). eexists. split; [exact Hc|]. simpl.
      repeat (split; [done|]).
      destruct (Hempty _ eq_refl) as [[-> _] | [_ [p [=]]]]. done. }
  unfold stringToDeadline.
  destruct (String.eqb deadlineStr "") eqn:Hd.
  - apply Hprio. done.
  - destruct (Parse deadlineStr) as [d|] eqn:HP;
      [|eexists _, _; split; [reflexivity | left; eauto]].
    destruct (isValidDeadline now1 d) eqn:Hv; cbn [negb];
      [|eexists _, _; split; [reflexivity | left; eauto]].
    apply Hprio. done.
Qed.
End AddOutcome.

Lemma patchMatching_none (now : Time) (match_ : string) (patch : TodoPatch)
    (l : list Todo) :
  filter (λ x, Summary x = match_) l = [] →
  patchMatching now match_ patch <$> l = l.
Proof.
  induction l as [|x l IH]; [done|]. intros Hf.
  destruct (decide (Summary x = match_)) as [Heq|Hne].
  - by rewrite filter_cons_True in Hf.
  - rewrite filter_cons_False in Hf by done.
    rewrite fmap_cons, patchMatching_other by done. by rewrite IH.
Qed.

Lemma patched_none (now : Time) (todos : slice) (match_ : string)
    (patch : TodoPatch) (w : World) :
  filter (λ x, Summary x = match_) (contents w todos) = [] →
  patched now todos match_ patch w = w.
Proof.
  intros Hf. unfold patched. rewrite patchMatching_none by done.
  unfold contents. rewrite take_drop. apply setArray_same.
Qed.

(** A slice stays well formed when the state only gains an array. *)
Lemma wf_frame (w w' : World) (s : slice) (q : loc) :
  wf w s → heap w !! q = None →
  (∀ p, p ≠ q → heap w' !! p = heap w !! p) → wf w' s.
Proof.
  intros [H1 H2] Hq Hframe. split; [done|].
  destruct (decide (s_ptr s = q)) as [Heq|Hne].
  - unfold arrayOf in H2. rewrite Heq, Hq in H2. simpl in H2. lia.
  - unfold arrayOf in *. by rewrite Hframe.
Qed.

Section SetDeleteOutcome.
Variable TrimSpace : string → string.
Variable spare : nat → nat.

Lemma setTodoOperation_outcome (now1 now2 : Time) (match_ : string)
    (patch : TodoPatch) (w : World) :
  wf w (todosVar w) →
  validPatch TrimSpace now1 patch →
  let n := length (filter (λ x, Summary x = match_) (contents w (todosVar w))) in
  ∃ w',
    setTodoOperation TrimSpace now1 now2 match_ patch w =
      Some (Ok (if decide (n = 0) then NoTodoFound match_ else Updated n match_),
            w') ∧
    todosVar w' = todosVar w ∧ writable w' = writable w ∧
    wf w' (todosVar w') ∧
    contents w' (todosVar w')
      = (patchMatching now2 match_ patch <$> contents w (todosVar w)) ∧
    (n = 0 → w' = w) ∧
    (0 < n →
       dataFile w' = if writable w then Some (contents w' (todosVar w'))
                     else dataFile w).
Proof.
  intros Hwf (HP & HD & HS) n. unfold setTodoOperation.
  assert (match pPriority patch with
          | Some v => negb (isValidPriority v) | None => false end = false) as ->.
  { destruct (pPriority patch) as [p|]; [|done]. by rewrite (HP p). }
  assert (match pDeadline patch with
          | Some v => negb (isValidDeadline now1 v) | None => false end = false) as ->.
  { destruct (pDeadline patch) as [d|]; [|done]. by rewrite (HD d). }
  assert (match pSummary patch with
          | Some v => String.eqb (TrimSpace v) "" | None => false end = false) as ->.
  { destruct (pSummary patch) as [s|]; [|done].
    apply String.eqb_neq. by apply HS. }
  erewrite bind_run by reflexivity.
  erewrite bind_run by (by apply patchTodos_run).
  fold n. set (w1 := patched _ _ _ _ _).
  assert (todosVar w1 = todosVar w) as Hv by apply todosVar_setArray.
  assert (writable w1 = writable w) as Hw by apply writable_setArray.
  assert (dataFile w1 = dataFile w) as Hf by apply dataFile_setArray.
  assert (wf w1 (todosVar w)) as Hwf1 by by apply wf_patched.
  assert (contents w1 (todosVar w)
          = patchMatching now2 match_ patch <$> contents w (todosVar w)) as Hc
    by by apply contents_patched.
  destruct (decide (0 < n)) as [Hn|Hn].
  - destruct (dump_file (todosVar w1) w1) as (w2 & Hd & Hh & Hv2 & Hw2 & Hf2).
    erewrite bind_run; last first.
    { erewrite bind_run by reflexivity. exact Hd. }
    rewrite decide_False by lia.
    exists w2. split; [by rewrite decide_False by lia|].
    assert (contents w2 (todosVar w) = contents w1 (todosVar w)) as Hc2
      by by apply contents_heap_eq.
    split; [congruence|]. split; [congruence|].
    rewrite Hv2, Hv. split; [by apply (wf_heap_eq w1)|].
    split; [congruence|]. split; [lia|]. intros _.
    rewrite Hf2, Hw, Hv, Hc2, Hf. done.
  - erewrite bind_run by reflexivity.
    rewrite decide_True by lia.
    exists w1. split; [by rewrite decide_True by lia|].
    rewrite Hv. repeat (split; [done|]). split; [|lia].
    intros _. apply patched_none. apply length_zero_iff_nil. fold n. lia.
Qed.

Lemma deleteTodoOperation_outcome (summary : string) (w : World) :
  wf w (todosVar w) →
  let n := length (filter (λ x, Summary x = summary) (contents w (todosVar w))) in
  ∃ w',
    deleteTodoOperation spare summary w =
      Some (if decide (n = 0) then NoTodoFound summary else Deleted n summary, w') ∧
    writable w' = writable w ∧
    wf w' (todosVar w') ∧
    contents w' (todosVar w')
      = filter (λ x, Summary x ≠ summary) (contents w (todosVar w)) ∧
    (n = 0 → todosVar w' = todosVar w ∧ dataFile w' = dataFile w) ∧
    (0 < n →
       dataFile w' = if writable w then Some (contents w' (todosVar w'))
                     else dataFile w).
Proof.
  intros Hwf n.
  destruct (deleteTodos_run spare (todosVar w) summary w Hwf)
    as (out & w1 & Hrun & Hout & Hin & Hwfo & Hfresh & Hframe & Hv & Hd & Hw).
  fold n in Hrun. unfold deleteTodoOperation.
  erewrite bind_run by reflexivity.
  erewrite bind_run by exact Hrun.
  cbv beta iota.
  destruct (decide (0 < n)) as [Hn|Hn].
  - destruct (dump_file out (mkWorld (heap w1) out (dataFile w1) (writable w1)))
      as (w2 & Hdump & Hh & Hv2 & Hw2 & Hf2).
    simpl in Hh, Hv2, Hw2, Hf2.
    erewrite bind_run; last first.
    { erewrite bind_run by reflexivity.
      erewrite bind_run by reflexivity. exact Hdump. }
    rewrite decide_False by lia.
    exists w2. split; [by rewrite decide_False by lia|].
    assert (contents w2 out = contents w1 out) as Hc2 by by apply contents_heap_eq.
    split; [congruence|]. rewrite Hv2.
    split; [by apply (wf_heap_eq w1)|].
    split; [congruence|]. split; [lia|]. intros _.
    rewrite Hf2, Hw, Hd, Hc2.
    unfold contents at 1, arrayOf. simpl. done.
  - erewrite bind_run by reflexivity.
    rewrite decide_True by lia.
    exists w1. split; [by rewrite decide_True by lia|].
    split; [done|]. rewrite Hv.
    assert (Forall (λ x, Summary x ≠ summary) (contents w (todosVar w))) as Hnone.
    { apply Forall_forall. intros x Hx Heq.
      assert (x ∈ filter (λ x, Summary x = summary) (contents w (todosVar w)))
        as Hf by by apply list_elem_of_filter.
      assert (filter (λ x, Summary x = summary) (contents w (todosVar w)) = [])
        as Hnil by (apply length_zero_iff_nil; fold n; lia).
      rewrite Hnil in Hf. by apply not_elem_of_nil in Hf. }
    destruct (filter_none_match _ _ Hnone) as [Hkeep _].
    split; [by eapply wf_frame|].
    split; [by rewrite Hin, Hkeep|]. split; [done|]. lia.
Qed.
End SetDeleteOutcome.

(** ** [addTodoOperation] *)

Section AddProperties.
Variable TrimSpace : string → string.
Variable Parse : string → option Time.
Variable spare : nat → nat.

(** X2.  [addTodoOperation] refuses, with an error and without touching
    the state (memory or data file), a summary that is blank after
    trimming, a deadline text that parses to a day before today's, and
    a priority text that parses to a number outside 1..5.  The blank
    summary is reported as "summary is required", whatever else is
    wrong. *)
Theorem addTodoOperation_rejects (now0 now1 now2 : Time)
    (summary details deadlineStr priorityStr : string) (w : World) :
  TrimSpace summary = "" ∨
  (∃ d, deadlineStr ≠ "" ∧ Parse deadlineStr = Some d ∧
        (calendarDay d < calendarDay now1)%Z) ∨
  (∃ p, stringToPriority priorityStr = Ok (Some p) ∧ ¬ (1 ≤ p ≤ 5)%Z) →
  ∃ e,
    addTodoOperation TrimSpace Parse spare now0 now1 now2
      summary details deadlineStr priorityStr w = Some (Err e, w) ∧
    (TrimSpace summary = "" → e = "summary is required").
Proof.
  intros Hbad. unfold addTodoOperation.
  destruct (String.eqb_spec (TrimSpace summary) "") as [Hs|Hs];
    [eexists; split; [reflexivity | done]|].
  assert (Hprio : ∀ dl : Time,
    (∃ p, stringToPriority priorityStr = Ok (Some p) ∧ ¬ (1 ≤ p ≤ 5)%Z) →
    ∃ e,
      match stringToPriority priorityStr with
      | Err e => mret (Err e)
      | Ok priority =>
          match priority with
          | Some v =>
              if negb (isValidPriority v)
              then mret (Err "priority out of range (1-5)")
              else
                old ← readTodos;
                new ← append spare old
                        {| Priority := v; Deadline := dl; AddedAt := now2;
                           DoneAt := zero; Done := false;
                           Summary := TrimSpace summary; Details := details |};
                writeTodos new;;
                cur ← readTodos;
                dump cur;;
                mret (Ok TodoAdded)
          | None =>
              old ← readTodos;
              new ← append spare old
                      {| Priority := int8 1; Deadline := dl; AddedAt := now2;
                         DoneAt := zero; Done := false;
                         Summary := TrimSpace summary; Details := details |};
              writeTodos new;;
              cur ← readTodos;
              dump cur;;
              mret (Ok TodoAdded)
          end
      end w = Some (Err e, w) ∧ (TrimSpace summary = "" → e = "summary is required")).
  { intros dl (p & Hp & Hr). rewrite Hp.
    destruct (isValidPriority p) eqn:Hv.
    - apply isValidPriority_range in Hv. lia.
    - eexists. split; [reflexivity | done]. }
  unfold stringToDeadline.
  destruct Hbad as [Hb | [(d & Hne & HP & Hday) | Hp]]; [done | |].
  - apply String.eqb_neq in Hne. rewrite Hne, HP.
    rewrite (isValidDeadline_earlier_day _ _ Hday). cbn [negb].
    eexists. split; [reflexivity | done].
  - destruct (String.eqb deadlineStr ""); [by apply Hprio|].
    destruct (Parse deadlineStr) as [d|];
      [|eexists; split; [reflexivity | done]].
    destruct (negb (isValidDeadline now1 d));
      [eexists; split; [reflexivity | done]|].
    by apply Hprio.
Qed.

(** X3.  [addTodoOperation] either fails and leaves the state as it was,
    or answers "todo added" and the collection is the old one followed
    by exactly one new record: trimmed non-empty summary, the details
    as given, [AddedAt] the time of creation, not done, [DoneAt] zero,
    priority within 1..5 (1 when none was given), and a deadline that
    is [Now().Round(24h)] when none was given and otherwise the parsed
    date, which is not before the rounded present. *)
Theorem addTodoOperation_appends (now0 now1 now2 : Time)
    (summary details deadlineStr priorityStr : string) (w : World) :
  wf w (todosVar w) →
  ∃ (r : result Message) (w' : World),
    addTodoOperation TrimSpace Parse spare now0 now1 now2
      summary details deadlineStr priorityStr w = Some (r, w') ∧
    match r with
    | Err _ => w' = w
    | Ok msg =>
        msg = TodoAdded ∧
        ∃ x, contents w' (todosVar w') = contents w (todosVar w) ++ [x] ∧
             Summary x = TrimSpace summary ∧ Summary x ≠ "" ∧
             Details x = details ∧ AddedAt x = now2 ∧
             Done x = false ∧ DoneAt x = zero ∧
             (1 ≤ Priority x ≤ 5)%Z ∧
             (priorityStr = "" → Priority x = 1%Z) ∧
             (deadlineStr = "" → Deadline x = Round now0 (Hour * 24)%Z) ∧
             (deadlineStr ≠ "" →
                Parse deadlineStr = Some (Deadline x) ∧
                (Round now1 (Hour * 24) ≤ Deadline x)%Z)
    end.
Proof.
  intros Hwf.
  destruct (addTodoOperation_outcome TrimSpace Parse spare now0 now1 now2
              summary details deadlineStr priorityStr w Hwf)
    as (r & w' & Hrun & [(e & -> & ->) |
         (-> & _ & _ & _ & Hs & x & Hc & Hd & Hz & Ha & Hsum & Hdet & Hp & Hsp & Hdl)]);
    eexists _, _; (split; [exact Hrun|]); [done|].
  split; [done|]. exists x. split; [done|]. split; [done|].
  split; [by rewrite Hsum|]. repeat (split; [done|]).
  split; [|split].
  - intros ->. exact Hsp.
  - intros ->. exact Hdl.
  - intros Hne. apply String.eqb_neq in Hne. rewrite Hne in Hdl.
    destruct Hdl as [HP Hv]. split; [done|]. by apply isValidDeadline_spec.
Qed.
End AddProperties.

(** ** Invariants of the collection and the data file *)

Lemma filter_filter_out (summary : string) (l : list Todo) :
  filter (λ x, Summary x = summary) (filter (λ x, Summary x ≠ summary) l) = [].
Proof.
  induction l as [|x l IH]; [done|].
  destruct (decide (Summary x = summary)) as [Heq|Hne].
  - by rewrite (filter_cons_False (λ x, Summary x ≠ summary)) by (intros H; by apply H).
  - rewrite (filter_cons_True (λ x, Summary x ≠ summary)) by done.
    by rewrite (filter_cons_False (λ x, Summary x = summary)) by done.
Qed.

Lemma Forall_filter_out (summary : string) (l : list Todo) :
  Forall (λ x, Summary x ≠ summary) (filter (λ x, Summary x ≠ summary) l).
Proof. apply Forall_forall. intros x Hx. by apply list_elem_of_filter in Hx as [? _]. Qed.

Lemma Forall_filter_keep (P : Todo → Prop) (summary : string) (l : list Todo) :
  Forall P l → Forall P (filter (λ x, Summary x ≠ summary) l).
Proof.
  rewrite !Forall_forall. intros H x Hx.
  apply list_elem_of_filter in Hx as [_ Hx]. by apply H.
Qed.

Lemma none_match_of_count (summary : string) (l : list Todo) :
  length (filter (λ x, Summary x = summary) l) = 0 →
  Forall (λ x, Summary x ≠ summary) l.
Proof.
  intros Hn%length_zero_iff_nil. apply Forall_forall. intros x Hx Heq.
  assert (x ∈ filter (λ x, Summary x = summary) l) as Hf
    by by apply list_elem_of_filter.
  rewrite Hn in Hf. by apply not_elem_of_nil in Hf.
Qed.

Section Invariants.
Variable TrimSpace : string → string.
Variable Parse : string → option Time.
Variable spare : nat → nat.

(** X4.  If every record of the collection has its priority within
    1..5, this still holds after [addTodoOperation],
    [setTodoOperation] and [deleteTodoOperation], whatever their
    arguments and whether they succeed or fail. *)
Theorem priorityInRange_preserved (w : World) :
  wf w (todosVar w) →
  Forall priorityInRange (contents w (todosVar w)) →
  (∀ now0 now1 now2 summary details deadlineStr priorityStr,
     ∃ r w',
       addTodoOperation TrimSpace Parse spare now0 now1 now2
         summary details deadlineStr priorityStr w = Some (r, w') ∧
       Forall priorityInRange (contents w' (todosVar w'))) ∧
  (∀ now1 now2 match_ patch,
     ∃ r w',
       setTodoOperation TrimSpace now1 now2 match_ patch w = Some (r, w') ∧
       Forall priorityInRange (contents w' (todosVar w'))) ∧
  (∀ summary,
     ∃ msg w',
       deleteTodoOperation spare summary w = Some (msg, w') ∧
       Forall priorityInRange (contents w' (todosVar w'))).
Proof.
  intros Hwf Hinv. split; [|split].
  - intros now0 now1 now2 summary details deadlineStr priorityStr.
    destruct (addTodoOperation_outcome TrimSpace Parse spare now0 now1 now2
                summary details deadlineStr priorityStr w Hwf)
      as (r & w' & Hrun & [(e & -> & ->) |
           (-> & _ & _ & _ & _ & x & Hc & _ & _ & _ & _ & _ & Hp & _)]);
      eexists _, _; (split; [exact Hrun|]); [done|].
    rewrite Hc. apply Forall_app. split; [done|]. by apply Forall_singleton.
  - intros now1 now2 match_ patch.
    destruct (setTodoOperation_run TrimSpace now1 now2 match_ patch w Hwf)
      as (r & w' & Hrun & Hr). exists r, w'. split; [exact Hrun|].
    destruct Hr as [(e & -> & ->) | (msg & -> & Hv & Hh)]; [done|].
    (* the operation went through: the patch passed the priority check *)
    assert (∀ p, pPriority patch = Some p → isValidPriority p = true) as HP.
    { intros p Hp. revert Hrun. unfold setTodoOperation. rewrite Hp.
      destruct (isValidPriority p); [done | discriminate]. }
    rewrite Hv, (contents_heap_eq _ _ _ Hh), contents_patched by done.
    apply Forall_fmap. eapply Forall_impl; [exact Hinv|].
    intros x Hx. simpl. unfold patchMatching.
    destruct (String.eqb _ _); [|done]. unfold priorityInRange.
    destruct (patchRecord_fields now2 patch x) as (_ & _ & -> & _).
    destruct (pPriority patch) as [p|]; [|done].
    by apply isValidPriority_range, HP.
  - intros summary.
    destruct (deleteTodoOperation_outcome spare summary w Hwf)
      as (w' & Hrun & _ & _ & Hc & _).
    eexists _, w'. split; [exact Hrun|]. rewrite Hc.
    by apply Forall_filter_keep.
Qed.

(** X5.  If no record of the collection has an empty summary, this still
    holds after [addTodoOperation] and [setTodoOperation], whatever
    their arguments ([strings.TrimSpace] maps the empty text to
    itself). *)
Theorem summary_nonempty_preserved (w : World) :
  TrimSpace "" = "" →
  wf w (todosVar w) →
  Forall (λ x, Summary x ≠ "") (contents w (todosVar w)) →
  (∀ now0 now1 now2 summary details deadlineStr priorityStr,
     ∃ r w',
       addTodoOperation TrimSpace Parse spare now0 now1 now2
         summary details deadlineStr priorityStr w = Some (r, w') ∧
       Forall (λ x, Summary x ≠ "") (contents w' (todosVar w'))) ∧
  (∀ now1 now2 match_ patch,
     ∃ r w',
       setTodoOperation TrimSpace now1 now2 match_ patch w = Some (r, w') ∧
       Forall (λ x, Summary x ≠ "") (contents w' (todosVar w'))).
Proof.
  intros Htrim Hwf Hinv. split.
  - intros now0 now1 now2 summary details deadlineStr priorityStr.
    destruct (addTodoOperation_outcome TrimSpace Parse spare now0 now1 now2
                summary details deadlineStr priorityStr w Hwf)
      as (r & w' & Hrun & [(e & -> & ->) |
           (-> & _ & _ & _ & Hs & x & Hc & _ & _ & _ & Hsum & _)]);
      eexists _, _; (split; [exact Hrun|]); [done|].
    rewrite Hc. apply Forall_app. split; [done|].
    apply Forall_singleton. by rewrite Hsum.
  - intros now1 now2 match_ patch.
    destruct (setTodoOperation_run TrimSpace now1 now2 match_ patch w Hwf)
      as (r & w' & Hrun & Hr). exists r, w'. split; [exact Hrun|].
    destruct Hr as [(e & -> & ->) | (msg & -> & Hv & Hh)]; [done|].
    assert (∀ s, pSummary patch = Some s → s ≠ "") as HS.
    { intros s Hs ->. revert Hrun. unfold setTodoOperation. rewrite Hs, Htrim.
      destruct (match pPriority patch with Some v => _ | None => _ end);
        [discriminate|].
      destruct (match pDeadline patch with Some v => _ | None => _ end);
        discriminate. }
    rewrite Hv, (contents_heap_eq _ _ _ Hh), contents_patched by done.
    apply Forall_fmap. eapply Forall_impl; [exact Hinv|].
    intros x Hx. simpl. unfold patchMatching.
    destruct (String.eqb _ _); [|done].
    destruct (patchRecord_fields now2 patch x) as (-> & _).
    destruct (pSummary patch) as [s|]; [|done]. by apply HS.
Qed.

(** X6.  With a patch that passes its validation, [setTodoOperation]
    never fails.  When no record has the summary it answers "no todo
    found" and the whole state is unchanged (nothing is written); when
    one has, it answers "updated n", n > 0 being the number of matching
    records, every matching record is patched in place, and the data
    file holds the new collection if it can be written. *)
Theorem setTodoOperation_updates (now1 now2 : Time) (match_ : string)
    (patch : TodoPatch) (w : World) :
  wf w (todosVar w) →
  validPatch TrimSpace now1 patch →
  ∃ (msg : Message) (w' : World),
    setTodoOperation TrimSpace now1 now2 match_ patch w = Some (Ok msg, w') ∧
    (Forall (λ x, Summary x ≠ match_) (contents w (todosVar w)) →
       msg = NoTodoFound match_ ∧ w' = w) ∧
    (∀ x, x ∈ contents w (todosVar w) → Summary x = match_ →
       ∃ n, msg = Updated n match_ ∧ 0 < n ∧
            n = length (filter (λ x, Summary x = match_) (contents w (todosVar w))) ∧
            todosVar w' = todosVar w ∧
            contents w' (todosVar w')
              = (patchMatching now2 match_ patch <$> contents w (todosVar w)) ∧
            (writable w = true → synced w')).
Proof.
  intros Hwf Hvalid.
  destruct (setTodoOperation_outcome TrimSpace now1 now2 match_ patch w Hwf Hvalid)
    as (w' & Hrun & Hv & Hw & _ & Hc & Hzero & Hpos).
  eexists _, w'. split; [exact Hrun|]. split.
  - intros Hnone. destruct (filter_none_match _ _ Hnone) as [_ Hf].
    rewrite Hf. simpl. split; [done|]. apply Hzero. by rewrite Hf.
  - intros x Hx Hm.
    assert (x ∈ filter (λ x, Summary x = match_) (contents w (todosVar w))) as Hin
      by by apply list_elem_of_filter.
    set (n := length _) in *.
    assert (0 < n) as Hn.
    { unfold n. destruct (filter _ _); [by apply not_elem_of_nil in Hin|simpl; lia]. }
    exists n. rewrite decide_False by lia.
    do 5 (split; [done|]).
    intros Hwr. unfold synced. rewrite (Hpos Hn), Hwr. done.
Qed.

(** X7.  The data file follows the collection.  If the file, when
    writable, holds the collection before [addTodoOperation],
    [setTodoOperation] or [deleteTodoOperation], it holds the
    collection afterwards, on success and on failure; and when the file
    cannot be created, its content is left as it was. *)
Theorem operations_keep_file (w : World) :
  wf w (todosVar w) →
  (writable w = true → synced w) →
  (∀ now0 now1 now2 summary details deadlineStr priorityStr,
     ∃ r w',
       addTodoOperation TrimSpace Parse spare now0 now1 now2
         summary details deadlineStr priorityStr w = Some (r, w') ∧
       (writable w = true → synced w') ∧
       (writable w = false → dataFile w' = dataFile w)) ∧
  (∀ now1 now2 match_ patch,
     ∃ r w',
       setTodoOperation TrimSpace now1 now2 match_ patch w = Some (r, w') ∧
       (writable w = true → synced w') ∧
       (writable w = false → dataFile w' = dataFile w)) ∧
  (∀ summary,
     ∃ msg w',
       deleteTodoOperation spare summary w = Some (msg, w') ∧
       (writable w = true → synced w') ∧
       (writable w = false → dataFile w' = dataFile w)).
Proof.
  intros Hwf Hsync. split; [|split].
  - intros now0 now1 now2 summary details deadlineStr priorityStr.
    destruct (addTodoOperation_outcome TrimSpace Parse spare now0 now1 now2
                summary details deadlineStr priorityStr w Hwf)
      as (r & w' & Hrun & [(e & -> & ->) | (-> & _ & _ & Hf & _)]);
      eexists _, _; (split; [exact Hrun|]); [done|].
    unfold synced. split; intros Hw; by rewrite Hf, Hw.
  - intros now1 now2 match_ patch.
    destruct (setTodoOperation_run TrimSpace now1 now2 match_ patch w Hwf)
      as (r & w0 & Hrun0 & Hr).
    destruct Hr as [(e & -> & ->) | (msg & -> & _)];
      [exists (Err e), w; by split|].
    assert (validPatch TrimSpace now1 patch) as Hvalid.
    { revert Hrun0. unfold setTodoOperation, validPatch.
      destruct (pPriority patch) as [p|]; [destruct (isValidPriority p) eqn:?|];
        cbn [negb]; try discriminate;
      (destruct (pDeadline patch) as [d|];
        [destruct (isValidDeadline now1 d) eqn:?|]; cbn [negb]; try discriminate);
      (destruct (pSummary patch) as [s|];
        [destruct (String.eqb_spec (TrimSpace s) "")|]; try discriminate);
      intros _; repeat split; intros ? [=]; subst; done. }
    destruct (setTodoOperation_outcome TrimSpace now1 now2 match_ patch w Hwf Hvalid)
      as (w' & Hrun & _ & _ & _ & _ & Hzero & Hpos).
    eexists _, w'. split; [exact Hrun|].
    set (n := length _) in *.
    destruct (decide (n = 0)) as [Hn|Hn].
    + rewrite (Hzero Hn). done.
    + unfold synced. split; intros Hw; rewrite Hpos, Hw by lia; done.
  - intros summary.
    destruct (deleteTodoOperation_outcome spare summary w Hwf)
      as (w' & Hrun & _ & _ & Hc & Hzero & Hpos).
    eexists _, w'. split; [exact Hrun|].
    set (n := length _) in *.
    destruct (decide (n = 0)) as [Hn|Hn].
    + destruct (Hzero Hn) as [Hv Hf]. unfold synced. rewrite Hf.
      split; [|done]. intros Hw. rewrite (Hsync Hw). f_equal.
      rewrite Hc.
      destruct (filter_none_match _ _ (none_match_of_count _ _ Hn)) as [-> _].
      done.
    + unfold synced. split; intros Hw; rewrite Hpos, Hw by lia; done.
Qed.
End Invariants.

(** ** Operations in sequence *)

Section Compositions.
Variable TrimSpace : string → string.
Variable spare : nat → nat.

(** X8.  When some record has the summary, [deleteTodoOperation] answers
    "deleted n", n > 0 being the number of records with that summary,
    the collection becomes the records with another summary, in their
    order, n records shorter, and the data file holds the new
    collection if it can be written. *)
Theorem deleteTodoOperation_removes (summary : string) (w : World) (x : Todo) :
  wf w (todosVar w) →
  x ∈ contents w (todosVar w) →
  Summary x = summary →
  ∃ (n : nat) (w' : World),
    deleteTodoOperation spare summary w = Some (Deleted n summary, w') ∧
    0 < n ∧
    n = length (filter (λ y, Summary y = summary) (contents w (todosVar w))) ∧
    contents w' (todosVar w')
      = filter (λ y, Summary y ≠ summary) (contents w (todosVar w)) ∧
    length (contents w' (todosVar w')) + n = length (contents w (todosVar w)) ∧
    (writable w = true → synced w').
Proof.
  intros Hwf Hx Hs.
  destruct (deleteTodoOperation_outcome spare summary w Hwf)
    as (w' & Hrun & _ & _ & Hc & _ & Hpos).
  set (n := length _) in *.
  assert (0 < n) as Hn.
  { assert (x ∈ filter (λ y, Summary y = summary) (contents w (todosVar w)))
      as Hin by by apply list_elem_of_filter.
    unfold n. destruct (filter _ _); [by apply not_elem_of_nil in Hin|simpl; lia]. }
  rewrite decide_False in Hrun by lia.
  exists n, w'. split; [exact Hrun|]. split; [done|]. split; [done|].
  split; [done|]. split; [rewrite Hc; apply filter_split_length|].
  intros Hw. unfold synced. by rewrite Hpos, Hw.
Qed.

(** X9.  The same [deleteTodoOperation] a second time finds nothing: it
    answers "no todo found" and changes neither the collection nor the
    data file. *)
Theorem deleteTodoOperation_twice (summary : string) (w : World) :
  wf w (todosVar w) →
  ∃ (msg : Message) (w1 w2 : World),
    deleteTodoOperation spare summary w = Some (msg, w1) ∧
    deleteTodoOperation spare summary w1 = Some (NoTodoFound summary, w2) ∧
    todosVar w2 = todosVar w1 ∧ dataFile w2 = dataFile w1 ∧
    contents w2 (todosVar w2) = contents w1 (todosVar w1).
Proof.
  intros Hwf.
  destruct (deleteTodoOperation_outcome spare summary w Hwf)
    as (w1 & Hrun1 & _ & Hwf1 & Hc1 & _).
  destruct (deleteTodoOperation_outcome spare summary w1 Hwf1)
    as (w2 & Hrun2 & _ & _ & Hc2 & Hzero & _).
  assert (length (filter (λ x, Summary x = summary) (contents w1 (todosVar w1))) = 0)
    as Hn by by rewrite Hc1, filter_filter_out.
  rewrite Hn in Hrun2. simpl in Hrun2.
  destruct (Hzero Hn) as [Hv Hf].
  eexists _, w1, w2. split; [exact Hrun1|]. split; [exact Hrun2|].
  split; [done|]. split; [done|].
  rewrite Hc2.
  destruct (filter_none_match _ _ (none_match_of_count _ _ Hn)) as [-> _]. done.
Qed.

(** X10.  After [deleteTodoOperation] for a summary, [findFirstTodo] for
    that summary finds nothing in the collection and returns the zero
    record. *)
Theorem findFirstTodo_after_delete (summary : string) (w : World) :
  wf w (todosVar w) →
  ∃ (msg : Message) (w' : World),
    deleteTodoOperation spare summary w = Some (msg, w') ∧
    findFirstTodo (todosVar w') summary w' = Some ((zeroTodo, false), w').
Proof.
  intros Hwf.
  destruct (deleteTodoOperation_outcome spare summary w Hwf)
    as (w' & Hrun & _ & Hwf' & Hc & _).
  eexists _, w'. split; [exact Hrun|].
  destruct (findFirstTodo_run (todosVar w') summary w' Hwf')
    as (x & found & Hfind & Htrue & Hfalse).
  destruct found.
  - destruct (Htrue eq_refl) as (i & Hi & Hs & _).
    apply list_elem_of_lookup_2 in Hi. rewrite Hc in Hi.
    apply list_elem_of_filter in Hi as [Hne _]. done.
  - destruct (Hfalse eq_refl) as [-> _]. exact Hfind.
Qed.

(** X11.  [findFirstTodo] and [setTodoOperation] agree on what matches:
    with a patch that passes validation, the lookup finds a record
    exactly when the update answers "updated n" with n > 0, and finds
    none exactly when the update answers "no todo found". *)
Theorem findFirstTodo_iff_updated (now1 now2 : Time) (match_ : string)
    (patch : TodoPatch) (w : World) :
  wf w (todosVar w) →
  validPatch TrimSpace now1 patch →
  ∃ (x : Todo) (found : bool) (msg : Message) (w' : World),
    findFirstTodo (todosVar w) match_ w = Some ((x, found), w) ∧
    setTodoOperation TrimSpace now1 now2 match_ patch w = Some (Ok msg, w') ∧
    (found = true ↔ ∃ n, 0 < n ∧ msg = Updated n match_) ∧
    (found = false ↔ msg = NoTodoFound match_).
Proof.
  intros Hwf Hvalid.
  destruct (findFirstTodo_run (todosVar w) match_ w Hwf)
    as (x & found & Hfind & Htrue & Hfalse).
  destruct (setTodoOperation_outcome TrimSpace now1 now2 match_ patch w Hwf Hvalid)
    as (w' & Hrun & _).
  set (n := length _) in *.
  eexists x, found, _, w'. split; [exact Hfind|]. split; [exact Hrun|].
  destruct found.
  - destruct (Htrue eq_refl) as (i & Hi & Hs & _).
    apply list_elem_of_lookup_2 in Hi.
    assert (x ∈ filter (λ y, Summary y = match_) (contents w (todosVar w)))
      as Hin by by apply list_elem_of_filter.
    assert (0 < n) as Hn.
    { unfold n. destruct (filter _ _); [by apply not_elem_of_nil in Hin|simpl; lia]. }
    rewrite decide_False by lia. split; split; try done.
    intros _. exists n. done.
  - destruct (Hfalse eq_refl) as [_ Hnone].
    destruct (filter_none_match _ _ Hnone) as [_ Hf].
    assert (n = 0) as Hn by (unfold n; by rewrite Hf).
    rewrite decide_True by done. split; split; try done.
    intros (k & Hk & [=]).
Qed.

(** X12.  Renaming through [setTodoOperation] (a patch that only sets the
    summary, to a non-blank text other than the one matched) leaves no
    record under the old summary, and the records under the new one are
    those already there plus all the renamed ones. *)
Theorem setTodoOperation_rename (now1 now2 : Time) (old new : string) (w : World) :
  wf w (todosVar w) →
  TrimSpace new ≠ "" →
  old ≠ new →
  ∃ (msg : Message) (w' : World),
    setTodoOperation TrimSpace now1 now2 old
      (mkPatch None (Some new) None None None) w = Some (Ok msg, w') ∧
    Forall (λ x, Summary x ≠ old) (contents w' (todosVar w')) ∧
    length (filter (λ x, Summary x = new) (contents w' (todosVar w')))
      = length (filter (λ x, Summary x = old) (contents w (todosVar w)))
        + length (filter (λ x, Summary x = new) (contents w (todosVar w))).
Proof.
  intros Hwf Hnew Hne.
  assert (validPatch TrimSpace now1 (mkPatch None (Some new) None None None))
    as Hvalid.
  { repeat split; simpl; try discriminate. by intros s [= <-]. }
  destruct (setTodoOperation_outcome TrimSpace now1 now2 old _ w Hwf Hvalid)
    as (w' & Hrun & _ & _ & _ & Hc & _).
  eexists _, w'. split; [exact Hrun|]. rewrite Hc.
  generalize (contents w (todosVar w)). intros l.
  induction l as [|x l [IH1 IH2]]; [by split|].
  rewrite fmap_cons. unfold patchMatching at 1 3.
  destruct (String.eqb_spec (Summary x) old) as [Ho|Ho].
  - assert (Summary (patchRecord now2 (mkPatch None (Some new) None None None) x)
            = new) as Hs by done.
    split; [constructor; [congruence | done]|].
    rewrite (filter_cons_True (λ x, Summary x = new)) by done.
    rewrite (filter_cons_True (λ x, Summary x = old)) by done.
    rewrite (filter_cons_False (λ x, Summary x = new) x) by congruence.
    simpl. rewrite IH2. lia.
  - split; [by constructor|].
    rewrite (filter_cons_False (λ x, Summary x = old) x) by done.
    destruct (decide (Summary x = new)) as [Hn|Hn].
    + rewrite !(filter_cons_True (λ x, Summary x = new)) by done.
      simpl. rewrite IH2. lia.
    + rewrite !(filter_cons_False (λ x, Summary x = new)) by done. done.
Qed.
End Compositions.

(** ** The web form *)

Section WebForm.
Variable TrimSpace : string → string.
Variable ToLower : string → string.
Variable Parse : string → option Time.

(** X13.  A patch built by [paramsToPatch] never asks to clear the done
    flag, never sets an empty summary and never sets empty details; the
    summary it sets is the form's, trimmed, and the details are the
    form's, as sent. *)
Theorem paramsToPatch_never (params : Values) (patch : TodoPatch) :
  paramsToPatch TrimSpace ToLower Parse params = Ok patch →
  pDone patch ≠ Some false ∧
  pSummary patch ≠ Some "" ∧
  pDetails patch ≠ Some "" ∧
  (∀ s, pSummary patch = Some s → s = TrimSpace (Get params "summary")) ∧
  (∀ d, pDetails patch = Some d → d = Get params "details").
Proof.
  unfold paramsToPatch.
  destruct (stringToPriority _) as [priority|e]; [|discriminate].
  destruct (stringToDeadline Parse _) as [deadline|e]; [|discriminate].
  intros [= <-]. simpl.
  split; [by destruct (isTrue _ _ _)|].
  split; [destruct (String.eqb_spec (TrimSpace (Get params "summary")) "");
          simpl; congruence|].
  split; [destruct (String.eqb_spec (Get params "details") "");
          simpl; congruence|].
  split.
  - intros s. destruct (String.eqb _ ""); simpl; congruence.
  - intros d. destruct (String.eqb _ ""); simpl; congruence.
Qed.

(** X14.  [paramsToPatch] fails in two cases only: the priority field
    does not parse, with the parser's error; or the priority parses and
    the deadline field is non-empty and is not a date, with the format
    error.  The done, summary and details fields never make it fail, and
    a bad priority is reported before a bad deadline. *)
Theorem paramsToPatch_errors (params : Values) (e : string) :
  paramsToPatch TrimSpace ToLower Parse params = Err e ↔
  stringToPriority (Get params "priority") = Err e ∨
  ((∃ p, stringToPriority (Get params "priority") = Ok p) ∧
   Get params "deadline" ≠ "" ∧ Parse (Get params "deadline") = None ∧
   e = "invalid deadline format, expected 2006-01-02").
Proof.
  unfold paramsToPatch, stringToDeadline.
  destruct (stringToPriority _) as [priority|e']; [|split].
  - destruct (String.eqb_spec (Get params "deadline") "") as [Hd|Hd].
    + split; [discriminate|]. intros [[=] | (_ & Hne & _)]. done.
    + destruct (Parse _) as [d|] eqn:HP.
      * split; [discriminate|]. intros [[=] | (_ & _ & [=] & _)].
      * split.
        -- intros [= <-]. right. eauto.
        -- intros [[=] | (_ & _ & _ & ->)]. done.
  - intros [= <-]. by left.
  - intros [[= <-] | ((p & [=]) & _)]. done.
Qed.

(** X15.  A priority outside 1..5 that fits 8 bits is accepted by
    [paramsToPatch], which does not validate, and stored in the patch;
    [setTodoOperation] then rejects that patch with "priority out of
    range (1-5)" on every collection, and changes nothing. *)
Theorem paramsToPatch_then_set (params : Values) (p : Z) :
  stringToPriority (Get params "priority") = Ok (Some p) →
  ¬ (1 ≤ p ≤ 5)%Z →
  (Get params "deadline" = "" ∨ is_Some (Parse (Get params "deadline"))) →
  ∃ patch,
    paramsToPatch TrimSpace ToLower Parse params = Ok patch ∧
    pPriority patch = Some p ∧
    ∀ now1 now2 match_ w,
      setTodoOperation TrimSpace now1 now2 match_ patch w
      = Some (Err "priority out of range (1-5)", w).
Proof.
  intros Hp Hr Hd. unfold paramsToPatch. rewrite Hp.
  assert (∃ d, stringToDeadline Parse (Get params "deadline") = Ok d) as [d ->].
  { unfold stringToDeadline. destruct Hd as [-> | [d Hd]]; [by eexists|].
    rewrite Hd. destruct (String.eqb _ _); by eexists. }
  eexists. split; [reflexivity|]. split; [reflexivity|].
  intros now1 now2 match_ w. unfold setTodoOperation. simpl.
  destruct (isValidPriority p) eqn:Hv; [|reflexivity].
  apply isValidPriority_range in Hv. lia.
Qed.

(** X16.  A form with none of the five fields filled in gives the empty
    patch, and [setTodoOperation] with the empty patch succeeds and
    leaves the collection as it is, whatever summary is matched. *)
Theorem paramsToPatch_blank (params : Values) :
  TrimSpace "" = "" → ToLower "" = "" →
  Get params "done" = "" → Get params "summary" = "" →
  Get params "details" = "" → Get params "priority" = "" →
  Get params "deadline" = "" →
  paramsToPatch TrimSpace ToLower Parse params = Ok emptyPatch ∧
  ∀ now1 now2 match_ w,
    wf w (todosVar w) →
    ∃ msg w',
      setTodoOperation TrimSpace now1 now2 match_ emptyPatch w = Some (Ok msg, w') ∧
      todosVar w' = todosVar w ∧
      contents w' (todosVar w') = contents w (todosVar w).
Proof.
  intros Ht Hl H1 H2 H3 H4 H5. split.
  - unfold paramsToPatch, isTrue. rewrite H1, H2, H3, H4, H5, Ht, Hl. reflexivity.
  - intros now1 now2 match_ w Hwf.
    assert (validPatch TrimSpace now1 emptyPatch) as Hvalid
      by (repeat split; simpl; discriminate).
    destruct (setTodoOperation_outcome TrimSpace now1 now2 match_ emptyPatch w
                Hwf Hvalid) as (w' & Hrun & Hv & _ & _ & Hc & _).
    eexists _, w'. split; [exact Hrun|]. split; [done|].
    rewrite Hc. rewrite <- (list_fmap_id (contents w (todosVar w))) at 2.
    apply list_fmap_ext. intros i x _.
    unfold patchMatching. by destruct (String.eqb _ _).
Qed.
End WebForm.

(** ** The display order does not depend on the order of storage *)

Lemma sorted_perm_unique (lt : Todo → Todo → bool) (l1 : list Todo) :
  ∀ l2,
    l1 ≡ₚ l2 →
    (∀ a b, a ∈ l1 → b ∈ l1 → a ≠ b → lt a b = true ∨ lt b a = true) →
    StronglySorted (λ a b, lt b a = false) l1 →
    StronglySorted (λ a b, lt b a = false) l2 →
    l1 = l2.
Proof.
  induction l1 as [|a l1 IH]; intros l2 Hperm Htot Hs1 Hs2.
  - by apply Permutation_nil_l in Hperm.
  - destruct l2 as [|b l2]; [by apply Permutation_nil_r in Hperm|].
    apply StronglySorted_inv in Hs1 as [Hs1 Ha].
    apply StronglySorted_inv in Hs2 as [Hs2 Hb].
    rewrite Forall_forall in Ha, Hb.
    assert (a = b) as <-.
    { destruct (decide (a = b)) as [|Hne]; [done|]. exfalso.
      assert (b ∈ l1) as Hbl.
      { assert (b ∈ a :: l1) as H by (rewrite Hperm; left).
        apply elem_of_cons in H as [->|]; done. }
      assert (a ∈ l2) as Hal.
      { assert (a ∈ b :: l2) as H by (rewrite <- Hperm; left).
        apply elem_of_cons in H as [->|]; done. }
      pose proof (Ha b Hbl) as H1. pose proof (Hb a Hal) as H2. simpl in H1, H2.
      destruct (Htot a b) as [H|H]; [left | by right | done | congruence..]. }
    f_equal. apply IH; [by eapply Permutation_cons_inv| |done..].
    intros x y Hx Hy. apply Htot; by right.
Qed.

Lemma sortTodos_contents
    (sortOrder : (Todo → Todo → bool) → list Todo → list Todo)
    (todos : slice) (w : World) :
  sortContract sortOrder → wf w todos →
  ∃ sorted w',
    sortTodos sortOrder todos w = Some (sorted, w') ∧
    contents w' sorted = sortOrder sortTodos_less (contents w todos).
Proof.
  intros Hsort Hwf.
  destruct (sortTodos_run sortOrder todos w Hwf) as (p & Hfresh & Hrun).
  eexists _, _. split; [exact Hrun|].
  unfold contents at 1, arrayOf at 1. cbn [heap setHeap s_ptr s_len].
  rewrite lookup_insert_eq. apply take_ge.
  destruct (Hsort sortTodos_less (contents w todos)) as [Hperm _].
  rewrite (Permutation_length Hperm), length_contents by done. done.
Qed.

(** X17.  When no two records tie in the display order, the list that
    [sortTodos] returns depends only on which records are stored, not
    on the order (or the array) in which they are stored. *)
Theorem sortTodos_storage_order
    (sortOrder : (Todo → Todo → bool) → list Todo → list Todo)
    (todos1 todos2 : slice) (w1 w2 : World) :
  sortContract sortOrder →
  wf w1 todos1 → wf w2 todos2 →
  contents w1 todos1 ≡ₚ contents w2 todos2 →
  noTies (contents w1 todos1) →
  ∃ s1 w1' s2 w2',
    sortTodos sortOrder todos1 w1 = Some (s1, w1') ∧
    sortTodos sortOrder todos2 w2 = Some (s2, w2') ∧
    contents w1' s1 = contents w2' s2.
Proof.
  intros Hsort Hwf1 Hwf2 Hperm Hties.
  destruct (sortTodos_contents sortOrder todos1 w1 Hsort Hwf1)
    as (s1 & w1' & Hrun1 & Hc1).
  destruct (sortTodos_contents sortOrder todos2 w2 Hsort Hwf2)
    as (s2 & w2' & Hrun2 & Hc2).
  exists s1, w1', s2, w2'. split; [exact Hrun1|]. split; [exact Hrun2|].
  rewrite Hc1, Hc2.
  destruct (Hsort sortTodos_less (contents w1 todos1)) as [Hp1 Hs1].
  destruct (Hsort sortTodos_less (contents w2 todos2)) as [Hp2 Hs2].
  apply (sorted_perm_unique sortTodos_less).
  - by rewrite Hp1, Hp2.
  - intros a b Ha Hb. rewrite Hp1 in Ha, Hb. by apply Hties.
  - apply Hs1, sortTodos_less_transitiveOrdering.
  - apply Hs2, sortTodos_less_transitiveOrdering.
Qed.

(** ** More on the deadline validator *)

(** X18.  [isValidDeadline] accepts every instant at least twelve hours
    after the present and rejects every instant more than twelve hours
    before it; an instant later than an accepted one is accepted, and
    what is accepted at some time is accepted at any earlier time. *)
Theorem isValidDeadline_window (now t : Time) :
  ((now + 12 * Hour ≤ t)%Z → isValidDeadline now t = true) ∧
  ((t < now - 12 * Hour)%Z → isValidDeadline now t = false) ∧
  (∀ t', isValidDeadline now t = true → (t ≤ t')%Z → isValidDeadline now t' = true) ∧
  (∀ now', isValidDeadline now' t = true → (now ≤ now')%Z →
           isValidDeadline now t = true).
Proof.
  assert (∀ n : Time, (n - 12 * Hour < Round n (Hour * 24) ≤ n + 12 * Hour)%Z)
    as Hround.
  { intros n. rewrite Round_Day. unfold clock, calendarDay.
    rewrite Day_value. change (12 * Hour)%Z with 43200000000000%Z.
    pose proof (Z.div_mod n 86400000000000 ltac:(lia)).
    pose proof (Z.mod_pos_bound n 86400000000000 ltac:(lia)).
    destruct (_ <? _)%Z eqn:E; [apply Z.ltb_lt in E | apply Z.ltb_ge in E]; lia. }
  assert (∀ n n' : Time, (n ≤ n')%Z →
            (Round n (Hour * 24) ≤ Round n' (Hour * 24))%Z) as Hmono.
  { intros n n' Hle. rewrite !Round_Day. unfold clock, calendarDay.
    rewrite Day_value.
    pose proof (Z.div_mod n 86400000000000 ltac:(lia)).
    pose proof (Z.mod_pos_bound n 86400000000000 ltac:(lia)).
    pose proof (Z.div_mod n' 86400000000000 ltac:(lia)).
    pose proof (Z.mod_pos_bound n' 86400000000000 ltac:(lia)).
    assert (n `div` 86400000000000 ≤ n' `div` 86400000000000)%Z
      by (apply Z.div_le_mono; lia).
    destruct (Z.ltb_spec (n `mod` 86400000000000 + n `mod` 86400000000000)
                86400000000000);
      destruct (Z.ltb_spec (n' `mod` 86400000000000 + n' `mod` 86400000000000)
                  86400000000000); nia. }
  split; [|split; [|split]].
  - intros H. apply isValidDeadline_spec. pose proof (Hround now). lia.
  - intros H. apply not_true_is_false. rewrite isValidDeadline_spec.
    pose proof (Hround now). lia.
  - intros t'. rewrite !isValidDeadline_spec. lia.
  - intros now'. rewrite !isValidDeadline_spec. intros H Hle.
    pose proof (Hmono now now' Hle). lia.
Qed.

(** ** The earlier variant against the current one *)

Section ParseIntFacts.
Local Open Scope Z_scope.
Import strconv.

(** The loop of [ParseUint] at any size up to 64 bits. *)
Lemma parseUintLoop_decimal (maxVal : Z) (s : string) (n : Z) :
  0 <= maxVal < 2 ^ 64 → 0 <= n <= maxVal →
  match decimalDigits s n with
  | Some v =>
      if v <=? maxVal then parseUintLoop maxVal s n = (v, None)
      else parseUintLoop maxVal s n = (maxVal, Some ErrRange)
  | None =>
      parseUintLoop maxVal s n = (0, Some ErrSyntax) ∨
      parseUintLoop maxVal s n = (maxVal, Some ErrRange)
  end.
Proof.
  intros Hmax. change (2 ^ 64) with 18446744073709551616 in Hmax.
  revert n. induction s as [|c s IH]; simpl; intros n Hn.
  - destruct (Z.leb_spec n maxVal); [reflexivity | lia].
  - pose proof (digit_cases c) as Hc.
    destruct (digit (byte c)) as [d|]; destruct (isDigit c) eqn:Hd;
      try discriminate; try (left; reflexivity).
    + apply andb_prop in Hc as [Hc Hlt]. apply andb_prop in Hc as [Heq Hge].
      apply Z.eqb_eq in Heq. apply Z.leb_le in Hge. apply Z.ltb_lt in Hlt.
      subst d.
      destruct (Z.leb_spec 10 (byte c - 48)); [lia|].
      change (maxUint64 `div` 10 + 1) with 1844674407370955162.
      change (2 ^ 64) with 18446744073709551616.
      assert (Hover : n * 10 + (byte c - 48) > maxVal →
        match decimalDigits s (n * 10 + (byte c - 48)) with
        | Some v =>
            if v <=? maxVal then (maxVal, Some ErrRange) = (v, @None NumError)
            else (maxVal, Some ErrRange) = (maxVal, Some ErrRange)
        | None =>
            (maxVal, Some ErrRange) = (0, Some ErrSyntax) ∨
            (maxVal, Some ErrRange) = (maxVal, Some ErrRange)
        end).
      { intros Hbig.
        destruct (decimalDigits s _) as [v|] eqn:Hv; [|right; reflexivity].
        apply decimalDigits_ge in Hv; [|lia].
        destruct (Z.leb_spec v maxVal); [lia | reflexivity]. }
      destruct (Z.leb_spec 1844674407370955162 n); [apply Hover; lia|].
      destruct (Z.lt_ge_cases (n * 10 + (byte c - 48)) 18446744073709551616)
        as [Hsmall|Hwrap].
      * rewrite (Z.mod_small (n * 10 + (byte c - 48)) 18446744073709551616) by lia.
        destruct (Z.ltb_spec (n * 10 + (byte c - 48)) (n * 10)); [lia|].
        destruct (Z.ltb_spec maxVal (n * 10 + (byte c - 48))); simpl;
          [apply Hover; lia | apply IH; lia].
      * assert ((n * 10 + (byte c - 48)) mod 18446744073709551616
                = n * 10 + (byte c - 48) - 18446744073709551616) as ->.
        { symmetry. apply Z.mod_unique_pos with (q := 1); lia. }
        destruct (Z.ltb_spec (n * 10 + (byte c - 48) - 18446744073709551616) (n * 10));
          [|lia].
        simpl. apply Hover. lia.
    + apply Z.leb_le in Hc.
      destruct (Z.leb_spec 10 d); [left; reflexivity | lia].
Qed.

(** What [ParseInt] accepts: the decimal integers that fit the size. *)
Lemma ParseInt_accepts (bits : Z) (s : string) (n : Z) :
  2 <= bits <= 64 →
  ParseInt s bits = (n, None) ↔
  decimalInteger s = Some n ∧ - 2 ^ (bits - 1) <= n < 2 ^ (bits - 1).
Proof.
  intros Hbits.
  assert (2 ^ bits = 2 * 2 ^ (bits - 1)) as Hpow.
  { rewrite <- Z.pow_succ_r by lia. f_equal. lia. }
  assert (2 <= 2 ^ (bits - 1)) as Hpos
    by (change 2 with (2 ^ 1) at 1; apply Z.pow_le_mono_r; lia).
  assert (2 ^ bits <= 2 ^ 64) as Hle by (apply Z.pow_le_mono_r; lia).
  assert (Huint : ∀ s',
    match decimalNatural s' with
    | Some v =>
        if v <=? 2 ^ bits - 1 then ParseUint s' bits = (v, None)
        else ParseUint s' bits = (2 ^ bits - 1, Some ErrRange)
    | None =>
        ParseUint s' bits = (0, Some ErrSyntax) ∨
        ParseUint s' bits = (2 ^ bits - 1, Some ErrRange)
    end).
  { intros [|c' s']; [left; reflexivity|].
    apply (parseUintLoop_decimal (2 ^ bits - 1) (String c' s') 0); lia. }
  assert (Hsigned : ∀ (neg : bool) s',
    (match ParseUint s' bits with
     | (_, Some ErrSyntax) => (0, Some ErrSyntax)
     | (un, _) =>
         if negb neg && (2 ^ (bits - 1) <=? un) then (2 ^ (bits - 1) - 1, Some ErrRange)
         else if neg && (2 ^ (bits - 1) <? un) then (- 2 ^ (bits - 1), Some ErrRange)
         else (if neg then - un else un, None)
     end = (n, None)) ↔
    (if neg then Z.opp else id) <$> decimalNatural s' = Some n ∧
    - 2 ^ (bits - 1) <= n < 2 ^ (bits - 1)).
  { intros neg s'. pose proof (Huint s') as HU.
    destruct (decimalNatural s') as [v|] eqn:Hv; simpl.
    - apply decimalNatural_nonneg in Hv.
      destruct (Z.leb_spec v (2 ^ bits - 1)); rewrite HU; destruct neg; simpl;
        unfold id;
        repeat match goal with
          | |- context [Z.leb ?x ?y] => destruct (Z.leb_spec x y)
          | |- context [Z.ltb ?x ?y] => destruct (Z.ltb_spec x y)
          end; simpl;
        try lia;
        (split;
          [intros Heq; first [discriminate Heq
                             | injection Heq as <-; split; [done | lia]]
          |intros [Heq ?]; injection Heq as <-; first [reflexivity | lia]]).
    - destruct HU as [-> | ->]; destruct neg; simpl;
        repeat match goal with
          | |- context [Z.leb ?x ?y] => destruct (Z.leb_spec x y)
          | |- context [Z.ltb ?x ?y] => destruct (Z.ltb_spec x y)
          end; simpl; try lia;
        (split; [discriminate | intros [Heq _]; discriminate Heq]). }
  unfold ParseInt, decimalInteger.
  destruct s as [|c s]; [split; [discriminate | intros [[=] _]]|].
  destruct (Z.eqb_spec (byte c) 43) as [Hp|Hp].
  - rewrite Hp. change (43 =? 45) with false. cbn [orb]. cbv zeta.
    rewrite (Hsigned false s). by destruct (decimalNatural s).
  - destruct (Z.eqb_spec (byte c) 45) as [Hm|Hm]; cbn [orb]; cbv zeta.
    + apply (Hsigned true s).
    + rewrite (Hsigned false (String c s)). by destruct (decimalNatural (String c s)).
Qed.

Lemma ParseInt_result (bits : Z) (s : string) :
  (∃ n, ParseInt s bits = (n, None)) ∨ (∃ x e, ParseInt s bits = (x, Some e)).
Proof. destruct (ParseInt s bits) as [x [e|]]; eauto. Qed.
End ParseIntFacts.

Lemma stringToPriority_accepts (s : string) (p : Z) :
  stringToPriority s = Ok (Some p) ↔
  s ≠ "" ∧ decimalInteger s = Some p ∧ (-128 ≤ p ≤ 127)%Z.
Proof.
  unfold stringToPriority.
  destruct (String.eqb_spec s "") as [->|Hs]; [split; [discriminate | by intros [? _]]|].
  destruct (strconv.ParseInt s 8) as [x [e|]] eqn:HP.
  - split; [discriminate|]. intros (_ & Hd & Hr).
    assert (strconv.ParseInt s 8 = (p, None)) as H
      by (apply ParseInt_accepts; [lia|]; split; [done|]; simpl; lia).
    congruence.
  - apply ParseInt_accepts in HP as [Hd Hr]; [|lia].
    change (2 ^ (8 - 1))%Z with 128%Z in Hr.
    rewrite int8_small by lia. split.
    + intros [= <-]. split; [done|]. split; [done | lia].
    + intros (_ & Hd' & _). congruence.
Qed.

Lemma parsePriority_accepts (s : string) (p : Z) :
  parsePriority s = Ok (Some p) ↔
  s ≠ "" ∧ decimalInteger s = Some p ∧ (1 ≤ p ≤ 5)%Z.
Proof.
  unfold parsePriority, strconv.Atoi.
  destruct (String.eqb_spec s "") as [->|Hs]; [split; [discriminate | by intros [? _]]|].
  destruct (strconv.ParseInt s 64) as [x [e|]] eqn:HP.
  - split; [discriminate|]. intros (_ & Hd & Hr).
    assert (strconv.ParseInt s 64 = (p, None)) as H.
    { apply ParseInt_accepts; [lia|]. split; [done|].
      change (2 ^ (64 - 1))%Z with 9223372036854775808%Z. lia. }
    congruence.
  - apply ParseInt_accepts in HP as [Hd Hr]; [|lia].
    destruct (Z.ltb_spec x 1); destruct (Z.ltb_spec 5 x); simpl.
    1-3: split; [discriminate | intros (_ & Hd' & ?); assert (x = p) by congruence; lia].
    rewrite int8_small by lia. split.
    + intros [= <-]. split; [done|]. split; [done | lia].
    + intros (_ & Hd' & _). congruence.
Qed.

Section Variants.
Variable TrimSpace : string → string.
Variable Parse : string → option Time.
Variable spare : nat → nat.

Lemma parseDeadline_accepts (now : Time) (s : string) (d : Time) :
  parseDeadline Parse now s = Ok (Some d) ↔
  stringToDeadline Parse s = Ok (Some d) ∧ isValidDeadline now d = true.
Proof.
  unfold parseDeadline, stringToDeadline.
  destruct (String.eqb s ""); [split; [discriminate | by intros [? _]]|].
  destruct (Parse s) as [dl|]; [|split; [discriminate | by intros [? _]]].
  assert (isValidDeadline now dl
          = negb (Compare dl (Round now (Hour * 24)%Z) =? -1)%Z) as Hv.
  { unfold isValidDeadline, Compare.
    destruct (Z.ltb_spec dl (Round now (Hour * 24)%Z)); [reflexivity|].
    destruct (Z.ltb_spec (Round now (Hour * 24)%Z) dl); reflexivity. }
  cbv zeta.
  destruct (Compare dl (Round now (Hour * 24)%Z) =? -1)%Z; simpl in Hv.
  - split; [discriminate|]. intros [[= <-] H]. congruence.
  - split; [intros [= <-]; done | by intros [[= <-] _]].
Qed.

(** X19.  The earlier parsers are the current parsers followed by the
    validators: [parsePriority] returns a number exactly when
    [stringToPriority] returns it and [isValidPriority] accepts it,
    [parseDeadline] returns a date exactly when [stringToDeadline]
    returns it and [isValidDeadline] accepts it, and each priority
    parser returns no number exactly on the empty text. *)
Theorem parsers_agree (now : Time) (s : string) :
  (∀ p, parsePriority s = Ok (Some p) ↔
        stringToPriority s = Ok (Some p) ∧ isValidPriority p = true) ∧
  (∀ d, parseDeadline Parse now s = Ok (Some d) ↔
        stringToDeadline Parse s = Ok (Some d) ∧ isValidDeadline now d = true) ∧
  (parsePriority s = Ok None ↔ s = "") ∧
  (stringToPriority s = Ok None ↔ s = "").
Proof.
  split; [|split; [|split]].
  - intros p. rewrite parsePriority_accepts, stringToPriority_accepts,
      isValidPriority_range. split.
    + intros (Hs & Hd & Hr). repeat split; (done || lia).
    + intros ((Hs & Hd & _) & Hr). done.
  - intros d. apply parseDeadline_accepts.
  - unfold parsePriority. destruct (String.eqb_spec s ""); [done|].
    destruct (strconv.Atoi s) as [x [e|]]; [done|].
    destruct (_ || _); done.
  - unfold stringToPriority. destruct (String.eqb_spec s ""); [done|].
    destruct (strconv.ParseInt s 8) as [x [e|]]; done.
Qed.

Lemma createTodo_ok (now1 now2 : Time)
    (summary details deadlineStr priorityStr : string) (t : Todo) :
  createTodo TrimSpace Parse now1 now2 summary details deadlineStr priorityStr
    = Ok t ↔
  TrimSpace summary ≠ "" ∧
  deadlineStr ≠ "" ∧ Parse deadlineStr = Some (Deadline t) ∧
  isValidDeadline now1 (Deadline t) = true ∧
  (if String.eqb priorityStr "" then Priority t = 1%Z
   else stringToPriority priorityStr = Ok (Some (Priority t)) ∧
        (1 ≤ Priority t ≤ 5)%Z) ∧
  AddedAt t = now2 ∧ DoneAt t = zero ∧ Done t = false ∧
  Summary t = TrimSpace summary ∧ Details t = details.
Proof.
  unfold createTodo.
  destruct (String.eqb_spec (TrimSpace summary) "") as [Hs|Hs];
    [split; [discriminate | by intros [? _]]|].
  pose proof (parseDeadline_accepts now1 deadlineStr) as HD.
  destruct (parseDeadline Parse now1 deadlineStr) as [[d|]|e] eqn:Hpd.
  - destruct (proj1 (HD d) eq_refl) as [Hsd Hv].
    assert (deadlineStr ≠ "" ∧ Parse deadlineStr = Some d) as [Hne HP].
    { revert Hsd. unfold stringToDeadline.
      destruct (String.eqb_spec deadlineStr ""); [discriminate|].
      destruct (Parse deadlineStr); [by intros [= ->] | discriminate]. }
    pose proof (parsePriority_accepts priorityStr) as HPr.
    pose proof (stringToPriority_accepts priorityStr) as HSp.
    destruct (parsePriority priorityStr) as [[v|]|e] eqn:Hpp.
    + destruct (proj1 (HPr v) eq_refl) as (Hpne & Hdec & Hr).
      apply String.eqb_neq in Hpne. rewrite Hpne. split.
      * intros [= <-]. simpl. repeat (split; [done|]).
        split; [|done]. split; [|done]. apply HSp. apply String.eqb_neq in Hpne.
        repeat split; (done || lia).
      * intros (_ & _ & HP' & _ & [Hsp Hr'] & Ha & Hz & Hdn & Hsum & Hdet).
        destruct t; simpl in *. subst.
        apply HSp in Hsp as (_ & Hdec' & _). congruence.
    + assert (priorityStr = "") as ->.
      { revert Hpp. unfold parsePriority.
        destruct (String.eqb_spec priorityStr ""); [done|].
        destruct (strconv.Atoi priorityStr) as [x [e|]]; [done|].
        destruct (_ || _); done. }
      simpl. split.
      * intros [= <-]. simpl. done.
      * intros (_ & _ & HP' & _ & Hp & Ha & Hz & Hdn & Hsum & Hdet).
        destruct t; simpl in *. subst. f_equal. f_equal. congruence.
    + split; [discriminate|].
      intros (_ & _ & HP' & _ & Hp & _). exfalso.
      destruct (String.eqb_spec priorityStr "") as [->|Hpne]; [done|].
      destruct Hp as [Hsp Hr].
      assert (@Err (option Z) e = Ok (Some (Priority t))) as H.
      { apply HPr. apply HSp in Hsp as (_ & ? & _). done. }
      discriminate.
  - split; [discriminate|]. intros (_ & Hne & HP & Hv & _). exfalso.
    assert (Ok (@None Time) = Ok (Some (Deadline t))) as H.
    { apply HD. split; [|done]. unfold stringToDeadline.
      apply String.eqb_neq in Hne. by rewrite Hne, HP. }
    discriminate.
  - split; [discriminate|]. intros (_ & Hne & HP & Hv & _). exfalso.
    assert (@Err (option Time) e = Ok (Some (Deadline t))) as H.
    { apply HD. split; [|done]. unfold stringToDeadline.
      apply String.eqb_neq in Hne. by rewrite Hne, HP. }
    discriminate.
Qed.

(** X20.  A record that [createTodo] returns is valid: priority within
    1..5, trimmed non-empty summary, not done with a zero [DoneAt], and a
    deadline that is the parsed date and is not before the rounded
    present. *)
Theorem createTodo_valid (now1 now2 : Time)
    (summary details deadlineStr priorityStr : string) (t : Todo) :
  createTodo TrimSpace Parse now1 now2 summary details deadlineStr priorityStr
    = Ok t →
  (1 ≤ Priority t ≤ 5)%Z ∧
  Summary t = TrimSpace summary ∧ Summary t ≠ "" ∧
  Done t = false ∧ DoneAt t = zero ∧ completionInvariant t ∧
  Parse deadlineStr = Some (Deadline t) ∧
  (Round now1 (Hour * 24)%Z ≤ Deadline t)%Z.
Proof.
  intros (Hs & Hne & HP & Hv & Hp & Ha & Hz & Hd & Hsum & Hdet)%createTodo_ok.
  split.
  { destruct (String.eqb priorityStr ""); [lia | by destruct Hp]. }
  split; [done|]. split; [by rewrite Hsum|]. split; [done|]. split; [done|].
  split; [unfold completionInvariant; by rewrite Hd, Hz|].
  split; [done|]. by apply isValidDeadline_spec.
Qed.

(** X21.  When a deadline is given, the earlier [createTodo] and the
    current [addTodoOperation] agree ([time.Now()] read alike):
    [createTodo] returns a record exactly when [addTodoOperation]
    succeeds and appends that record to the collection. *)
Theorem createTodo_matches_add (now0 now1 now2 : Time)
    (summary details deadlineStr priorityStr : string) (t : Todo) (w : World) :
  wf w (todosVar w) →
  deadlineStr ≠ "" →
  createTodo TrimSpace Parse now1 now2 summary details deadlineStr priorityStr
    = Ok t ↔
  ∃ w',
    addTodoOperation TrimSpace Parse spare now0 now1 now2
      summary details deadlineStr priorityStr w = Some (Ok TodoAdded, w') ∧
    contents w' (todosVar w') = contents w (todosVar w) ++ [t].
Proof.
  intros Hwf Hne.
  destruct (addTodoOperation_outcome TrimSpace Parse spare now0 now1 now2
              summary details deadlineStr priorityStr w Hwf)
    as (r & w' & Hrun & Hr).
  rewrite createTodo_ok. apply String.eqb_neq in Hne. split.
  - intros (Hs & _ & HP & Hv & Hp & Ha & Hz & Hd & Hsum & Hdet).
    destruct Hr as [(e & -> & ->) |
      (-> & _ & _ & _ & _ & x & Hc & Hdx & Hzx & Hax & Hsx & Hdetx & Hrx & Hpx & Hdlx)].
    + (* the operation cannot refuse *)
      exfalso. revert Hrun. unfold addTodoOperation.
      apply String.eqb_neq in Hs. rewrite Hs.
      unfold stringToDeadline. rewrite Hne, HP, Hv. cbn [negb].
      destruct (String.eqb priorityStr "") eqn:Hpe.
      * apply String.eqb_eq in Hpe as ->.
        change (stringToPriority "") with (Ok (@None Z)). cbv beta iota zeta.
        destruct (addTodo_commit_file spare
          {| Priority := int8 1; Deadline := Deadline t; AddedAt := now2;
             DoneAt := zero; Done := false;
             Summary := TrimSpace summary; Details := details |} w Hwf)
          as (w2 & Hrun2 & _).
        rewrite Hrun2. discriminate.
      * destruct Hp as [Hsp Hr]. rewrite Hsp.
        apply isValidPriority_range in Hr. rewrite Hr. cbn [negb].
        destruct (addTodo_commit_file spare
          {| Priority := Priority t; Deadline := Deadline t; AddedAt := now2;
             DoneAt := zero; Done := false;
             Summary := TrimSpace summary; Details := details |} w Hwf)
          as (w2 & Hrun2 & _).
        rewrite Hrun2. discriminate.
    + exists w'. split; [exact Hrun|]. rewrite Hc. f_equal. f_equal.
      rewrite Hne in Hdlx. destruct Hdlx as [HPx _].
      assert (Priority x = Priority t) as Hpr.
      { destruct (String.eqb priorityStr ""); [congruence|].
        destruct Hp as [Hsp _]. congruence. }
      destruct x, t; simpl in *. congruence.
  - intros (w2 & Hrun2 & Hc2).
    rewrite Hrun2 in Hrun. injection Hrun as <- <-.
    destruct Hr as [(e & [=] & _) |
      (_ & _ & _ & _ & Hs & x & Hc & Hdx & Hzx & Hax & Hsx & Hdetx & Hrx & Hpx & Hdlx)].
    rewrite Hc2 in Hc. apply app_inj_tail in Hc as [_ <-].
    rewrite Hne in Hdlx. destruct Hdlx as [HP Hv].
    split; [done|]. split; [by apply String.eqb_neq|]. split; [done|].
    split; [done|]. split; [|done].
    destruct (String.eqb priorityStr ""); done.
Qed.
End Variants.

(** ** Patches that do not toggle *)

Lemma patchMatching_idempotent (now now' : Time) (match_ : string)
    (patch : TodoPatch) (x : Todo) :
  pDone patch ≠ Some true →
  (pSummary patch = None ∨ pSummary patch = Some match_) →
  patchMatching now' match_ patch (patchMatching now match_ patch x)
  = patchMatching now match_ patch x ∧
  (Summary (patchMatching now match_ patch x) = match_ ↔ Summary x = match_).
Proof.
  intros Hd Hs. unfold patchMatching.
  destruct (String.eqb_spec (Summary x) match_) as [Hm|Hm].
  - assert (Summary (patchRecord now patch x) = match_) as Hm'.
    { destruct (patchRecord_fields now patch x) as (-> & _).
      destruct Hs as [-> | ->]; done. }
    rewrite (proj2 (String.eqb_eq _ _) Hm'). split; [|done].
    destruct patch as [[[]|] [?|] [?|] [?|] [?|]]; done.
  - rewrite (proj2 (String.eqb_neq _ _) Hm). done.
Qed.

(** X22.  A patch that does not ask for the done toggle and does not
    rename is idempotent: [patchTodos] with it a second time, at any
    later time, reports the same number of records and leaves the state
    exactly as the first call left it. *)
Theorem patchTodos_idempotent (now now' : Time) (todos : slice)
    (match_ : string) (patch : TodoPatch) (w : World) :
  wf w todos →
  pDone patch ≠ Some true →
  (pSummary patch = None ∨ pSummary patch = Some match_) →
  ∃ (n : nat) (w1 : World),
    patchTodos now todos match_ patch w = Some (n, w1) ∧
    patchTodos now' todos match_ patch w1 = Some (n, w1).
Proof.
  intros Hwf Hd Hs.
  pose proof (wf_patched now todos match_ patch w Hwf) as Hwf1.
  pose proof (contents_patched now todos match_ patch w Hwf) as Hc.
  eexists _, _. split; [by apply patchTodos_run|].
  rewrite patchTodos_run by done. f_equal. f_equal.
  - rewrite Hc. generalize (contents w todos). intros l.
    induction l as [|x l IH]; [done|]. rewrite fmap_cons.
    destruct (patchMatching_idempotent now now' match_ patch x Hd Hs) as [_ Hiff].
    destruct (decide (Summary x = match_)) as [Hm|Hm].
    + rewrite !filter_cons_True by (done || by apply Hiff). simpl. by rewrite IH.
    + rewrite !filter_cons_False by (done || by rewrite Hiff). done.
  - unfold patched at 1.
    assert (patchMatching now' match_ patch
              <$> contents (patched now todos match_ patch w) todos
            = contents (patched now todos match_ patch w) todos) as ->.
    { rewrite Hc, <- list_fmap_compose.
      apply list_fmap_ext. intros i x _. simpl.
      by destruct (patchMatching_idempotent now now' match_ patch x Hd Hs). }
    unfold contents. rewrite take_drop. apply setArray_same.
Qed.

(** ** The further properties on the sample data *)

Lemma contents_sampleWorld :
  contents sampleWorld (todosVar sampleWorld) = [milk; rent; oatMilk].
Proof. reflexivity. Qed.

Lemma priorityInRange_sample :
  Forall priorityInRange (contents sampleWorld (todosVar sampleWorld)).
Proof.
  rewrite contents_sampleWorld.
  repeat constructor; unfold priorityInRange; simpl; lia.
Qed.

Lemma summary_nonempty_sample :
  Forall (λ x, Summary x ≠ "") (contents sampleWorld (todosVar sampleWorld)).
Proof. rewrite contents_sampleWorld. repeat constructor; discriminate. Qed.

Lemma wf_savedWorld : wf savedWorld (todosVar savedWorld).
Proof. vm_compute. lia. Qed.

Lemma synced_savedWorld : writable savedWorld = true → synced savedWorld.
Proof. intros _. reflexivity. Qed.

Lemma wf_shuffledWorld : wf shuffledWorld shuffledSlice.
Proof. vm_compute. lia. Qed.

Lemma contents_displayWorld :
  contents displayWorld displaySlice = [taskA; taskB; taskC; taskD].
Proof. reflexivity. Qed.

Lemma contents_shuffledWorld :
  contents shuffledWorld shuffledSlice = [taskD; taskB; taskA; taskC].
Proof. reflexivity. Qed.

Lemma display_shuffled :
  contents displayWorld displaySlice ≡ₚ contents shuffledWorld shuffledSlice.
Proof.
  rewrite contents_displayWorld, contents_shuffledWorld.
  etrans; [apply perm_swap|]. symmetry.
  apply (Permutation_cons_append [taskB; taskA; taskC] taskD).
Qed.

Lemma noTies_display : noTies (contents displayWorld displaySlice).
Proof.
  rewrite contents_displayWorld. intros a b Ha Hb Hab.
  apply list_elem_of_In in Ha, Hb. simpl in Ha, Hb.
  destruct Ha as [<-|[<-|[<-|[<-|[]]]]], Hb as [<-|[<-|[<-|[<-|[]]]]];
    first [by destruct Hab | by left; vm_compute | by right; vm_compute].
Qed.

Lemma validPatch_details (now : Time) : validPatch asciiTrimSpace now detailsPatch.
Proof. repeat split; intros ? [=]. Qed.

Lemma findFirstTodo_first_witness :
  wf sampleWorld sampleSlice ∧
  ∃ x found,
    findFirstTodo sampleSlice "buy milk" sampleWorld
      = Some ((x, found), sampleWorld) ∧
    (found = true ↔
       ∃ y, y ∈ contents sampleWorld sampleSlice ∧ Summary y = "buy milk").
Proof.
  split; [exact wf_sampleWorld|].
  destruct (findFirstTodo_first sampleSlice "buy milk" sampleWorld
              wf_sampleWorld) as (x & found & Hrun & Hiff & _).
  exists x, found. split; [exact Hrun | exact Hiff].
Defined.

Lemma addTodoOperation_rejects_witness :
  (asciiTrimSpace "call mum" = "" ∨
   (∃ d, "2024-03-14" ≠ "" ∧ parseYMD "2024-03-14" = Some d ∧
         (calendarDay d < calendarDay (At 2024 3 15 9 0))%Z) ∨
   (∃ p, stringToPriority "" = Ok (Some p) ∧ ¬ (1 ≤ p ≤ 5)%Z)) ∧
  ∃ e,
    addTodoOperation asciiTrimSpace parseYMD exactFit
      (At 2024 3 15 9 0) (At 2024 3 15 9 0) (At 2024 3 15 9 0)
      "call mum" "" "2024-03-14" "" sampleWorld = Some (Err e, sampleWorld).
Proof.
  assert (asciiTrimSpace "call mum" = "" ∨
   (∃ d, "2024-03-14" ≠ "" ∧ parseYMD "2024-03-14" = Some d ∧
         (calendarDay d < calendarDay (At 2024 3 15 9 0))%Z) ∨
   (∃ p, stringToPriority "" = Ok (Some p) ∧ ¬ (1 ≤ p ≤ 5)%Z)) as Hbad.
  { right. left. exists (Date 2024 3 14).
    split; [discriminate|]. split; [vm_compute; reflexivity|].
    vm_compute. reflexivity. }
  split; [exact Hbad|].
  destruct (addTodoOperation_rejects asciiTrimSpace parseYMD exactFit
              (At 2024 3 15 9 0) (At 2024 3 15 9 0) (At 2024 3 15 9 0)
              "call mum" "" "2024-03-14" "" sampleWorld Hbad) as (e & Hrun & _).
  exists e. exact Hrun.
Defined.

Lemma addTodoOperation_appends_witness :
  wf sampleWorld (todosVar sampleWorld) ∧
  ∃ r w',
    addTodoOperation asciiTrimSpace parseYMD exactFit
      (At 2024 3 15 9 0) (At 2024 3 15 9 0) (At 2024 3 15 9 0)
      "call mum" "" "2024-03-20" "3" sampleWorld = Some (r, w') ∧
    match r with
    | Err _ => w' = sampleWorld
    | Ok msg =>
        msg = TodoAdded ∧
        ∃ x, contents w' (todosVar w')
               = contents sampleWorld (todosVar sampleWorld) ++ [x] ∧
             Summary x = asciiTrimSpace "call mum"
    end.
Proof.
  split; [exact wf_sampleWorld|].
  destruct (addTodoOperation_appends asciiTrimSpace parseYMD exactFit
              (At 2024 3 15 9 0) (At 2024 3 15 9 0) (At 2024 3 15 9 0)
              "call mum" "" "2024-03-20" "3" sampleWorld wf_sampleWorld)
    as (r & w' & Hrun & Hres).
  exists r, w'. split; [exact Hrun|].
  destruct r as [msg|e]; [|exact Hres].
  destruct Hres as (Hmsg & x & Hc & Hs & _).
  split; [exact Hmsg|]. exists x. split; [exact Hc | exact Hs].
Defined.

Lemma priorityInRange_preserved_witness :
  wf sampleWorld (todosVar sampleWorld) ∧
  Forall priorityInRange (contents sampleWorld (todosVar sampleWorld)) ∧
  ∃ msg w',
    deleteTodoOperation exactFit "buy milk" sampleWorld = Some (msg, w') ∧
    Forall priorityInRange (contents w' (todosVar w')).
Proof.
  split; [exact wf_sampleWorld|]. split; [exact priorityInRange_sample|].
  destruct (priorityInRange_preserved asciiTrimSpace parseYMD exactFit
              sampleWorld wf_sampleWorld priorityInRange_sample)
    as (_ & _ & Hdel).
  exact (Hdel "buy milk").
Defined.

Lemma summary_nonempty_preserved_witness :
  asciiTrimSpace "" = "" ∧
  wf sampleWorld (todosVar sampleWorld) ∧
  Forall (λ x, Summary x ≠ "") (contents sampleWorld (todosVar sampleWorld)) ∧
  ∃ r w',
    setTodoOperation asciiTrimSpace (At 2024 3 15 9 0) (At 2024 3 15 9 0)
      "buy milk" (mkPatch None (Some "   ") None None None) sampleWorld
      = Some (r, w') ∧
    Forall (λ x, Summary x ≠ "") (contents w' (todosVar w')).
Proof.
  split; [reflexivity|]. split; [exact wf_sampleWorld|].
  split; [exact summary_nonempty_sample|].
  destruct (summary_nonempty_preserved asciiTrimSpace parseYMD exactFit
              sampleWorld eq_refl wf_sampleWorld summary_nonempty_sample)
    as (_ & Hset).
  exact (Hset (At 2024 3 15 9 0) (At 2024 3 15 9 0) "buy milk"
              (mkPatch None (Some "   ") None None None)).
Defined.

Lemma setTodoOperation_updates_witness :
  wf sampleWorld (todosVar sampleWorld) ∧
  validPatch asciiTrimSpace (At 2024 3 15 9 0) detailsPatch ∧
  ∃ msg w',
    setTodoOperation asciiTrimSpace (At 2024 3 15 9 0) (At 2024 3 15 9 0)
      "buy milk" detailsPatch sampleWorld = Some (Ok msg, w') ∧
    ∃ n, msg = Updated n "buy milk" ∧ 0 < n.
Proof.
  split; [exact wf_sampleWorld|]. split; [exact (validPatch_details _)|].
  destruct (setTodoOperation_updates asciiTrimSpace
              (At 2024 3 15 9 0) (At 2024 3 15 9 0) "buy milk" detailsPatch
              sampleWorld wf_sampleWorld (validPatch_details _))
    as (msg & w' & Hrun & _ & Hsome).
  exists msg, w'. split; [exact Hrun|].
  destruct (Hsome milk) as (n & Hmsg & Hn & _).
  - rewrite contents_sampleWorld. apply list_elem_of_In. simpl. tauto.
  - reflexivity.
  - exists n. split; [exact Hmsg | exact Hn].
Defined.

Lemma operations_keep_file_witness :
  wf savedWorld (todosVar savedWorld) ∧
  (writable savedWorld = true → synced savedWorld) ∧
  ∃ msg w',
    deleteTodoOperation exactFit "buy milk" savedWorld = Some (msg, w') ∧
    (writable savedWorld = true → synced w').
Proof.
  split; [exact wf_savedWorld|]. split; [exact synced_savedWorld|].
  destruct (operations_keep_file asciiTrimSpace parseYMD exactFit
              savedWorld wf_savedWorld synced_savedWorld)
    as (_ & _ & Hdel).
  destruct (Hdel "buy milk") as (msg & w' & Hrun & Hsync & _).
  exists msg, w'. split; [exact Hrun | exact Hsync].
Defined.

Lemma deleteTodoOperation_removes_witness :
  wf sampleWorld (todosVar sampleWorld) ∧
  milk ∈ contents sampleWorld (todosVar sampleWorld) ∧
  Summary milk = "buy milk" ∧
  ∃ n w',
    deleteTodoOperation exactFit "buy milk" sampleWorld
      = Some (Deleted n "buy milk", w') ∧
    0 < n ∧
    contents w' (todosVar w')
      = filter (λ y, Summary y ≠ "buy milk")
          (contents sampleWorld (todosVar sampleWorld)).
Proof.
  assert (milk ∈ contents sampleWorld (todosVar sampleWorld)) as Hin.
  { rewrite contents_sampleWorld. apply list_elem_of_In. simpl. tauto. }
  split; [exact wf_sampleWorld|]. split; [exact Hin|]. split; [reflexivity|].
  destruct (deleteTodoOperation_removes exactFit "buy milk" sampleWorld milk
              wf_sampleWorld Hin eq_refl)
    as (n & w' & Hrun & Hn & _ & Hc & _).
  exists n, w'. split; [exact Hrun|]. split; [exact Hn | exact Hc].
Defined.

Lemma deleteTodoOperation_twice_witness :
  wf sampleWorld (todosVar sampleWorld) ∧
  ∃ msg w1 w2,
    deleteTodoOperation exactFit "buy milk" sampleWorld = Some (msg, w1) ∧
    deleteTodoOperation exactFit "buy milk" w1
      = Some (NoTodoFound "buy milk", w2) ∧
    contents w2 (todosVar w2) = contents w1 (todosVar w1).
Proof.
  split; [exact wf_sampleWorld|].
  destruct (deleteTodoOperation_twice exactFit "buy milk" sampleWorld
              wf_sampleWorld) as (msg & w1 & w2 & H1 & H2 & _ & _ & Hc).
  exists msg, w1, w2. split; [exact H1|]. split; [exact H2 | exact Hc].
Defined.

Lemma findFirstTodo_after_delete_witness :
  wf sampleWorld (todosVar sampleWorld) ∧
  ∃ msg w',
    deleteTodoOperation exactFit "buy milk" sampleWorld = Some (msg, w') ∧
    findFirstTodo (todosVar w') "buy milk" w' = Some ((zeroTodo, false), w').
Proof.
  split; [exact wf_sampleWorld|].
  exact (findFirstTodo_after_delete exactFit "buy milk" sampleWorld
           wf_sampleWorld).
Defined.

Lemma findFirstTodo_iff_updated_witness :
  wf sampleWorld (todosVar sampleWorld) ∧
  validPatch asciiTrimSpace (At 2024 3 15 9 0) detailsPatch ∧
  ∃ x found msg w',
    findFirstTodo (todosVar sampleWorld) "pay rent" sampleWorld
      = Some ((x, found), sampleWorld) ∧
    setTodoOperation asciiTrimSpace (At 2024 3 15 9 0) (At 2024 3 15 9 0)
      "pay rent" detailsPatch sampleWorld = Some (Ok msg, w') ∧
    (found = true ↔ ∃ n, 0 < n ∧ msg = Updated n "pay rent").
Proof.
  split; [exact wf_sampleWorld|]. split; [exact (validPatch_details _)|].
  destruct (findFirstTodo_iff_updated asciiTrimSpace
              (At 2024 3 15 9 0) (At 2024 3 15 9 0) "pay rent" detailsPatch
              sampleWorld wf_sampleWorld (validPatch_details _))
    as (x & found & msg & w' & Hfind & Hset & Hiff & _).
  exists x, found, msg, w'.
  split; [exact Hfind|]. split; [exact Hset | exact Hiff].
Defined.

Lemma setTodoOperation_rename_witness :
  wf sampleWorld (todosVar sampleWorld) ∧
  asciiTrimSpace "buy oat milk" ≠ "" ∧
  "buy milk" ≠ "buy oat milk" ∧
  ∃ msg w',
    setTodoOperation asciiTrimSpace (At 2024 3 15 9 0) (At 2024 3 15 9 0)
      "buy milk" (mkPatch None (Some "buy oat milk") None None None)
      sampleWorld = Some (Ok msg, w') ∧
    Forall (λ x, Summary x ≠ "buy milk") (contents w' (todosVar w')).
Proof.
  assert (asciiTrimSpace "buy oat milk" ≠ "") as Hnew
    by (vm_compute; discriminate).
  assert ("buy milk" ≠ "buy oat milk") as Hne by discriminate.
  split; [exact wf_sampleWorld|]. split; [exact Hnew|]. split; [exact Hne|].
  destruct (setTodoOperation_rename asciiTrimSpace
              (At 2024 3 15 9 0) (At 2024 3 15 9 0) "buy milk" "buy oat milk"
              sampleWorld wf_sampleWorld Hnew Hne)
    as (msg & w' & Hrun & Hnone & _).
  exists msg, w'. split; [exact Hrun | exact Hnone].
Defined.

Lemma paramsToPatch_never_witness :
  paramsToPatch asciiTrimSpace asciiToLower parseYMD editForm
    = Ok (mkPatch None (Some "buy oat milk") None (Some 4%Z)
            (Some (Date 2099 3 1))) ∧
  pDone (mkPatch None (Some "buy oat milk") None (Some 4%Z)
           (Some (Date 2099 3 1))) ≠ Some false ∧
  pSummary (mkPatch None (Some "buy oat milk") None (Some 4%Z)
              (Some (Date 2099 3 1))) ≠ Some "".
Proof.
  assert (paramsToPatch asciiTrimSpace asciiToLower parseYMD editForm
    = Ok (mkPatch None (Some "buy oat milk") None (Some 4%Z)
            (Some (Date 2099 3 1)))) as Hrun by (vm_compute; reflexivity).
  split; [exact Hrun|].
  destruct (paramsToPatch_never asciiTrimSpace asciiToLower parseYMD
              editForm _ Hrun) as (Hd & Hs & _).
  split; [exact Hd | exact Hs].
Defined.

Lemma paramsToPatch_then_set_witness :
  stringToPriority (Get priority9Form "priority") = Ok (Some 9%Z) ∧
  ¬ (1 ≤ 9 ≤ 5)%Z ∧
  (Get priority9Form "deadline" = ""
   ∨ is_Some (parseYMD (Get priority9Form "deadline"))) ∧
  ∃ patch,
    paramsToPatch asciiTrimSpace asciiToLower parseYMD priority9Form
      = Ok patch ∧
    setTodoOperation asciiTrimSpace (At 2024 3 15 9 0) (At 2024 3 15 9 0)
      "buy milk" patch sampleWorld
    = Some (Err "priority out of range (1-5)", sampleWorld).
Proof.
  assert (stringToPriority (Get priority9Form "priority") = Ok (Some 9%Z))
    as Hp by (vm_compute; reflexivity).
  assert (¬ (1 ≤ 9 ≤ 5)%Z) as Hout by lia.
  assert (Get priority9Form "deadline" = ""
          ∨ is_Some (parseYMD (Get priority9Form "deadline"))) as Hd
    by (left; vm_compute; reflexivity).
  split; [exact Hp|]. split; [exact Hout|]. split; [exact Hd|].
  destruct (paramsToPatch_then_set asciiTrimSpace asciiToLower parseYMD
              priority9Form 9%Z Hp Hout Hd) as (patch & Hrun & _ & Hset).
  exists patch. split; [exact Hrun|]. apply Hset.
Defined.

Lemma paramsToPatch_blank_witness :
  asciiTrimSpace "" = "" ∧ asciiToLower "" = "" ∧
  Get (∅ : Values) "done" = "" ∧
  paramsToPatch asciiTrimSpace asciiToLower parseYMD ∅ = Ok emptyPatch ∧
  ∃ msg w',
    setTodoOperation asciiTrimSpace (At 2024 3 15 9 0) (At 2024 3 15 9 0)
      "buy milk" emptyPatch sampleWorld = Some (Ok msg, w') ∧
    contents w' (todosVar w') = contents sampleWorld (todosVar sampleWorld).
Proof.
  split; [reflexivity|]. split; [reflexivity|]. split; [reflexivity|].
  assert (∀ key, Get (∅ : Values) key = "") as Hget by reflexivity.
  destruct (paramsToPatch_blank asciiTrimSpace asciiToLower parseYMD
              (∅ : Values) eq_refl eq_refl (Hget "done") (Hget "summary")
              (Hget "details") (Hget "priority") (Hget "deadline"))
    as (Hrun & Hset).
  split; [exact Hrun|].
  destruct (Hset (At 2024 3 15 9 0) (At 2024 3 15 9 0) "buy milk" sampleWorld
              wf_sampleWorld) as (msg & w' & Hop & _ & Hc).
  exists msg, w'. split; [exact Hop | exact Hc].
Defined.

Lemma sortTodos_storage_order_witness :
  sortContract insertionSort ∧
  wf displayWorld displaySlice ∧ wf shuffledWorld shuffledSlice ∧
  contents displayWorld displaySlice ≡ₚ contents shuffledWorld shuffledSlice ∧
  noTies (contents displayWorld displaySlice) ∧
  ∃ s1 w1' s2 w2',
    sortTodos insertionSort displaySlice displayWorld = Some (s1, w1') ∧
    sortTodos insertionSort shuffledSlice shuffledWorld = Some (s2, w2') ∧
    contents w1' s1 = contents w2' s2.
Proof.
  split; [exact insertionSort_contract|]. split; [exact wf_displayWorld|].
  split; [exact wf_shuffledWorld|]. split; [exact display_shuffled|].
  split; [exact noTies_display|].
  exact (sortTodos_storage_order insertionSort displaySlice shuffledSlice
           displayWorld shuffledWorld insertionSort_contract wf_displayWorld
           wf_shuffledWorld display_shuffled noTies_display).
Defined.

Lemma createTodo_valid_witness :
  createTodo asciiTrimSpace parseYMD (At 2024 3 15 9 0) (At 2024 3 15 9 0)
    " call mum " "" "2024-03-20" "3"
  = Ok (mkTodo 3 (Date 2024 3 20) (At 2024 3 15 9 0) zero false "call mum" "") ∧
  (Round (At 2024 3 15 9 0) (Hour * 24)%Z
   ≤ Deadline (mkTodo 3 (Date 2024 3 20) (At 2024 3 15 9 0) zero false
                 "call mum" ""))%Z.
Proof.
  assert (createTodo asciiTrimSpace parseYMD (At 2024 3 15 9 0)
            (At 2024 3 15 9 0) " call mum " "" "2024-03-20" "3"
          = Ok (mkTodo 3 (Date 2024 3 20) (At 2024 3 15 9 0) zero false
                  "call mum" "")) as Hrun by (vm_compute; reflexivity).
  split; [exact Hrun|].
  destruct (createTodo_valid asciiTrimSpace parseYMD (At 2024 3 15 9 0)
              (At 2024 3 15 9 0) " call mum " "" "2024-03-20" "3" _ Hrun)
    as (_ & _ & _ & _ & _ & _ & _ & Hd).
  exact Hd.
Defined.

Lemma createTodo_matches_add_witness :
  wf sampleWorld (todosVar sampleWorld) ∧
  "2024-03-20" ≠ "" ∧
  ∃ w',
    addTodoOperation asciiTrimSpace parseYMD exactFit
      (At 2024 3 15 9 0) (At 2024 3 15 9 0) (At 2024 3 15 9 0)
      " call mum " "" "2024-03-20" "3" sampleWorld = Some (Ok TodoAdded, w') ∧
    contents w' (todosVar w')
    = contents sampleWorld (todosVar sampleWorld)
      ++ [mkTodo 3 (Date 2024 3 20) (At 2024 3 15 9 0) zero false "call mum" ""].
Proof.
  assert ("2024-03-20" ≠ "") as Hne by discriminate.
  split; [exact wf_sampleWorld|]. split; [exact Hne|].
  apply (createTodo_matches_add asciiTrimSpace parseYMD exactFit
           (At 2024 3 15 9 0) (At 2024 3 15 9 0) (At 2024 3 15 9 0)
           " call mum " "" "2024-03-20" "3" _ sampleWorld wf_sampleWorld Hne).
  vm_compute. reflexivity.
Defined.

Lemma patchTodos_idempotent_witness :
  wf sampleWorld sampleSlice ∧
  pDone detailsPatch ≠ Some true ∧
  (pSummary detailsPatch = None ∨ pSummary detailsPatch = Some "buy milk") ∧
  ∃ n w1,
    patchTodos (At 2024 3 15 9 0) sampleSlice "buy milk" detailsPatch
      sampleWorld = Some (n, w1) ∧
    patchTodos (At 2024 3 16 9 0) sampleSlice "buy milk" detailsPatch w1
      = Some (n, w1).
Proof.
  assert (pDone detailsPatch ≠ Some true) as Hd by discriminate.
  assert (pSummary detailsPatch = None
          ∨ pSummary detailsPatch = Some "buy milk") as Hs
    by (left; reflexivity).
  split; [exact wf_sampleWorld|]. split; [exact Hd|]. split; [exact Hs|].
  exact (patchTodos_idempotent (At 2024 3 15 9 0) (At 2024 3 16 9 0)
           sampleSlice "buy milk" detailsPatch sampleWorld wf_sampleWorld
           Hd Hs).
Defined.
